(** * Quoneq: the layer above the transport engine

    A shallow embedding of the request/response layer of the Quoneq
    network toolkit (HTTP, FTP, SMTP, Telnet and Tor clients) together
    with the properties of its response decoder, listing engine,
    payload streamer and command sequencer.

    The transport engine (libcurl) and the local file system are
    collaborators of the code; they appear here as an [engine] record
    over which every statement is quantified. *)

From Stdlib Require Import ZArith Ascii Lia.
From Stdlib Require String.
From stdpp Require Import gmap strings list sorting pretty.

(** * [std::string] and stream extraction *)

Module CxxString.

(** [size_t] is a 64-bit unsigned integer and [npos] its largest value. *)
Definition size_t_modulus : Z := 2 ^ 64.
Definition npos : Z := size_t_modulus - 1.
Definition wrap (z : Z) : Z := z mod size_t_modulus.

Definition CR : ascii := "013"%char.
Definition LF : ascii := "010"%char.
Definition CRLF : string := String CR (String LF EmptyString).

Definition empty (s : string) : bool :=
  match s with EmptyString => true | String _ _ => false end.

Definition size (s : string) : Z := Z.of_nat (String.length s).

Definition char_eqb (a b : ascii) : bool := bool_decide (a = b).
Definition str_eqb (a b : string) : bool := bool_decide (a = b).

Fixpoint drop_chars (n : nat) (s : string) : string :=
  match n, s with
  | S n', String _ s' => drop_chars n' s'
  | _, _ => s
  end.

Fixpoint take_chars (n : nat) (s : string) : string :=
  match n, s with
  | S n', String c s' => String c (take_chars n' s')
  | _, _ => EmptyString
  end.

Fixpoint starts_with (p s : string) : bool :=
  match p, s with
  | EmptyString, _ => true
  | String a p', String b s' => char_eqb a b && starts_with p' s'
  | String _ _, EmptyString => false
  end.

(** [s.find(needle)]: the least index at which [needle] occurs. *)
Fixpoint find (needle s : string) : option nat :=
  if starts_with needle s then Some 0
  else match s with
       | EmptyString => None
       | String _ s' => S <$> find needle s'
       end.

(** [s.find(c)]. *)
Fixpoint find_char (c : ascii) (s : string) : option nat :=
  match s with
  | EmptyString => None
  | String b s' => if char_eqb b c then Some 0 else S <$> find_char c s'
  end.

(** [s.find(c, pos)]; a start beyond the end finds nothing. *)
Definition find_char_from (c : ascii) (s : string) (pos : nat) : option nat :=
  if decide (String.length s < pos) then None
  else (λ i, pos + i) <$> find_char c (drop_chars pos s).

(** The [size_t] a search returns. *)
Definition to_size_t (o : option nat) : Z :=
  match o with Some i => Z.of_nat i | None => npos end.

(** [s.find_last_of(chars)]. *)
Fixpoint find_last_of (chars : list ascii) (s : string) : option nat :=
  match s with
  | EmptyString => None
  | String c s' =>
      match find_last_of chars s' with
      | Some i => Some (S i)
      | None => if bool_decide (c ∈ chars) then Some 0 else None
      end
  end.

(** [s.substr(pos, n)]; [None] stands for [std::out_of_range]. *)
Definition substr (s : string) (pos n : Z) : option string :=
  if decide (size s < pos)%Z then None
  else Some (take_chars (Z.to_nat (Z.min n (size s - pos))) (drop_chars (Z.to_nat pos) s)).

(** [s.back()]; it is undefined on the empty string. *)
Fixpoint back (s : string) : option ascii :=
  match s with
  | EmptyString => None
  | String c EmptyString => Some c
  | String _ s' => back s'
  end.

(** [s.pop_back()] on a non-empty string. *)
Fixpoint pop_back (s : string) : string :=
  match s with
  | EmptyString => EmptyString
  | String _ EmptyString => EmptyString
  | String c s' => String c (pop_back s')
  end.

Definition push_back (s : string) (c : ascii) : string :=
  s +:+ String c EmptyString.

(** [std::isspace] in the classic locale. *)
Definition isspace (c : ascii) : bool :=
  let n := nat_of_ascii c in
  (n =? 32)%nat || ((9 <=? n)%nat && (n <=? 13)%nat).

(** [while (iss >> token) tokens.push_back(token)]: [cur] is the token
    being read. *)
Fixpoint extract_tokens (cur s : string) : list string :=
  match s with
  | EmptyString => if empty cur then [] else [cur]
  | String c s' =>
      if isspace c
      then (if empty cur then [] else [cur]) ++ extract_tokens EmptyString s'
      else extract_tokens (push_back cur c) s'
  end.

Definition tokens (s : string) : list string := extract_tokens EmptyString s.

(** [while (std::getline(in, item, delim))]: the items in order; the
    end of input after at least one character yields a last item. *)
Fixpoint getline_items (delim : ascii) (cur s : string) : list string :=
  match s with
  | EmptyString => if empty cur then [] else [cur]
  | String c s' =>
      if char_eqb c delim
      then cur :: getline_items delim EmptyString s'
      else getline_items delim (push_back cur c) s'
  end.

Definition getlines (delim : ascii) (s : string) : list string :=
  getline_items delim EmptyString s.

(** [std::stoi(str)]: leading white space, an optional sign, then
    decimal digits; [None] stands for [std::invalid_argument] (no
    digit) and [std::out_of_range] (not an [int]). *)
Fixpoint skip_space (s : string) : string :=
  match s with
  | String c s' => if isspace c then skip_space s' else s
  | EmptyString => EmptyString
  end.

Definition digit_value (c : ascii) : option Z :=
  let n := nat_of_ascii c in
  if (48 <=? n)%nat && (n <=? 57)%nat then Some (Z.of_nat n - 48)%Z else None.

Fixpoint read_digits (acc : option Z) (s : string) : option Z :=
  match s with
  | EmptyString => acc
  | String c s' =>
      match digit_value c with
      | Some d => read_digits (Some (from_option id 0 acc * 10 + d)%Z) s'
      | None => acc
      end
  end.

Definition stoi (str : string) : option Z :=
  let s := skip_space str in
  let '(neg, s) :=
    match s with
    | String c s' =>
        if char_eqb c "-"%char then (true, s')
        else if char_eqb c "+"%char then (false, s')
        else (false, s)
    | EmptyString => (false, s)
    end in
  match read_digits None s with
  | None => None
  | Some v =>
      let v := if neg then (- v)%Z else v in
      if decide (- 2 ^ 31 <= v < 2 ^ 31)%Z then Some v else None
  end.

End CxxString.

Import CxxString.

(** * The transport engine and the local file system *)

Module Curl.

(** The callbacks the clients register with the engine. *)
Inductive callback : Type :=
| FnWrite | FnWriteFile | FnHeader | FnReadFile | FnPayloadSource.

(** Where the engine writes a body, and where it reads an upload from. *)
Inductive sink : Type := StringBuffer | FileSink (path : string).
Inductive source : Type :=
| FileStream (path : string)
| UploadContext (bytes_read : Z) (payload : string).

(** One call of the [curl_mime_*] interface on a part. *)
Inductive mime_setting : Type :=
| MimeName (s : string)
| MimeData (s : string)
| MimeFiledata (s : string)
| MimeFilename (s : string)
| MimeType (s : string)
| MimeEncoder (s : string)
| MimeHeaders (l : list string).

Definition mimepart : Type := list mime_setting.

(** One call of [curl_easy_setopt]. *)
Inductive curlopt : Type :=
| CURLOPT_URL (s : string)
| CURLOPT_SSL_OPTIONS (v : Z)
| CURLOPT_WRITEFUNCTION (f : callback)
| CURLOPT_WRITEDATA (d : sink)
| CURLOPT_HEADERFUNCTION (f : callback)
| CURLOPT_HEADERDATA
| CURLOPT_READFUNCTION (f : callback)
| CURLOPT_READDATA (d : source)
| CURLOPT_FOLLOWLOCATION (v : Z)
| CURLOPT_HTTPHEADER (l : list string)
| CURLOPT_COOKIE (s : string)
| CURLOPT_PROXY (s : string)
| CURLOPT_HTTPAUTH (v : Z)
| CURLOPT_USERPWD (s : string)
| CURLOPT_USERNAME (s : string)
| CURLOPT_PASSWORD (s : string)
| CURLOPT_POST (v : Z)
| CURLOPT_MIMEPOST (parts : list mimepart)
| CURLOPT_NOBODY (v : Z)
| CURLOPT_TIMEOUT (v : Z)
| CURLOPT_CONNECTTIMEOUT (v : Z)
| CURLOPT_UPLOAD (v : Z)
| CURLOPT_INFILESIZE_LARGE (v : Z)
| CURLOPT_DIRLISTONLY (v : Z)
| CURLOPT_QUOTE (l : list string)
| CURLOPT_TELNETOPTIONS (l : list string)
| CURLOPT_MAIL_FROM (s : string)
| CURLOPT_MAIL_RCPT (l : list string)
| CURLOPT_USE_SSL (v : Z)
| CURLOPT_SSL_VERIFYPEER (v : Z)
| CURLOPT_SSL_VERIFYHOST (v : Z).

Definition CURLE_OK : Z := 0.
Definition CURLSSLOPT_NATIVE_CA : Z := 16.
Definition CURLAUTH_BASIC : Z := 1.
Definition CURLUSESSL_ALL : Z := 3.

(** A configured handle: the options in the order they were set. *)
Definition request : Type := list curlopt.

(** What one exchange hands back: the [CURLcode], the header lines and
    the body pieces passed to the registered callbacks, the value of
    [CURLINFO_RESPONSE_CODE], and the milliseconds the caller's clock
    measured around the exchange. *)
Record perform_result : Type := {
  res : Z;
  header_lines : list string;
  body_chunks : list string;
  response_code : Z;
  elapsed_ms : Z
}.

(** The collaborators: whether [curl_easy_init] yields a handle (the
    same answer for every handle an operation asks for), what the
    exchange of a configured handle returns, the text of a [CURLcode],
    and the local files (the content of a file that opens for reading,
    and whether a path opens for writing). *)
Record engine : Type := {
  curl_easy_init : bool;
  curl_easy_perform : request → perform_result;
  curl_easy_strerror : Z → string;
  ifstream_open : string → option string;
  ofstream_open : string → bool
}.

(** [s.c_str()] read as a C string: the bytes before the first NUL. *)
Fixpoint c_str (s : string) : string :=
  match s with
  | EmptyString => EmptyString
  | String c s' => if char_eqb c "000"%char then EmptyString else String c (c_str s')
  end.

(** The option is set only under the guard. *)
Definition setopt_if (guard : bool) (o : curlopt) : request :=
  if guard then [o] else [].

End Curl.

(** * Outcomes and the exchange log *)

(** A call returns a value, or ends in an uncaught exception or an
    undefined operation, or has not returned within the fuel given. *)
Inductive outcome (A : Type) : Type :=
| Returns (a : A)
| Throws
| Diverges.
Arguments Returns {A} a.
Arguments Throws {A}.
Arguments Diverges {A}.

Global Instance outcome_ret : MRet outcome := λ A a, Returns a.
Global Instance outcome_bind : MBind outcome := λ A B f m,
  match m with
  | Returns a => f a
  | Throws => Throws
  | Diverges => Diverges
  end.

(** [None] of a library call is its exception. *)
Definition or_throw {A : Type} (o : option A) : outcome A :=
  match o with Some a => Returns a | None => Throws end.

(** A computation over the log of the exchanges performed so far,
    oldest first. *)
Definition io (A : Type) : Type :=
  list Curl.request → outcome (A * list Curl.request).

Global Instance io_ret : MRet io := λ A a log, Returns (a, log).
Global Instance io_bind : MBind io := λ A B f m log,
  match m log with
  | Returns (a, log') => f a log'
  | Throws => Throws
  | Diverges => Diverges
  end.

Definition lift {A : Type} (o : outcome A) : io A := λ log,
  match o with
  | Returns a => Returns (a, log)
  | Throws => Throws
  | Diverges => Diverges
  end.

(** A loop over a vector that threads a state. *)
Fixpoint for_each {A S : Type} (body : S → A → io S) (st : S) (xs : list A) : io S :=
  match xs with
  | [] => mret st
  | x :: xs' => st' ← body st x; for_each body st' xs'
  end.

Fixpoint fold_outcome {A S : Type} (body : A → S → outcome S) (xs : list A) (st : S) : outcome S :=
  match xs with
  | [] => Returns st
  | x :: xs' => st' ← body x st; fold_outcome body xs' st'
  end.

Section Exchange.
Import Curl.
Variable E : engine.

(** [curl_easy_init()] seen as "a handle was obtained". *)
Definition easy_init : io bool := mret (curl_easy_init E).

(** [curl_easy_perform]: the exchange is logged. *)
Definition easy_perform (opts : request) : io perform_result := λ log,
  Returns (curl_easy_perform E opts, log ++ [opts]).
End Exchange.

(** * HTTP client *)

Module Http.
Import Curl.

Record quoneq_http_response : Type := {
  status : Z;              (* uint16_t *)
  statusType : string;
  errorMessage : string;
  content : string;
  header : gmap string string;
  cookies : gmap string string
}.

(** The default member initialisers. *)
Definition fresh_response : quoneq_http_response :=
  {| status := 0; statusType := EmptyString; errorMessage := EmptyString;
     content := EmptyString; header := ∅; cookies := ∅ |}.

Definition set_status (v : Z) (r : quoneq_http_response) :=
  {| status := v; statusType := statusType r; errorMessage := errorMessage r;
     content := content r; header := header r; cookies := cookies r |}.
Definition set_statusType (v : string) (r : quoneq_http_response) :=
  {| status := status r; statusType := v; errorMessage := errorMessage r;
     content := content r; header := header r; cookies := cookies r |}.
Definition set_errorMessage (v : string) (r : quoneq_http_response) :=
  {| status := status r; statusType := statusType r; errorMessage := v;
     content := content r; header := header r; cookies := cookies r |}.
Definition set_content (v : string) (r : quoneq_http_response) :=
  {| status := status r; statusType := statusType r; errorMessage := errorMessage r;
     content := v; header := header r; cookies := cookies r |}.
Definition set_header (k v : string) (r : quoneq_http_response) :=
  {| status := status r; statusType := statusType r; errorMessage := errorMessage r;
     content := content r; header := <[k:=v]> (header r); cookies := cookies r |}.
Definition set_cookie (k v : string) (r : quoneq_http_response) :=
  {| status := status r; statusType := statusType r; errorMessage := errorMessage r;
     content := content r; header := header r; cookies := <[k:=v]> (cookies r) |}.

(** [static_cast<uint16_t>]. *)
Definition to_uint16 (z : Z) : Z := z mod 2 ^ 16.

Definition write_callback (contents : string) (output : string) : string :=
  output +:+ contents.

(** The [n]-th string a chain of [>>] extractions fills; a failed
    extraction leaves the default-constructed empty string. *)
Definition extracted (toks : list string) (n : nat) : string :=
  default EmptyString (toks !! n).

(** The first block of [header_callback]: a line that starts with
    ["HTTP/"] is read as a status line. *)
Definition read_status_line (header_line : string)
    (response : quoneq_http_response) : outcome quoneq_http_response :=
  if bool_decide (find "HTTP/" header_line = Some 0) then
    let toks := tokens header_line in
    let status_code := extracted toks 1 in
    let status_text := extracted toks 2 in
    let response := set_statusType status_text response in
    code ← or_throw (stoi status_code);
    Returns (set_status (to_uint16 code) response)
  else Returns response.

(** The second block: a line that holds [": "] is read as a header
    field, [Set-Cookie] going to the cookies. *)
Definition read_header_field (header_line : string)
    (response : quoneq_http_response) : outcome quoneq_http_response :=
  match find ": " header_line with
  | Some delimiter_pos =>
      key ← or_throw (substr header_line 0 (Z.of_nat delimiter_pos));
      value ← or_throw (substr header_line (Z.of_nat delimiter_pos + 2) npos);
      let value :=
        if negb (empty value) && bool_decide (back value = Some LF)
        then pop_back value else value in
      let value :=
        if negb (empty value) && bool_decide (back value = Some CR)
        then pop_back value else value in
      if str_eqb key "Set-Cookie" then
        let semicolon_pos := to_size_t (find_char ";" value) in
        let equals_pos := to_size_t (find_char "=" value) in
        cookie_name ← or_throw (substr value 0 equals_pos);
        cookie_value ← or_throw
          (substr value (wrap (equals_pos + 1))
                        (wrap (semicolon_pos - equals_pos - 1)));
        Returns (set_cookie cookie_name cookie_value response)
      else Returns (set_header key value response)
  | None => Returns response
  end.

Definition header_callback (header_line : string)
    (response : quoneq_http_response) : outcome quoneq_http_response :=
  response ← read_status_line header_line response;
  read_header_field header_line response.

(** A [std::map] is walked in the order of its keys. *)
Definition in_key_order (m : gmap string string) : list (string * string) :=
  merge_sort (λ x y, String.le x.1 y.1) (map_to_list m).

Definition prepare_headers (headers : gmap string string) : list string :=
  (λ kv, c_str (kv.1 +:+ ": " +:+ kv.2)) <$> in_key_order headers.

Definition prepare_cookies (cookies : gmap string string) : string :=
  foldl (λ cookie_str kv,
           (if negb (empty cookie_str) then cookie_str +:+ "; " else cookie_str)
             +:+ (kv.1 +:+ "=" +:+ kv.2))
        EmptyString (in_key_order cookies).

(** The file name of a path: what follows its last [/] or [\]. *)
Definition basename (path : string) : outcome string :=
  or_throw (substr path
              (wrap (to_size_t (find_last_of ["/"%char; "\"%char] path) + 1)) npos).

(** The form fields, then the attachments, one part each. *)
Definition build_mime (form files : gmap string string) : outcome (list mimepart) :=
  let fields :=
    (λ kv, [MimeName (c_str kv.1); MimeData (c_str kv.2)]) <$> in_key_order form in
  attachments ←
    fold_outcome
      (λ kv parts,
         filename ← basename kv.2;
         Returns (parts ++ [[MimeName (c_str kv.1); MimeFiledata (c_str kv.2);
                             MimeFilename (c_str filename)]]))
      (in_key_order files) [];
  Returns (fields ++ attachments).

Definition basic_auth (username password : string) : request :=
  if negb (empty username) && negb (empty password)
  then [CURLOPT_HTTPAUTH CURLAUTH_BASIC;
        CURLOPT_USERPWD (c_str (username +:+ ":" +:+ password))]
  else [].

Section WithEngine.
Variable E : engine.

(** The exchange with the callbacks of [get], [post] and [ping] in
    place: the header lines go through [header_callback] and the
    body pieces are appended to [response_string]. *)
Definition exchange (opts : request) (response : quoneq_http_response)
    : io (perform_result * quoneq_http_response * string) :=
  r ← easy_perform E opts;
  response ← lift (fold_outcome header_callback (header_lines r) response);
  mret (r, response, foldl (λ out chunk, write_callback chunk out)
                           EmptyString (body_chunks r)).

Definition get (url : string) (headers cookies : gmap string string)
    (proxy username password : string) : io (option quoneq_http_response) :=
  curl ← easy_init E;
  if negb curl then mret None else
  let response := fresh_response in
  let curl_headers := prepare_headers headers in
  let cookie_str := prepare_cookies cookies in
  let opts :=
    [CURLOPT_URL (c_str url);
     CURLOPT_SSL_OPTIONS CURLSSLOPT_NATIVE_CA;
     CURLOPT_WRITEFUNCTION FnWrite;
     CURLOPT_WRITEDATA StringBuffer;
     CURLOPT_HEADERFUNCTION FnHeader;
     CURLOPT_HEADERDATA;
     CURLOPT_FOLLOWLOCATION 1]
    ++ setopt_if (negb (bool_decide (curl_headers = []))) (CURLOPT_HTTPHEADER curl_headers)
    ++ setopt_if (negb (empty cookie_str)) (CURLOPT_COOKIE (c_str cookie_str))
    ++ setopt_if (negb (empty proxy)) (CURLOPT_PROXY (c_str proxy))
    ++ basic_auth username password in
  '(r, response, response_string) ← exchange opts response;
  if negb (bool_decide (res r = CURLE_OK))
  then mret (Some (set_errorMessage (curl_easy_strerror E (res r)) response))
  else mret (Some (set_content response_string response)).

Definition post (url : string) (form headers cookies files : gmap string string)
    (proxy username password : string) : io (option quoneq_http_response) :=
  curl ← easy_init E;
  if negb curl then mret None else
  let response := fresh_response in
  mime ← lift (build_mime form files);
  let curl_headers := prepare_headers headers in
  let cookie_str := prepare_cookies cookies in
  let opts :=
    [CURLOPT_URL (c_str url);
     CURLOPT_SSL_OPTIONS CURLSSLOPT_NATIVE_CA;
     CURLOPT_POST 1;
     CURLOPT_WRITEFUNCTION FnWrite;
     CURLOPT_WRITEDATA StringBuffer;
     CURLOPT_HEADERFUNCTION FnHeader;
     CURLOPT_HEADERDATA;
     CURLOPT_FOLLOWLOCATION 1;
     CURLOPT_MIMEPOST mime]
    ++ setopt_if (negb (bool_decide (curl_headers = []))) (CURLOPT_HTTPHEADER curl_headers)
    ++ setopt_if (negb (empty cookie_str)) (CURLOPT_COOKIE (c_str cookie_str))
    ++ setopt_if (negb (empty proxy)) (CURLOPT_PROXY (c_str proxy))
    ++ basic_auth username password in
  '(r, response, response_string) ← exchange opts response;
  if negb (bool_decide (res r = CURLE_OK))
  then mret (Some (set_errorMessage (curl_easy_strerror E (res r)) response))
  else mret (Some (set_content response_string response)).

Definition ping (url proxy username password : string)
    : io (option quoneq_http_response) :=
  curl ← easy_init E;
  if negb curl then mret None else
  let response := fresh_response in
  let opts :=
    [CURLOPT_URL (c_str url);
     CURLOPT_SSL_OPTIONS CURLSSLOPT_NATIVE_CA;
     CURLOPT_NOBODY 1;
     CURLOPT_WRITEFUNCTION FnWrite;
     CURLOPT_WRITEDATA StringBuffer;
     CURLOPT_HEADERFUNCTION FnHeader;
     CURLOPT_HEADERDATA;
     CURLOPT_FOLLOWLOCATION 1;
     CURLOPT_TIMEOUT 5;
     CURLOPT_CONNECTTIMEOUT 5]
    ++ setopt_if (negb (empty proxy)) (CURLOPT_PROXY (c_str proxy))
    ++ basic_auth username password in
  '(r, response, _) ← exchange opts response;
  if bool_decide (res r = CURLE_OK)
  then mret (Some (set_content (pretty (elapsed_ms r) +:+ " ms")
                     (set_status (to_uint16 (response_code r)) response)))
  else mret (Some (set_content (curl_easy_strerror E (res r))
                     (set_status 0 response))).

(** The body goes to the output file, which this model does not
    keep; the header lines still go through [header_callback]. *)
Definition download_file (url out_filename : string)
    (form headers cookies files : gmap string string)
    (proxy username password : string) : io (option quoneq_http_response) :=
  curl ← easy_init E;
  if negb curl then mret None else
  let response := fresh_response in
  if negb (ofstream_open E out_filename)
  then mret (Some (set_errorMessage "Unable to open output file" response))
  else
  let header_list := prepare_headers headers in
  let cookie_str := prepare_cookies cookies in
  mime ←
    (if negb (bool_decide (form = ∅)) || negb (bool_decide (files = ∅))
     then parts ← lift (build_mime form files); mret [CURLOPT_MIMEPOST parts]
     else mret []);
  let opts :=
    [CURLOPT_URL (c_str url);
     CURLOPT_SSL_OPTIONS CURLSSLOPT_NATIVE_CA;
     CURLOPT_WRITEFUNCTION FnWriteFile;
     CURLOPT_WRITEDATA (FileSink out_filename);
     CURLOPT_HEADERFUNCTION FnHeader;
     CURLOPT_HEADERDATA;
     CURLOPT_FOLLOWLOCATION 1]
    ++ setopt_if (negb (bool_decide (header_list = []))) (CURLOPT_HTTPHEADER header_list)
    ++ setopt_if (negb (empty cookie_str)) (CURLOPT_COOKIE (c_str cookie_str))
    ++ mime
    ++ setopt_if (negb (empty proxy)) (CURLOPT_PROXY (c_str proxy))
    ++ basic_auth username password in
  '(r, response, _) ← exchange opts response;
  let response := set_status (to_uint16 (response_code r)) response in
  if negb (bool_decide (res r = CURLE_OK))
  then mret (Some (set_errorMessage (curl_easy_strerror E (res r)) response))
  else mret (Some response).
End WithEngine.

End Http.

(** * FTP client *)

Module Ftp.
Import Curl.

Record quoneq_ftp_response : Type := {
  responseCode : Z;        (* long *)
  errorMessage : string;
  content : string;
  entries : list string   (* the member [list] *)
}.

Definition fresh_response : quoneq_ftp_response :=
  {| responseCode := 0; errorMessage := EmptyString;
     content := EmptyString; entries := [] |}.

Definition set_responseCode (v : Z) (r : quoneq_ftp_response) :=
  {| responseCode := v; errorMessage := errorMessage r;
     content := content r; entries := entries r |}.
Definition set_errorMessage (v : string) (r : quoneq_ftp_response) :=
  {| responseCode := responseCode r; errorMessage := v;
     content := content r; entries := entries r |}.
Definition set_content (v : string) (r : quoneq_ftp_response) :=
  {| responseCode := responseCode r; errorMessage := errorMessage r;
     content := v; entries := entries r |}.
Definition set_list (v : list string) (r : quoneq_ftp_response) :=
  {| responseCode := responseCode r; errorMessage := errorMessage r;
     content := content r; entries := v |}.

Definition write_callback (ptr : string) (data : string) : string :=
  data +:+ ptr.

(** What [write_callback] has gathered once the exchange is over. *)
Definition received (r : perform_result) : string :=
  foldl (λ data chunk, write_callback chunk data) EmptyString (body_chunks r).

(** [ftp_url.substr(pos)] at an index [pos] of [ftp_url] is what
    follows the first [pos] characters. *)
Definition extract_ftp_path (ftp_url : string) : string :=
  match find "ftp://" ftp_url with
  | Some pos =>
      match find_char_from "/" ftp_url (pos + 6) with
      | Some pos => drop_chars pos ftp_url
      | None => EmptyString
      end
  | None => EmptyString
  end.

Definition split_str (s : string) (delimiter : ascii) : list string :=
  filter (λ item, empty item = false) (getlines delimiter s).

Definition parse_ftp_list_line (line : string) : bool * string :=
  match line with
  | EmptyString => (false, EmptyString)
  | String first _ =>
      let isDir := char_eqb first "d" in
      let tokens := tokens line in
      let name :=
        if decide (9 ≤ List.length tokens) then
          foldl (λ name token, name +:+ (" " +:+ token))
                (default EmptyString (tokens !! 8)) (drop 9 tokens)
        else default EmptyString (last tokens) in
      (isDir, name)
  end.

(** The user name and the password are set when they are not empty. *)
Definition credentials (username password : string) : request :=
  setopt_if (negb (empty username)) (CURLOPT_USERNAME (c_str username))
  ++ setopt_if (negb (empty password)) (CURLOPT_PASSWORD (c_str password)).

Section WithEngine.
Variable E : engine.

(** After the exchange: the error text of a failed transfer, the
    reply code of a completed one. *)
Definition settle (r : perform_result) (response : quoneq_ftp_response)
    : quoneq_ftp_response :=
  if negb (bool_decide (res r = CURLE_OK))
  then set_errorMessage (curl_easy_strerror E (res r)) response
  else set_responseCode (response_code r) response.

Definition settle_content (r : perform_result) (response : quoneq_ftp_response)
    : quoneq_ftp_response :=
  if negb (bool_decide (res r = CURLE_OK))
  then set_errorMessage (curl_easy_strerror E (res r)) response
  else set_content (received r) (set_responseCode (response_code r) response).

Definition get_list_detail (ftp_url username password : string)
    : io (list string) :=
  curl ← easy_init E;
  if negb curl then mret [] else
  r ← easy_perform E
        ([CURLOPT_URL (c_str ftp_url);
          CURLOPT_WRITEDATA StringBuffer;
          CURLOPT_WRITEFUNCTION FnWrite]
         ++ credentials username password);
  if bool_decide (res r = CURLE_OK)
  then mret (split_str (received r) LF)
  else mret [].

(** The path of an entry of the directory at [ftp_url];
    [fullPath.back()] is undefined when [ftp_url] is empty. *)
Definition full_path (ftp_url name : string) : outcome string :=
  last ← or_throw (back ftp_url);
  let fullPath :=
    if negb (char_eqb last "/") then ftp_url +:+ "/" else ftp_url in
  Returns (fullPath +:+ name).

(** The body of the loop over the listing lines: what one line does
    to the accumulator; [recurse] is the call on a sub-directory. *)
Definition visit_line (recurse : string → list string → io (list string))
    (ftp_url : string) (accum : list string) (line : string)
    : io (list string) :=
  let parsed := parse_ftp_list_line line in
  let isDir := parsed.1 in
  let name := parsed.2 in
  if str_eqb name "." || str_eqb name ".." || empty name
  then mret accum
  else
    fullPath ← lift (full_path ftp_url name);
    let accum := accum ++ [fullPath] in
    if isDir
    then recurse fullPath accum
    else mret accum.

(** The recursion has no bound in the source; [fuel] bounds the
    depth of nested directories followed here. *)
Fixpoint list_recursive_helper (fuel : nat)
    (ftp_url username password : string) (accum : list string)
    : io (list string) :=
  match fuel with
  | O => λ _, Diverges
  | S fuel' =>
      lines ← get_list_detail ftp_url username password;
      for_each
        (visit_line
           (λ fullPath accum,
              list_recursive_helper fuel' fullPath username password accum)
           ftp_url)
        accum lines
  end.

Definition upload (ftp_url local_file username password : string)
    : io quoneq_ftp_response :=
  let response := fresh_response in
  curl ← easy_init E;
  if negb curl
  then mret (set_errorMessage "Failed to initialize curl" response)
  else
  match ifstream_open E local_file with
  | None => mret (set_errorMessage "Unable to open local file for reading" response)
  | Some bytes =>
      let fileSize := size bytes in
      r ← easy_perform E
            ([CURLOPT_SSL_OPTIONS CURLSSLOPT_NATIVE_CA;
              CURLOPT_UPLOAD 1;
              CURLOPT_URL (c_str ftp_url);
              CURLOPT_READDATA (FileStream local_file);
              CURLOPT_READFUNCTION FnReadFile;
              CURLOPT_INFILESIZE_LARGE fileSize]
             ++ credentials username password);
      mret (settle r response)
  end.

(** The bytes received go to the local file, which this model does
    not keep. *)
Definition download_file (ftp_url local_file username password : string)
    : io quoneq_ftp_response :=
  let response := fresh_response in
  curl ← easy_init E;
  if negb curl
  then mret (set_errorMessage "Failed to initialize curl" response)
  else
  if negb (ofstream_open E local_file)
  then mret (set_errorMessage "Unable to open local file for writing" response)
  else
  r ← easy_perform E
        ([CURLOPT_SSL_OPTIONS CURLSSLOPT_NATIVE_CA;
          CURLOPT_URL (c_str ftp_url);
          CURLOPT_WRITEDATA (FileSink local_file);
          CURLOPT_WRITEFUNCTION FnWriteFile]
         ++ credentials username password);
  mret (settle r response).

Definition read (ftp_url username password : string) : io quoneq_ftp_response :=
  let response := fresh_response in
  curl ← easy_init E;
  if negb curl
  then mret (set_errorMessage "Failed to initialize curl" response)
  else
  r ← easy_perform E
        ([CURLOPT_URL (c_str ftp_url);
          CURLOPT_SSL_OPTIONS CURLSSLOPT_NATIVE_CA;
          CURLOPT_WRITEDATA StringBuffer;
          CURLOPT_WRITEFUNCTION FnWrite]
         ++ credentials username password);
  mret (settle_content r response).

Definition remove (ftp_url username password : string) : io quoneq_ftp_response :=
  let response := fresh_response in
  curl ← easy_init E;
  if negb curl
  then mret (set_errorMessage "Failed to initialize curl" response)
  else
  let path := extract_ftp_path ftp_url in
  let deleCmd := "DELE " +:+ path in
  let cmdList := [c_str deleCmd] in
  r ← easy_perform E
        ([CURLOPT_URL (c_str ftp_url);
          CURLOPT_SSL_OPTIONS CURLSSLOPT_NATIVE_CA;
          CURLOPT_NOBODY 1;
          CURLOPT_QUOTE cmdList]
         ++ credentials username password);
  mret (settle r response).

Definition list_ (ftp_url username password : string) : io quoneq_ftp_response :=
  let response := fresh_response in
  curl ← easy_init E;
  if negb curl
  then mret (set_errorMessage "Failed to initialize curl" response)
  else
  r ← easy_perform E
        ([CURLOPT_URL (c_str ftp_url);
          CURLOPT_SSL_OPTIONS CURLSSLOPT_NATIVE_CA;
          CURLOPT_WRITEDATA StringBuffer;
          CURLOPT_DIRLISTONLY 1;
          CURLOPT_WRITEFUNCTION FnWrite]
         ++ credentials username password);
  if negb (bool_decide (res r = CURLE_OK))
  then mret (set_errorMessage (curl_easy_strerror E (res r)) response)
  else
    let data := received r in
    mret (set_list (split_str data LF)
            (set_content data (set_responseCode (response_code r) response))).

Definition list_recursive (fuel : nat) (ftp_url username password : string)
    : io quoneq_ftp_response :=
  let response := fresh_response in
  accum ← list_recursive_helper fuel ftp_url username password [];
  mret (set_list accum response).

Definition move (ftp_url_from ftp_url_to username password : string)
    : io quoneq_ftp_response :=
  let response := fresh_response in
  curl ← easy_init E;
  if negb curl
  then mret (set_errorMessage "Failed to initialize curl" response)
  else
  let path_from := extract_ftp_path ftp_url_from in
  let path_to := extract_ftp_path ftp_url_to in
  let rnfrCmd := "RNFR " +:+ path_from in
  let rntoCmd := "RNTO " +:+ path_to in
  let cmdList := [c_str rnfrCmd; c_str rntoCmd] in
  r ← easy_perform E
        ([CURLOPT_URL (c_str ftp_url_from);
          CURLOPT_QUOTE cmdList]
         ++ credentials username password);
  mret (settle r response).

Definition exists_ (ftp_url username password : string) : io bool :=
  curl ← easy_init E;
  if negb curl then mret false else
  r ← easy_perform E
        ([CURLOPT_URL (c_str ftp_url);
          CURLOPT_SSL_OPTIONS CURLSSLOPT_NATIVE_CA;
          CURLOPT_NOBODY 1]
         ++ credentials username password);
  mret (bool_decide (res r = CURLE_OK)).

Definition create (ftp_url username password : string) : io quoneq_ftp_response :=
  let response := fresh_response in
  curl ← easy_init E;
  if negb curl
  then mret (set_errorMessage "Failed to initialize curl" response)
  else
  let path := extract_ftp_path ftp_url in
  let mkdCmd := "MKD " +:+ path in
  let cmdList := [c_str mkdCmd] in
  r ← easy_perform E
        ([CURLOPT_URL (c_str ftp_url);
          CURLOPT_QUOTE cmdList]
         ++ credentials username password);
  mret (settle r response).

Definition file_info (ftp_url username password : string) : io quoneq_ftp_response :=
  let response := fresh_response in
  curl ← easy_init E;
  if negb curl
  then mret (set_errorMessage "Failed to initialize curl" response)
  else
  r ← easy_perform E
        ([CURLOPT_URL (c_str ftp_url);
          CURLOPT_SSL_OPTIONS CURLSSLOPT_NATIVE_CA;
          CURLOPT_WRITEDATA StringBuffer;
          CURLOPT_WRITEFUNCTION FnWrite]
         ++ credentials username password);
  mret (settle_content r response).

Definition folder_info (ftp_url username password : string) : io quoneq_ftp_response :=
  let response := fresh_response in
  curl ← easy_init E;
  if negb curl
  then mret (set_errorMessage "Failed to initialize curl" response)
  else
  r ← easy_perform E
        ([CURLOPT_URL (c_str ftp_url);
          CURLOPT_SSL_OPTIONS CURLSSLOPT_NATIVE_CA;
          CURLOPT_WRITEDATA StringBuffer;
          CURLOPT_WRITEFUNCTION FnWrite]
         ++ credentials username password);
  mret (settle_content r response).

(** [content[0] == c] on a non-empty content. *)
Definition first_is (c : ascii) (s : string) : bool :=
  match s with
  | EmptyString => false
  | String first _ => char_eqb first c
  end.

Definition is_file (ftp_url username password : string) : io bool :=
  info ← file_info ftp_url username password;
  mret (first_is "-" (content info)).

Definition is_folder (ftp_url username password : string) : io bool :=
  info ← folder_info ftp_url username password;
  mret (first_is "d" (content info)).
End WithEngine.

End Ftp.

(** * SMTP client *)

Module Smtp.
Import Curl.

Record upload_context : Type := {
  bytes_read : Z;          (* size_t *)
  payload : string
}.

(** One call of the read callback on a buffer of [size * nmemb]
    bytes: the bytes copied into the buffer, the value returned and
    the context afterwards. *)
Definition payload_source (size nmemb : Z) (upload : upload_context)
    : string * Z * upload_context :=
  let buffer_size := wrap (size * nmemb) in
  let copy_size :=
    Z.min (wrap (CxxString.size (payload upload) - bytes_read upload)) buffer_size in
  if negb (copy_size =? 0)%Z then
    (take_chars (Z.to_nat copy_size)
                (drop_chars (Z.to_nat (bytes_read upload)) (payload upload)),
     copy_size,
     {| bytes_read := wrap (bytes_read upload + copy_size);
        payload := payload upload |})
  else (EmptyString, 0%Z, upload).

(** The engine pulls the upload through the callback, one call per
    requested buffer. *)
Fixpoint pull (requests : list (Z * Z)) (upload : upload_context)
    : list (string * Z) * upload_context :=
  match requests with
  | [] => ([], upload)
  | (size, nmemb) :: rest =>
      let '(chunk, n, upload') := payload_source size nmemb upload in
      let '(calls, final) := pull rest upload' in
      ((chunk, n) :: calls, final)
  end.

Definition quote_char : string := String "034"%char EmptyString.

Definition attachment_name (file : string) : outcome string :=
  match find_last_of ["/"%char; "\"%char] file with
  | Some last_slash => or_throw (substr file (Z.of_nat last_slash + 1) npos)
  | None => Returns file
  end.

Definition setup_mime_structure (email recipient subject message : string)
    (is_html : bool) (files : list string) : outcome (list mimepart) :=
  let boundary := "QUONEQ-BOUNDARY" in
  let content_type :=
    "multipart/mixed; boundary=" +:+ quote_char +:+ boundary +:+ quote_char in
  let headers :=
    [c_str ("From: " +:+ email); c_str ("To: " +:+ recipient);
     c_str ("Subject: " +:+ subject); "MIME-Version: 1.0"] in
  let root_part := [MimeType (c_str content_type); MimeHeaders headers] in
  let body_type := if is_html then "text/html" else "text/plain" in
  let body_part := [MimeType (c_str body_type); MimeData message] in
  attachments ←
    fold_outcome
      (λ file parts,
         filename ← attachment_name file;
         Returns (parts ++ [[MimeFiledata (c_str file);
                             MimeType "application/octet-stream";
                             MimeEncoder "base64";
                             MimeFilename (c_str filename)]]))
      files [];
  Returns (root_part :: body_part :: attachments).

(** The message [send_email] assembles when there is no attachment. *)
Definition email_payload (email recipient subject message : string)
    (is_html : bool) : string :=
  "From: " +:+ email +:+ CRLF +:+
  "To: " +:+ recipient +:+ CRLF +:+
  "Subject: " +:+ subject +:+ CRLF +:+
  "Content-Type: " +:+
    (if is_html then "text/html" else "text/plain") +:+
  "; charset=UTF-8" +:+ CRLF +:+ CRLF +:+
  message +:+ CRLF.

Section WithEngine.
Variable E : engine.

Definition send_email (smtp_server email password recipient subject message : string)
    (is_html : bool) (files : list string) : io bool :=
  curl ← easy_init E;
  if negb curl then mret false else
  let recipients := [c_str recipient] in
  body ←
    (if bool_decide (files = []) then
       let upload_ctx :=
         {| bytes_read := 0;
            payload := email_payload email recipient subject message is_html |} in
       mret [CURLOPT_READFUNCTION FnPayloadSource;
             CURLOPT_READDATA (UploadContext (bytes_read upload_ctx) (payload upload_ctx));
             CURLOPT_UPLOAD 1]
     else
       mime ← lift (setup_mime_structure email recipient subject message is_html files);
       mret [CURLOPT_MIMEPOST mime]);
  r ← easy_perform E
        ([CURLOPT_URL (c_str smtp_server);
          CURLOPT_SSL_OPTIONS CURLSSLOPT_NATIVE_CA;
          CURLOPT_USERNAME (c_str email);
          CURLOPT_PASSWORD (c_str password);
          CURLOPT_MAIL_FROM (c_str email);
          CURLOPT_MAIL_RCPT recipients;
          CURLOPT_USE_SSL CURLUSESSL_ALL;
          CURLOPT_SSL_VERIFYPEER 1;
          CURLOPT_SSL_VERIFYHOST 2]
         ++ body);
  let success := bool_decide (res r = CURLE_OK) in
  mret success.


End WithEngine.

End Smtp.

(** * Telnet client *)

Module Telnet.
Import Curl.

Record quoneq_telnet_response : Type := {
  error_message : string;
  content : string
}.

Definition fresh_response : quoneq_telnet_response :=
  {| error_message := EmptyString; content := EmptyString |}.

Definition write_callback (contents : string) (output : string) : string :=
  output +:+ contents.

Definition credentials (username password : string) : request :=
  if negb (empty username) && negb (empty password)
  then [CURLOPT_USERNAME (c_str username); CURLOPT_PASSWORD (c_str password)]
  else [].

(** The lines [std::getline] reads from a script, the empty ones left
    out. *)
Definition script_commands (file : string) : list string :=
  filter (λ line, empty line = false) (getlines LF file).

Section WithEngine.
Variable E : engine.

(** The error text of a failed exchange, and what was received. *)
Definition settle (r : perform_result) (response : quoneq_telnet_response)
    : quoneq_telnet_response :=
  let response_string :=
    foldl (λ out chunk, write_callback chunk out) EmptyString (body_chunks r) in
  {| error_message :=
       if negb (bool_decide (res r = CURLE_OK))
       then curl_easy_strerror E (res r) else error_message response;
     content := response_string |}.

Definition command (url : string) (commands : list string)
    (proxy username password : string) (timeout : Z)
    : io (option quoneq_telnet_response) :=
  curl ← easy_init E;
  if negb curl then mret None else
  let response := fresh_response in
  let command_list := c_str <$> commands in
  r ← easy_perform E
        ([CURLOPT_URL (c_str url);
          CURLOPT_WRITEFUNCTION FnWrite;
          CURLOPT_SSL_OPTIONS CURLSSLOPT_NATIVE_CA;
          CURLOPT_WRITEDATA StringBuffer;
          CURLOPT_TIMEOUT timeout;
          CURLOPT_CONNECTTIMEOUT timeout]
         ++ setopt_if (negb (empty proxy)) (CURLOPT_PROXY (c_str proxy))
         ++ credentials username password
         ++ setopt_if (negb (bool_decide (command_list = [])))
                      (CURLOPT_QUOTE command_list));
  mret (Some (settle r response)).



Definition script (url script_filename proxy username password : string)
    (timeout : Z) : io (option quoneq_telnet_response) :=
  let response := fresh_response in
  match ifstream_open E script_filename with
  | None =>
      mret (Some {| error_message := "unable to open script file: " +:+ script_filename;
                    content := content response |})
  | Some file =>
      let commands := script_commands file in
      command url commands proxy username password timeout
  end.

Definition exec_with_options (url : string) (telnet_options commands : list string)
    (proxy username password : string) (timeout : Z)
    : io (option quoneq_telnet_response) :=
  curl ← easy_init E;
  if negb curl then mret None else
  let response := fresh_response in
  let telnet_options_list := c_str <$> telnet_options in
  let command_list := c_str <$> commands in
  r ← easy_perform E
        ([CURLOPT_URL (c_str url);
          CURLOPT_WRITEFUNCTION FnWrite;
          CURLOPT_SSL_OPTIONS CURLSSLOPT_NATIVE_CA;
          CURLOPT_WRITEDATA StringBuffer;
          CURLOPT_TIMEOUT timeout;
          CURLOPT_CONNECTTIMEOUT timeout]
         ++ setopt_if (negb (empty proxy)) (CURLOPT_PROXY (c_str proxy))
         ++ credentials username password
         ++ setopt_if (negb (bool_decide (telnet_options_list = [])))
                      (CURLOPT_TELNETOPTIONS telnet_options_list)
         ++ setopt_if (negb (bool_decide (command_list = [])))
                      (CURLOPT_QUOTE command_list));
  mret (Some (settle r response)).
End WithEngine.

End Telnet.

(** * Tor client *)

Module Tor.
Import Curl.

Definition tor_proxy : string := "socks5h://localhost:9050".
Definition check_url : string := "https://check.torproject.org".

Section WithEngine.
Variable E : engine.

Definition get (url : string) (headers cookies : gmap string string)
    (username password : string) : io (option Http.quoneq_http_response) :=
  Http.get E url headers cookies tor_proxy username password.

Definition post (url : string) (form headers cookies files : gmap string string)
    (username password : string) : io (option Http.quoneq_http_response) :=
  Http.post E url form headers cookies files tor_proxy username password.

Definition ping (url username password : string)
    : io (option Http.quoneq_http_response) :=
  Http.ping E url tor_proxy username password.

Definition is_tor_running : io bool :=
  response ← Http.ping E check_url tor_proxy EmptyString EmptyString;
  mret (match response with
        | Some response => bool_decide (Http.status response = 200%Z)
        | None => false
        end).

Definition download_file (url out_filename : string)
    (form headers cookies files : gmap string string)
    (username password : string) : io (option Http.quoneq_http_response) :=
  Http.download_file E url out_filename form headers cookies files
                     tor_proxy username password.
End WithEngine.

End Tor.

(** * Vocabulary of the statements *)

(** [needle] occurs in [s]. *)
Definition contains (needle s : string) : Prop :=
  ∃ pre post, s = pre +:+ needle +:+ post.

(** The character [c] occurs in [s]. *)
Definition mentions (c : ascii) (s : string) : Prop :=
  ∃ pre post, s = pre +:+ String c post.

(** [s] is [pre], then the first occurrence of [needle], then [post]. *)
Definition first_occurrence (needle pre post s : string) : Prop :=
  s = pre +:+ needle +:+ post ∧
  ∀ pre' post', s = pre' +:+ needle +:+ post' → String.length pre ≤ String.length pre'.

(** * Sample engines *)

(** An engine whose exchanges complete with the given reply. *)
Definition replying_engine (r : Curl.perform_result) : Curl.engine :=
  {| Curl.curl_easy_init := true;
     Curl.curl_easy_perform := λ _, r;
     Curl.curl_easy_strerror := λ _, "transfer failed";
     Curl.ifstream_open := λ _, None;
     Curl.ofstream_open := λ _, false |}.

(** An engine that never yields a handle. *)
Definition no_handle_engine : Curl.engine :=
  {| Curl.curl_easy_init := false;
     Curl.curl_easy_perform := λ _,
       {| Curl.res := 0; Curl.header_lines := []; Curl.body_chunks := [];
          Curl.response_code := 0; Curl.elapsed_ms := 0 |};
     Curl.curl_easy_strerror := λ _, "transfer failed";
     Curl.ifstream_open := λ _, None;
     Curl.ofstream_open := λ _, false |}.

(** What an exchange hands back: its [CURLcode], the reply code, the
    header lines and the body pieces. *)
Definition reply (code : Z) (response_code : Z) (headers body : list string)
    : Curl.perform_result :=
  {| Curl.res := code; Curl.header_lines := headers; Curl.body_chunks := body;
     Curl.response_code := response_code; Curl.elapsed_ms := 7 |}.

(** * Upload contexts and message text *)

(** The cursor of an upload context lies within its payload, whose
    length fits a [size_t]. *)
Definition well_formed (upload : Smtp.upload_context) : Prop :=
  (0 ≤ Smtp.bytes_read upload ≤ CxxString.size (Smtp.payload upload))%Z ∧
  (CxxString.size (Smtp.payload upload) < size_t_modulus)%Z.

(** The pieces the engine received, in the order of the calls. *)
Definition received_bytes (calls : list (string * Z)) : string :=
  foldr (λ call rest, call.1 +:+ rest) EmptyString calls.

(** The buffer sizes asked for, added up. *)
Definition requested_total (requests : list (Z * Z)) : Z :=
  foldr (λ request total, (wrap (request.1 * request.2) + total)%Z) 0%Z requests.

(** Every CR is followed by LF and every LF preceded by CR. *)
Fixpoint crlf_only (s : string) : bool :=
  match s with
  | EmptyString => true
  | String c s' =>
      if char_eqb c CR then
        match s' with
        | String c' s'' => char_eqb c' LF && crlf_only s''
        | EmptyString => false
        end
      else if char_eqb c LF then false
      else crlf_only s'
  end.

(** The header lines of the message of [send_email], without their
    terminators. *)
Definition message_headers (email recipient subject : string) (is_html : bool)
    : list string :=
  ["From: " +:+ email;
   "To: " +:+ recipient;
   "Subject: " +:+ subject;
   "Content-Type: " +:+ (if is_html then "text/html" else "text/plain")
     +:+ "; charset=UTF-8"].

(** The lines, each followed by CRLF, then [rest]. *)
Definition terminated_lines (lines : list string) (rest : string) : string :=
  foldr (λ line acc, line +:+ CRLF +:+ acc) rest lines.

(** A string without CR and without LF. *)
Definition single_line (s : string) : Prop :=
  ¬ mentions CR s ∧ ¬ mentions LF s.

(** * Requests *)

(** The request of the reachability probe of [is_tor_running]. *)
Definition probe_request : Curl.request :=
  [Curl.CURLOPT_URL "https://check.torproject.org";
   Curl.CURLOPT_SSL_OPTIONS Curl.CURLSSLOPT_NATIVE_CA;
   Curl.CURLOPT_NOBODY 1;
   Curl.CURLOPT_WRITEFUNCTION Curl.FnWrite;
   Curl.CURLOPT_WRITEDATA Curl.StringBuffer;
   Curl.CURLOPT_HEADERFUNCTION Curl.FnHeader;
   Curl.CURLOPT_HEADERDATA;
   Curl.CURLOPT_FOLLOWLOCATION 1;
   Curl.CURLOPT_TIMEOUT 5;
   Curl.CURLOPT_CONNECTTIMEOUT 5;
   Curl.CURLOPT_PROXY "socks5h://localhost:9050"].

(** The header-only request of [exists]. *)
Definition exists_request (ftp_url username password : string) : Curl.request :=
  [Curl.CURLOPT_URL (Curl.c_str ftp_url);
   Curl.CURLOPT_SSL_OPTIONS Curl.CURLSSLOPT_NATIVE_CA;
   Curl.CURLOPT_NOBODY 1]
  ++ Ftp.credentials username password.

(** The request of a Telnet [command]. *)
Definition command_request (url : string) (commands : list string)
    (proxy username password : string) (timeout : Z) : Curl.request :=
  [Curl.CURLOPT_URL (Curl.c_str url);
   Curl.CURLOPT_WRITEFUNCTION Curl.FnWrite;
   Curl.CURLOPT_SSL_OPTIONS Curl.CURLSSLOPT_NATIVE_CA;
   Curl.CURLOPT_WRITEDATA Curl.StringBuffer;
   Curl.CURLOPT_TIMEOUT timeout;
   Curl.CURLOPT_CONNECTTIMEOUT timeout]
  ++ Curl.setopt_if (negb (empty proxy)) (Curl.CURLOPT_PROXY (Curl.c_str proxy))
  ++ Telnet.credentials username password
  ++ Curl.setopt_if (negb (bool_decide (Curl.c_str <$> commands = [])))
       (Curl.CURLOPT_QUOTE (Curl.c_str <$> commands)).

(** The items, each followed by the delimiter. *)
Definition delimited (delim : ascii) (items : list string) : string :=
  foldr (λ item acc, item +:+ String delim acc) EmptyString items.

(** [items] are the lines of [text]: no item holds the delimiter, and
    [text] is the items each followed by the delimiter, except that the
    delimiter of a non-empty last item may be missing. *)
Definition lines_of (delim : ascii) (text : string) (items : list string) : Prop :=
  Forall (λ item, ¬ mentions delim item) items ∧
  (delimited delim items = text ∨
   (delimited delim items = text +:+ String delim EmptyString ∧
    ∃ item, last items = Some item ∧ item ≠ EmptyString)).

(** * Walking a directory tree *)

(** The request [get_list_detail] sends for a directory. *)
Definition listing_request (ftp_url username password : string) : Curl.request :=
  [Curl.CURLOPT_URL (Curl.c_str ftp_url);
   Curl.CURLOPT_WRITEDATA Curl.StringBuffer;
   Curl.CURLOPT_WRITEFUNCTION Curl.FnWrite]
  ++ Ftp.credentials username password.

(** An entry is kept unless its name is [.], [..] or empty. *)
Definition retained (name : string) : Prop :=
  name ≠ "." ∧ name ≠ ".." ∧ name ≠ EmptyString.

(** The URL and the name with one [/] between them, the [/] being added
    only when the URL does not end with one. *)
Definition joined (ftp_url name : string) : string :=
  if bool_decide (back ftp_url = Some "/"%char)
  then ftp_url +:+ name
  else ftp_url +:+ "/" +:+ name.

Section Walk.
Variable E : Curl.engine.
Variables username password : string.

(** The lines the server returns for a directory, in its order; none
    when no handle is obtained or the exchange fails. *)
Definition listing (ftp_url : string) : list string :=
  if Curl.curl_easy_init E then
    let r := Curl.curl_easy_perform E (listing_request ftp_url username password) in
    if bool_decide (Curl.res r = Curl.CURLE_OK)
    then Ftp.split_str (Ftp.received r) LF
    else []
  else [].

(** The exchanges that list the given directories, in order. *)
Definition listing_exchanges (urls : list string) : list Curl.request :=
  if Curl.curl_easy_init E
  then (λ url, listing_request url username password) <$> urls
  else [].

(** [walk url lines paths visited]: going through [lines] of the
    directory [url] in order, every retained entry contributes its path
    and, right after it when it is a directory, the walk of that
    directory; [visited] are the directories entered, in order. *)
Inductive walk : string → list string → list string → list string → Prop :=
| walk_end (url : string) : walk url [] [] []
| walk_skip (url line : string) (rest paths visited : list string) :
    ¬ retained (Ftp.parse_ftp_list_line line).2 →
    walk url rest paths visited →
    walk url (line :: rest) paths visited
| walk_file (url line : string) (rest paths visited : list string) :
    retained (Ftp.parse_ftp_list_line line).2 →
    url ≠ EmptyString →
    (Ftp.parse_ftp_list_line line).1 = false →
    walk url rest paths visited →
    walk url (line :: rest)
         (joined url (Ftp.parse_ftp_list_line line).2 :: paths) visited
| walk_directory (url line : string) (rest inner inner_visited paths visited : list string) :
    retained (Ftp.parse_ftp_list_line line).2 →
    url ≠ EmptyString →
    (Ftp.parse_ftp_list_line line).1 = true →
    walk (joined url (Ftp.parse_ftp_list_line line).2)
         (listing (joined url (Ftp.parse_ftp_list_line line).2))
         inner inner_visited →
    walk url rest paths visited →
    walk url (line :: rest)
         (joined url (Ftp.parse_ftp_list_line line).2 :: inner ++ paths)
         (joined url (Ftp.parse_ftp_list_line line).2 :: inner_visited ++ visited).

End Walk.

(** The text of a listing: its lines, each followed by CRLF. *)
Definition listing_text (lines : list string) : string :=
  foldr (λ line acc, line +:+ CRLF +:+ acc) EmptyString lines.

(** The URL a request was configured with first. *)
Definition requested_url (opts : Curl.request) : string :=
  match opts with
  | Curl.CURLOPT_URL url :: _ => url
  | _ => EmptyString
  end.

(** A server with the directory [ftp://h/a], which holds the file [f]
    and the directory [b], which holds the file [g]. *)
Definition tree_engine : Curl.engine :=
  {| Curl.curl_easy_init := true;
     Curl.curl_easy_perform := λ opts,
       let url := requested_url opts in
       let text :=
         if str_eqb url "ftp://h/a" then
           listing_text ["drwxr-xr-x 2 u g 4096 Jan 1 00:00 .";
                         "drwxr-xr-x 3 u g 4096 Jan 1 00:00 ..";
                         "-rw-r--r-- 1 u g 12 Jan 1 00:00 f";
                         "drwxr-xr-x 2 u g 4096 Jan 1 00:00 b"]
         else if str_eqb url "ftp://h/a/b" then
           listing_text ["-rw-r--r-- 1 u g 7 Jan 1 00:00 g";
                         "drwxr-xr-x 3 u g 4096 Jan 1 00:00 .."]
         else EmptyString in
       reply 0 226 [] [text];
     Curl.curl_easy_strerror := λ _, "transfer failed";
     Curl.ifstream_open := λ _, None;
     Curl.ofstream_open := λ _, false |}.

(** * Results of the operations *)





(** * The CA-certificate setting *)

Module Net.
Import Curl.

(** [quoneq_net::cacert_path] before any call. *)
Definition cacert_path_initial : string := EmptyString.

(** [set_ca_cert(path)]: the new value of [cacert_path]. *)
Definition set_ca_cert (path : string) (cacert_path : string) : string := path.

(** [get_ca_cert()]: [cainfo] is what [CURLINFO_CAINFO] stores for the
    fresh handle, a C string, or [None] for a null pointer. *)
Definition get_ca_cert (E : engine) (cainfo : option string)
    (cacert_path : string) : string :=
  if negb (curl_easy_init E) then cacert_path
  else
    match cainfo with
    | Some cacert => if empty cacert then cacert else cacert_path
    | None => cacert_path
    end.

End Net.

(** * The file stream of an FTP upload *)

Module FileStream.

(** A [std::ifstream] on an opened file: its bytes, the read position
    and whether no state flag is set. *)
Record ifstream : Type := {
  data : string;
  position : nat;
  good : bool
}.

(** The stream [upload] hands to the engine, rewound to the start. *)
Definition opened (bytes : string) : ifstream :=
  {| data := bytes; position := 0; good := true |}.

(** [static_cast<std::streamsize>] of a [size_t]. *)
Definition to_streamsize (z : Z) : Z :=
  let w := wrap z in
  if decide (w < 2 ^ 63)%Z then w else (w - size_t_modulus)%Z.

(** One call of the read callback on a buffer of [size * nmemb] bytes:
    the bytes stored, the value returned and the stream afterwards.  A
    read that meets the end of the file sets the end and fail flags; a
    negative count is outside what [istream::read] specifies. *)
Definition read_file_callback (size nmemb : Z) (stream : ifstream)
    : outcome (string * Z * ifstream) :=
  if negb (good stream) then Returns (EmptyString, 0%Z, stream)
  else
    let count := to_streamsize (size * nmemb) in
    let available := (String.length (data stream) - position stream)%nat in
    if decide (count < 0)%Z then Throws
    else if decide (Z.to_nat count ≤ available) then
      Returns (take_chars (Z.to_nat count) (drop_chars (position stream) (data stream)),
               count,
               {| data := data stream;
                  position := position stream + Z.to_nat count;
                  good := true |})
    else
      Returns (drop_chars (position stream) (data stream),
               Z.of_nat available,
               {| data := data stream;
                  position := String.length (data stream);
                  good := false |}).

(** The engine reads the upload through the callback, one call per
    buffer. *)
Fixpoint drain (requests : list (Z * Z)) (stream : ifstream)
    : outcome (list (string * Z) * ifstream) :=
  match requests with
  | [] => Returns ([], stream)
  | (size, nmemb) :: rest =>
      '(chunk, n, stream') ← read_file_callback size nmemb stream;
      '(calls, final) ← drain rest stream';
      Returns ((chunk, n) :: calls, final)
  end.

End FileStream.

(** * More vocabulary *)

(** The line starts with ["HTTP/"]. *)
Definition status_line (line : string) : Prop :=
  ∃ rest, line = "HTTP/" +:+ rest.

(** The client reads a name off a path: what follows the last [/] or
    [\]. *)
Definition separator_free (name : string) : Prop :=
  ¬ mentions "/"%char name ∧ ¬ mentions "\"%char name.

(** A word: not empty and without white space. *)
Definition word (s : string) : Prop :=
  s ≠ EmptyString ∧ ∀ c, mentions c s → isspace c = false.

(** [p] is a prefix of [s]. *)
Definition has_prefix (p s : string) : Prop := ∃ rest, s = p +:+ rest.

(** The buffer sizes asked of the file stream are counts
    [istream::read] accepts. *)
Definition readable_counts (requests : list (Z * Z)) : Prop :=
  Forall (λ request, (0 ≤ FileStream.to_streamsize (request.1 * request.2))%Z) requests.

(** Every character of [s] passes the test. *)
Fixpoint all_chars (test : ascii → bool) (s : string) : bool :=
  match s with
  | EmptyString => true
  | String c s' => test c && all_chars test s'
  end.

(** The request of [file_info] and of [folder_info]. *)
Definition info_request (ftp_url username password : string) : Curl.request :=
  [Curl.CURLOPT_URL (Curl.c_str ftp_url);
   Curl.CURLOPT_SSL_OPTIONS Curl.CURLSSLOPT_NATIVE_CA;
   Curl.CURLOPT_WRITEDATA Curl.StringBuffer;
   Curl.CURLOPT_WRITEFUNCTION Curl.FnWrite]
  ++ Ftp.credentials username password.

(** A response that reports a failure: no reply code, no content, no
    entries. *)
Definition failure_shaped (r : Ftp.quoneq_ftp_response) : Prop :=
  Ftp.responseCode r = 0%Z ∧ Ftp.content r = EmptyString ∧ Ftp.entries r = [].

(** A response of a completed exchange: no error text. *)
Definition success_shaped (r : Ftp.quoneq_ftp_response) : Prop :=
  Ftp.errorMessage r = EmptyString.

(** The counts asked of the file stream, added up. *)
Definition counts_total (requests : list (Z * Z)) : Z :=
  foldr (λ request total,
           (FileStream.to_streamsize (request.1 * request.2) + total)%Z)
        0%Z requests.

(** The read position lies within the file, at its end once a flag is
    set. *)
Definition stream_ok (stream : FileStream.ifstream) : Prop :=
  FileStream.position stream ≤ String.length (FileStream.data stream) ∧
  (FileStream.good stream = false →
   FileStream.position stream = String.length (FileStream.data stream)).

(** From [log] to [log'] at most one exchange was performed, and it
    was configured with this proxy. *)
Definition through (proxy : string) (log log' : list Curl.request) : Prop :=
  log' = log ∨
  ∃ opts, log' = log ++ [opts] ∧ Curl.CURLOPT_PROXY proxy ∈ opts.

(** The options [get] sets before it performs the exchange. *)
Definition get_request (url : string) (headers cookies : gmap string string)
    (proxy username password : string) : Curl.request :=
  [Curl.CURLOPT_URL (Curl.c_str url);
   Curl.CURLOPT_SSL_OPTIONS Curl.CURLSSLOPT_NATIVE_CA;
   Curl.CURLOPT_WRITEFUNCTION Curl.FnWrite;
   Curl.CURLOPT_WRITEDATA Curl.StringBuffer;
   Curl.CURLOPT_HEADERFUNCTION Curl.FnHeader;
   Curl.CURLOPT_HEADERDATA;
   Curl.CURLOPT_FOLLOWLOCATION 1]
  ++ Curl.setopt_if (negb (bool_decide (Http.prepare_headers headers = [])))
       (Curl.CURLOPT_HTTPHEADER (Http.prepare_headers headers))
  ++ Curl.setopt_if (negb (empty (Http.prepare_cookies cookies)))
       (Curl.CURLOPT_COOKIE (Curl.c_str (Http.prepare_cookies cookies)))
  ++ Curl.setopt_if (negb (empty proxy)) (Curl.CURLOPT_PROXY (Curl.c_str proxy))
  ++ Http.basic_auth username password.

(** A status line whose second token [std::stoi] does not read. *)
Definition unreadable_status (line : string) : Prop :=
  status_line line ∧ stoi (Http.extracted (tokens line) 1) = None.

(** * Facts about strings *)

#[local] Arguments String.append : simpl nomatch.

Section StringFacts.

Lemma str_app_nil_r (s : string) : s +:+ EmptyString = s.
Proof. induction s as [|c s IH]; [done|]. cbn. by rewrite IH. Qed.

Lemma str_app_assoc (a b c : string) : (a +:+ b) +:+ c = a +:+ (b +:+ c).
Proof. induction a as [|x a IH]; [done|]. cbn. by rewrite IH. Qed.

Lemma str_length_app (a b : string) :
  String.length (a +:+ b) = String.length a + String.length b.
Proof. induction a as [|x a IH]; [done|]. cbn. by rewrite IH. Qed.

Lemma str_app_cons (c : ascii) (a b : string) :
  String c a +:+ b = String c (a +:+ b).
Proof. done. Qed.

Lemma str_app_inv_length (a b a' b' : string) :
  a +:+ b = a' +:+ b' → String.length a = String.length a' → a = a' ∧ b = b'.
Proof.
  revert a'. induction a as [|x a IH]; intros [|y a'] Heq Hlen; simplify_eq/=; [done|].
  destruct (IH a') as [-> ->]; auto.
Qed.

Lemma char_eqb_true (a b : ascii) : char_eqb a b = true ↔ a = b.
Proof. unfold char_eqb. by rewrite bool_decide_eq_true. Qed.

Lemma char_eqb_false (a b : ascii) : char_eqb a b = false ↔ a ≠ b.
Proof. unfold char_eqb. by rewrite bool_decide_eq_false. Qed.

Lemma take_drop_chars (n : nat) (s : string) :
  take_chars n s +:+ drop_chars n s = s.
Proof.
  revert s. induction n as [|n IH]; intros [|c s]; cbn; try done.
  by rewrite IH.
Qed.

Lemma drop_chars_app (a b : string) : drop_chars (String.length a) (a +:+ b) = b.
Proof. induction a as [|x a IH]; cbn; [by destruct b|done]. Qed.

Lemma take_chars_app (a b : string) : take_chars (String.length a) (a +:+ b) = a.
Proof. induction a as [|x a IH]; cbn; [by destruct b|by rewrite IH]. Qed.

Lemma length_drop_chars (n : nat) (s : string) :
  String.length (drop_chars n s) = String.length s - n.
Proof. revert s. induction n as [|n IH]; intros [|c s]; cbn; auto. Qed.

Lemma length_take_chars (n : nat) (s : string) :
  String.length (take_chars n s) = n `min` String.length s.
Proof. revert s. induction n as [|n IH]; intros [|c s]; cbn; auto. Qed.

Lemma take_chars_all (n : nat) (s : string) :
  String.length s ≤ n → take_chars n s = s.
Proof.
  revert s. induction n as [|n IH]; intros [|c s] H; cbn in *; try done; [lia|].
  rewrite IH; [done|lia].
Qed.

Lemma drop_chars_drop_chars (n m : nat) (s : string) :
  drop_chars n (drop_chars m s) = drop_chars (m + n) s.
Proof.
  revert s. induction m as [|m IH]; intros s; [done|].
  destruct s as [|c s]; cbn; [by destruct n|]. apply IH.
Qed.

Lemma starts_with_spec (p s : string) :
  starts_with p s = true ↔ ∃ t, s = p +:+ t.
Proof.
  revert s. induction p as [|a p IH]; intros s; cbn.
  - split; [eauto|done].
  - destruct s as [|b s].
    + split; [done|]. by intros [t ?].
    + rewrite andb_true_iff, char_eqb_true, IH. split.
      * intros [-> [t ->]]. eauto.
      * intros [t ?]. simplify_eq. eauto.
Qed.

(** [find] returns the first occurrence. *)
Lemma find_Some (needle s : string) (i : nat) :
  find needle s = Some i →
  ∃ pre post, first_occurrence needle pre post s ∧ String.length pre = i.
Proof.
  revert i. induction s as [|c s IH]; intros i; cbn.
  - destruct (starts_with needle EmptyString) eqn:Hp; [|done].
    intros [= <-]. apply starts_with_spec in Hp as [t Ht].
    exists EmptyString, t. split; [|done]. split; [done|]. intros; cbn; lia.
  - destruct (starts_with needle (String c s)) eqn:Hp.
    + intros [= <-]. apply starts_with_spec in Hp as [t Ht].
      exists EmptyString, t. split; [|done]. split; [done|]. intros; cbn; lia.
    + destruct (find needle s) as [j|] eqn:Hf; [|done].
      intros [= <-]. destruct (IH j eq_refl) as (pre & post & [Hs Hmin] & Hlen).
      exists (String c pre), post. split; [|by cbn; rewrite Hlen].
      split; [by cbn; rewrite Hs|].
      intros [|c' pre'] post' Heq.
      * exfalso. assert (starts_with needle (String c s) = true) as Hn; [|congruence].
        apply starts_with_spec. exists post'. by rewrite Heq.
      * cbn in Heq. injection Heq as _ Heq. cbn.
        specialize (Hmin pre' post' Heq). lia.
Qed.

Lemma find_None (needle s : string) :
  find needle s = None → ¬ contains needle s.
Proof.
  induction s as [|c s IH]; cbn.
  - destruct (starts_with needle EmptyString) eqn:Hp; [done|].
    intros _ ([|??] & post & Heq); [|done].
    assert (starts_with needle EmptyString = true); [|congruence].
    apply starts_with_spec. eauto.
  - destruct (starts_with needle (String c s)) eqn:Hp; [done|].
    destruct (find needle s) eqn:Hf; [done|].
    intros _ ([|c' pre] & post & Heq).
    + assert (starts_with needle (String c s) = true); [|congruence].
      apply starts_with_spec. eauto.
    + cbn in Heq. simplify_eq. apply IH; [done|]. by exists pre, post.
Qed.

Lemma find_first_occurrence (needle pre post s : string) :
  first_occurrence needle pre post s → find needle s = Some (String.length pre).
Proof.
  intros [Hs Hmin]. destruct (find needle s) as [i|] eqn:Hf.
  - apply find_Some in Hf as (pre' & post' & [Hs' Hmin'] & <-).
    f_equal. specialize (Hmin _ _ Hs'). specialize (Hmin' _ _ Hs). lia.
  - apply find_None in Hf. destruct Hf. by exists pre, post.
Qed.

Lemma find_char_Some (c : ascii) (s : string) (i : nat) :
  find_char c s = Some i →
  ∃ pre post, s = pre +:+ String c post ∧ String.length pre = i ∧ ¬ mentions c pre.
Proof.
  revert i. induction s as [|b s IH]; intros i; cbn; [done|].
  destruct (char_eqb b c) eqn:Hb.
  - intros [= <-]. apply char_eqb_true in Hb as ->.
    exists EmptyString, s. split_and!; [done..|]. by intros ([|??] & ? & ?).
  - destruct (find_char c s) as [j|]; [|done]. intros [= <-].
    destruct (IH j eq_refl) as (pre & post & -> & <- & Hno).
    exists (String b pre), post. split_and!; [done..|].
    intros ([|b' pre'] & post' & Heq); cbn in Heq; simplify_eq.
    + by apply char_eqb_false in Hb.
    + apply Hno. by exists pre', post'.
Qed.

Lemma find_char_None (c : ascii) (s : string) :
  find_char c s = None ↔ ¬ mentions c s.
Proof.
  induction s as [|b s IH]; cbn.
  - split; [|done]. by intros _ ([|??] & ? & ?).
  - destruct (char_eqb b c) eqn:Hb.
    + apply char_eqb_true in Hb as ->. split; [done|].
      intros H. destruct H. by exists EmptyString, s.
    + destruct (find_char c s) as [j|] eqn:Hf; cbn.
      * split; [done|]. intros H. exfalso.
        assert (¬ ¬ mentions c s) as Hnn by (rewrite <- IH; done).
        apply Hnn. intros (pre & post & ->). apply H. by exists (String b pre), post.
      * split; [|done]. intros _ ([|b' pre] & post & Heq); cbn in Heq; simplify_eq.
        -- by apply char_eqb_false in Hb.
        -- apply IH; [done|]. by exists pre, post.
Qed.

Lemma find_char_first (c : ascii) (pre post : string) :
  ¬ mentions c pre → find_char c (pre +:+ String c post) = Some (String.length pre).
Proof.
  intros Hno. destruct (find_char c (pre +:+ String c post)) as [i|] eqn:Hf.
  - apply find_char_Some in Hf as (pre' & post' & Heq & <- & Hno').
    f_equal. revert pre' Heq Hno'. induction pre as [|a pre IH]; intros [|a' pre'] Heq Hno';
      cbn in *; simplify_eq; try done.
    + destruct Hno'. by exists EmptyString, pre'.
    + destruct Hno. by exists EmptyString, pre.
    + f_equal. apply IH; [|done|].
      * intros (x & y & ->). apply Hno. by exists (String a' x), y.
      * intros (x & y & ->). apply Hno'. by exists (String a' x), y.
  - apply find_char_None in Hf. destruct Hf. by exists pre, post.
Qed.

End StringFacts.

(** * FTP paths and server directives *)

(** Unfolds the steps of an [io] computation. *)
Ltac io_steps :=
  unfold easy_init, easy_perform, lift, or_throw;
  unfold mbind, mret, io_bind, io_ret, outcome_bind, outcome_ret; cbn.

Section FtpPath.
Import Curl.

Lemma find_char_from_first (c : ascii) (pre host rest : string) :
  ¬ mentions c host →
  find_char_from c (pre +:+ host +:+ String c rest) (String.length pre)
  = Some (String.length pre + String.length host).
Proof.
  intros Hno. unfold find_char_from.
  rewrite decide_False by (rewrite str_length_app; lia).
  rewrite drop_chars_app, find_char_first by done. done.
Qed.

Lemma find_char_from_none (c : ascii) (pre host : string) :
  ¬ mentions c host →
  find_char_from c (pre +:+ host) (String.length pre) = None.
Proof.
  intros Hno. unfold find_char_from.
  rewrite decide_False by (rewrite str_length_app; lia).
  rewrite drop_chars_app. apply find_char_None in Hno. by rewrite Hno.
Qed.

(** C9: [extract_ftp_path] returns the part of the URL that starts at
    the first [/] after the first ["ftp://"], and the empty string
    when the URL holds no ["ftp://"] or no [/] after it; [remove],
    [move] and [create] then still perform their exchange, with the
    directives ["DELE "], ["RNFR "]/["RNTO "] and ["MKD "] followed by
    that (possibly empty) path. *)
Theorem extract_ftp_path_directives (ftp_url : string) :
  (∀ pre host rest,
     first_occurrence "ftp://" pre (host +:+ String "/" rest) ftp_url →
     ¬ mentions "/" host →
     Ftp.extract_ftp_path ftp_url = String "/" rest) ∧
  (¬ contains "ftp://" ftp_url → Ftp.extract_ftp_path ftp_url = EmptyString) ∧
  (∀ pre host,
     first_occurrence "ftp://" pre host ftp_url →
     ¬ mentions "/" host →
     Ftp.extract_ftp_path ftp_url = EmptyString) ∧
  (∀ E username password log,
     curl_easy_init E = true →
     ∃ opts,
       Ftp.remove E ftp_url username password log
       = Returns (Ftp.settle E (curl_easy_perform E opts) Ftp.fresh_response,
                  log ++ [opts]) ∧
       CURLOPT_QUOTE ["DELE " +:+ c_str (Ftp.extract_ftp_path ftp_url)] ∈ opts) ∧
  (∀ E ftp_url_to username password log,
     curl_easy_init E = true →
     ∃ opts,
       Ftp.move E ftp_url ftp_url_to username password log
       = Returns (Ftp.settle E (curl_easy_perform E opts) Ftp.fresh_response,
                  log ++ [opts]) ∧
       CURLOPT_QUOTE ["RNFR " +:+ c_str (Ftp.extract_ftp_path ftp_url);
                      "RNTO " +:+ c_str (Ftp.extract_ftp_path ftp_url_to)] ∈ opts) ∧
  (∀ E username password log,
     curl_easy_init E = true →
     ∃ opts,
       Ftp.create E ftp_url username password log
       = Returns (Ftp.settle E (curl_easy_perform E opts) Ftp.fresh_response,
                  log ++ [opts]) ∧
       CURLOPT_QUOTE ["MKD " +:+ c_str (Ftp.extract_ftp_path ftp_url)] ∈ opts).
Proof.
  split_and!.
  - intros pre host rest Hfirst Hno. unfold Ftp.extract_ftp_path.
    rewrite (find_first_occurrence _ _ _ _ Hfirst).
    destruct Hfirst as [-> _].
    replace (pre +:+ "ftp://" +:+ host +:+ String "/" rest)
      with ((pre +:+ "ftp://") +:+ host +:+ String "/" rest)
      by (by rewrite str_app_assoc).
    replace (String.length pre + 6) with (String.length (pre +:+ "ftp://"))
      by (by rewrite str_length_app).
    rewrite find_char_from_first by done.
    rewrite <- str_length_app, <- str_app_assoc. apply drop_chars_app.
  - intros Hno. unfold Ftp.extract_ftp_path.
    destruct (find "ftp://" ftp_url) as [i|] eqn:Hf; [|done].
    apply find_Some in Hf as (pre & post & [-> _] & _).
    destruct Hno. by exists pre, post.
  - intros pre host Hfirst Hno. unfold Ftp.extract_ftp_path.
    rewrite (find_first_occurrence _ _ _ _ Hfirst).
    destruct Hfirst as [-> _].
    rewrite <- str_app_assoc.
    replace (String.length pre + 6) with (String.length (pre +:+ "ftp://"))
      by (by rewrite str_length_app).
    by rewrite find_char_from_none.
  - intros E username password log Hinit. unfold Ftp.remove. io_steps.
    rewrite Hinit. cbn. eexists. split; [reflexivity|].
    by repeat constructor.
  - intros E ftp_url_to username password log Hinit. unfold Ftp.move. io_steps.
    rewrite Hinit. cbn. eexists. split; [reflexivity|].
    by repeat constructor.
  - intros E username password log Hinit. unfold Ftp.create. io_steps.
    rewrite Hinit. cbn. eexists. split; [reflexivity|].
    by repeat constructor.
Qed.

Lemma extract_ftp_path_directives_witness :
  Ftp.extract_ftp_path "ftp://host/a/b" = "/a/b" ∧
  Ftp.extract_ftp_path "http://host/a" = EmptyString ∧
  Ftp.extract_ftp_path "ftp://host" = EmptyString ∧
  ∃ opts,
    Ftp.remove (replying_engine (reply 0 250 [] [])) "ftp://host" "u" "p" []
    = Returns (Ftp.settle (replying_engine (reply 0 250 [] []))
                 (reply 0 250 [] []) Ftp.fresh_response, [opts]) ∧
    CURLOPT_QUOTE ["DELE "] ∈ opts.
Proof.
  split_and!.
  - apply (proj1 (extract_ftp_path_directives "ftp://host/a/b")
             EmptyString "host" "a/b").
    + split; [reflexivity|]. intros; cbn; lia.
    + apply find_char_None. reflexivity.
  - apply (proj1 (proj2 (extract_ftp_path_directives "http://host/a"))).
    apply find_None. reflexivity.
  - apply (proj1 (proj2 (proj2 (extract_ftp_path_directives "ftp://host")))
             EmptyString "host").
    + split; [reflexivity|]. intros; cbn; lia.
    + apply find_char_None. reflexivity.
  - apply (proj1 (proj2 (proj2 (proj2 (extract_ftp_path_directives "ftp://host"))))
             (replying_engine (reply 0 250 [] [])) "u" "p" []).
    reflexivity.
Defined.

End FtpPath.

(** * Listing lines *)

Section ListingLine.

Lemma extract_tokens_nonempty (cur s : string) :
  Forall (λ t, t ≠ EmptyString) (extract_tokens cur s).
Proof.
  revert cur. induction s as [|c s IH]; intros cur; cbn.
  - destruct cur; cbn; [constructor|]. by repeat constructor.
  - destruct (isspace c); [|apply IH].
    apply Forall_app. split; [|apply IH].
    destruct cur; cbn; [constructor|]. by repeat constructor.
Qed.

Lemma join_fold (init : string) (rest : list string) :
  foldl (λ name token, name +:+ (" " +:+ token)) init rest
  = String.concat " " (init :: rest).
Proof.
  revert init. induction rest as [|t rest IH]; intros init; [done|].
  cbn [foldl]. rewrite IH. cbn [String.concat].
  destruct rest as [|x rest]; [done|]. by rewrite !str_app_assoc.
Qed.

Lemma join_nonempty (init : string) (rest : list string) :
  init ≠ EmptyString → String.concat " " (init :: rest) ≠ EmptyString.
Proof. destruct init; [done|]. by destruct rest. Qed.

(** C3: [parse_ftp_list_line] reports a directory exactly when the
    first character is [d]; with nine tokens or more the name is the
    ninth token and the following ones joined by single spaces; with
    one to eight tokens it is the last token; the empty line, and every
    line whose name comes out empty, is dropped by the one caller, the
    loop of [list_recursive_helper]. *)
Theorem parse_ftp_list_line_spec (line : string) :
  (Ftp.parse_ftp_list_line line).1
    = bool_decide (String.get 0 line = Some "d"%char) ∧
  (9 ≤ length (tokens line) →
   (Ftp.parse_ftp_list_line line).2 = String.concat " " (drop 8 (tokens line))) ∧
  (1 ≤ length (tokens line) ≤ 8 →
   last (tokens line) = Some (Ftp.parse_ftp_list_line line).2) ∧
  Ftp.parse_ftp_list_line EmptyString = (false, EmptyString) ∧
  ((Ftp.parse_ftp_list_line line).2 = EmptyString ↔ tokens line = []) ∧
  ((Ftp.parse_ftp_list_line line).2 = EmptyString →
   ∀ recurse ftp_url accum log,
     Ftp.visit_line recurse ftp_url accum line log = Returns (accum, log)).
Proof.
  assert (Hname9 : 9 ≤ length (tokens line) →
            (Ftp.parse_ftp_list_line line).2 = String.concat " " (drop 8 (tokens line))).
  { intros Hlen. destruct line as [|first s]; [cbn in Hlen; lia|].
    unfold Ftp.parse_ftp_list_line. cbn [snd]. rewrite decide_True by done.
    rewrite join_fold.
    destruct (tokens (String first s) !! 8) as [t8|] eqn:H8.
    - by rewrite (drop_S _ _ _ H8).
    - apply lookup_ge_None in H8. lia. }
  assert (Hname8 : 1 ≤ length (tokens line) ≤ 8 →
            last (tokens line) = Some (Ftp.parse_ftp_list_line line).2).
  { intros Hlen. destruct line as [|first s]; [cbn in Hlen; lia|].
    unfold Ftp.parse_ftp_list_line. cbn [snd]. rewrite decide_False by lia.
    destruct (last (tokens (String first s))) eqn:Hl; [done|].
    apply last_None in Hl. rewrite Hl in Hlen. cbn in Hlen. lia. }
  assert (Hempty : (Ftp.parse_ftp_list_line line).2 = EmptyString ↔ tokens line = []).
  { pose proof (extract_tokens_nonempty EmptyString line) as Hne.
    fold (tokens line) in Hne.
    destruct (decide (9 ≤ length (tokens line))) as [H9|H9].
    - rewrite (Hname9 H9). split.
      + intros Hcat. exfalso.
        destruct (tokens line !! 8) as [t8|] eqn:H8;
          [|apply lookup_ge_None in H8; lia].
        rewrite (drop_S _ _ _ H8) in Hcat.
        apply (join_nonempty t8 (drop 9 (tokens line))); [|done].
        eapply (proj1 (Forall_lookup _ _) Hne). exact H8.
      + intros Hnil. rewrite Hnil in H9. cbn in H9. lia.
    - destruct (tokens line) as [|t ts] eqn:Htoks.
      + split; [done|]. intros _. destruct line as [|first s]; [done|].
        unfold Ftp.parse_ftp_list_line. cbn [snd]. rewrite Htoks. done.
      + split; [|done]. intros Hn. exfalso.
        assert (1 ≤ length (t :: ts) ≤ 8) as Hlen by (cbn in *; lia).
        specialize (Hname8 Hlen). rewrite Hn in Hname8.
        destruct (proj1 (last_Some _ _) Hname8) as [l' Hl'].
        rewrite Hl' in Hne. apply Forall_app in Hne as [_ Hne].
        inversion Hne; congruence. }
  split_and!; try done.
  - destruct line as [|first s]; [done|]. cbn.
    unfold char_eqb. apply bool_decide_ext. split; congruence.
  - intros Hn recurse ftp_url accum log. unfold Ftp.visit_line.
    rewrite Hn. done.
Qed.

Lemma parse_ftp_list_line_spec_witness :
  (Ftp.parse_ftp_list_line "drwxr-xr-x 2 u g 4096 Jan 1 00:00 my dir").2 = "my dir" ∧
  last (tokens "-rw-r--r-- f") = Some (Ftp.parse_ftp_list_line "-rw-r--r-- f").2 ∧
  ∀ recurse ftp_url accum log,
    Ftp.visit_line recurse ftp_url accum " " log = Returns (accum, log).
Proof.
  split_and!.
  - apply (proj1 (proj2 (parse_ftp_list_line_spec
                           "drwxr-xr-x 2 u g 4096 Jan 1 00:00 my dir"))).
    vm_compute. lia.
  - apply (proj1 (proj2 (proj2 (parse_ftp_list_line_spec "-rw-r--r-- f")))).
    vm_compute. lia.
  - apply (proj2 (proj2 (proj2 (proj2 (proj2 (parse_ftp_list_line_spec " ")))))).
    reflexivity.
Defined.

End ListingLine.

(** * Streaming an e-mail payload *)

Section PayloadSource.
Import Smtp.
Local Open Scope Z_scope.

Lemma take_chars_add (n m : nat) (s : string) :
  take_chars (n + m) s = take_chars n s +:+ take_chars m (drop_chars n s).
Proof.
  revert s. induction n as [|n IH]; intros s; [by destruct s|].
  destruct s as [|c s]; cbn; [by destruct m|]. by rewrite IH.
Qed.

Lemma wrap_small (z : Z) : 0 ≤ z < size_t_modulus → wrap z = z.
Proof. intros. unfold wrap. by apply Z.mod_small. Qed.

Lemma wrap_range (z : Z) : 0 ≤ wrap z < size_t_modulus.
Proof. unfold wrap. apply Z.mod_pos_bound. done. Qed.

Lemma requested_total_nonneg (requests : list (Z * Z)) :
  0 ≤ requested_total requests.
Proof.
  induction requests as [|[a b] l IHl]; [done|].
  change (requested_total ((a, b) :: l)) with (wrap (a * b) + requested_total l).
  pose proof (wrap_range (a * b)). lia.
Qed.

Lemma requested_total_cons (size nmemb : Z) (requests : list (Z * Z)) :
  requested_total ((size, nmemb) :: requests)
  = wrap (size * nmemb) + requested_total requests.
Proof. done. Qed.

(** One call on a well-formed context: the bytes copied, the value
    returned and the new cursor. *)
Lemma payload_source_step (size nmemb : Z) (upload : upload_context) :
  well_formed upload →
  let copy_size :=
    Z.min (CxxString.size (payload upload) - bytes_read upload) (wrap (size * nmemb)) in
  payload_source size nmemb upload
  = (take_chars (Z.to_nat copy_size)
       (drop_chars (Z.to_nat (bytes_read upload)) (payload upload)),
     copy_size,
     {| bytes_read := bytes_read upload + copy_size; payload := payload upload |}).
Proof.
  intros [Hcur Hlen] copy_size. unfold payload_source.
  rewrite (wrap_small (_ - _)) by lia. fold copy_size.
  pose proof (wrap_range (size * nmemb)) as Hbuf.
  destruct (copy_size =? 0) eqn:Hzero; cbn [negb].
  - apply Z.eqb_eq in Hzero. rewrite Hzero, Z.add_0_r. cbn.
    destruct upload; by destruct (drop_chars _ _).
  - rewrite wrap_small by lia. done.
Qed.

Lemma payload_source_well_formed (size nmemb : Z) (upload : upload_context) :
  well_formed upload → well_formed (payload_source size nmemb upload).2.
Proof.
  intros Hwf. rewrite payload_source_step by done. destruct Hwf as [Hcur Hlen].
  pose proof (wrap_range (size * nmemb)). split; cbn; lia.
Qed.

Lemma size_take_drop (n : Z) (upload : upload_context) :
  well_formed upload →
  0 ≤ n ≤ CxxString.size (payload upload) - bytes_read upload →
  CxxString.size
    (take_chars (Z.to_nat n)
       (drop_chars (Z.to_nat (bytes_read upload)) (payload upload))) = n.
Proof.
  intros [Hcur Hlen] Hn. unfold CxxString.size in *.
  rewrite length_take_chars, length_drop_chars. lia.
Qed.

Lemma pull_app (before after : list (Z * Z)) (upload : upload_context) :
  pull (before ++ after) upload
  = ((pull before upload).1 ++ (pull after (pull before upload).2).1,
     (pull after (pull before upload).2).2).
Proof.
  revert upload. induction before as [|[size nmemb] before IH]; intros upload.
  - cbn. by destruct (pull after upload).
  - cbn. destruct (payload_source size nmemb upload) as [[chunk n] upload'].
    rewrite IH. by destruct (pull before upload').
Qed.

(** A whole run from a well-formed context. *)
Lemma pull_spec (requests : list (Z * Z)) (upload : upload_context) :
  well_formed upload →
  let final := (pull requests upload).2 in
  well_formed final ∧
  payload final = payload upload ∧
  bytes_read final
    = Z.min (CxxString.size (payload upload))
            (bytes_read upload + requested_total requests) ∧
  received_bytes (pull requests upload).1
    = take_chars (Z.to_nat (bytes_read final - bytes_read upload))
        (drop_chars (Z.to_nat (bytes_read upload)) (payload upload)).
Proof.
  revert upload. induction requests as [|[size nmemb] requests IH]; intros upload Hwf.
  - cbn. destruct Hwf as [Hcur Hlen]. split_and!; [done..|lia|].
    rewrite Z.sub_diag. cbn. by destruct (drop_chars _ _).
  - cbn [pull]. pose proof (payload_source_well_formed size nmemb upload Hwf) as Hwf'.
    rewrite payload_source_step in * by done. cbn [snd] in Hwf'.
    set (copy_size := Z.min _ _) in *.
    set (upload' := {| bytes_read := _; payload := _ |}) in *.
    specialize (IH upload' Hwf'). destruct (pull requests upload') as [calls final].
    cbn [fst snd] in *. destruct IH as (Hwfin & Hpay & Hbr & Hrecv).
    pose proof (wrap_range (size * nmemb)) as Hbuf.
    destruct Hwf as [Hcur Hlen].
    pose proof (requested_total_nonneg requests) as Htot.
    subst upload'. cbn [bytes_read payload] in *.
    split_and!; [done|done|rewrite requested_total_cons; lia|].
    cbn [received_bytes foldr fst]. fold (received_bytes calls). rewrite Hrecv.
    replace (Z.to_nat (bytes_read final - bytes_read upload))
      with (Z.to_nat copy_size + Z.to_nat (bytes_read final - (bytes_read upload + copy_size)))%nat
      by lia.
    rewrite take_chars_add. f_equal. f_equal.
    rewrite drop_chars_drop_chars. f_equal. lia.
Qed.

Lemma well_formed_start (payload : string) :
  CxxString.size payload < size_t_modulus →
  well_formed {| bytes_read := 0; payload := payload |}.
Proof. intros. split; cbn; [|done]. unfold CxxString.size. lia. Qed.

(** C10: along any sequence of calls that starts with the cursor at 0,
    the cursor never decreases and never passes the end of the payload,
    each call returns the number of bytes it copied, and a call made
    once the cursor has reached the end returns 0. *)
Theorem payload_source_cursor (bytes : string) (before : list (Z * Z)) (size nmemb : Z) :
  CxxString.size bytes < size_t_modulus →
  let upload := (pull before {| bytes_read := 0; payload := bytes |}).2 in
  let chunk := (payload_source size nmemb upload).1.1 in
  let n := (payload_source size nmemb upload).1.2 in
  let upload' := (payload_source size nmemb upload).2 in
  0 ≤ bytes_read upload ≤ bytes_read upload' ∧
  bytes_read upload' ≤ CxxString.size bytes ∧
  payload upload' = bytes ∧
  n = CxxString.size chunk ∧
  bytes_read upload' = bytes_read upload + n ∧
  (∀ k, bytes_read (pull (take k before) {| bytes_read := 0; payload := bytes |}).2
        = CxxString.size bytes →
        n = 0 ∧ chunk = EmptyString ∧ upload' = upload).
Proof.
  intros Hlen upload chunk n upload'.
  pose proof (well_formed_start bytes Hlen) as Hwf0.
  destruct (pull_spec before _ Hwf0) as (Hwf & Hpay & Hbr & _).
  fold upload in Hwf, Hpay, Hbr. cbn [payload bytes_read] in Hpay, Hbr.
  pose proof (payload_source_step size nmemb upload Hwf) as Hstep.
  cbn zeta in Hstep. subst chunk n upload'. rewrite Hstep. cbn [fst snd bytes_read payload].
  pose proof (wrap_range (size * nmemb)) as Hbuf.
  destruct Hwf as [Hcur Hsz]. rewrite Hpay in *.
  split_and!; [lia..|done| |done|].
  - rewrite <- Hpay. rewrite size_take_drop; [done|split; rewrite Hpay; done|].
    rewrite Hpay. lia.
  - intros k Hk.
    assert (bytes_read upload = CxxString.size bytes) as Hend.
    { destruct (pull_spec (take k before) _ Hwf0) as (Hwfk & Hpayk & Hbrk & _).
      cbn [payload bytes_read] in Hpayk, Hbrk. rewrite Hk in Hbrk.
      destruct (pull_spec (drop k before) _ Hwfk) as (_ & _ & Hbrd & _).
      pose proof (pull_app (take k before) (drop k before)
                    {| bytes_read := 0; payload := bytes |}) as Happ.
      rewrite take_drop in Happ. fold upload in Happ.
      apply (f_equal snd) in Happ. cbn [snd] in Happ. fold upload in Happ.
      rewrite Happ, Hbrd, Hpayk, Hk.
      pose proof (requested_total_nonneg (drop k before)) as Htot.
      lia. }
    rewrite Hend, Z.sub_diag. rewrite Z.min_l by lia. cbn.
    split_and!; [done|by destruct (drop_chars _ _)|].
    rewrite Z.add_0_r, <- Hend, <- Hpay. clear. clearbody upload. by destruct upload.
Qed.

Lemma payload_source_cursor_witness :
  let upload := (pull [(1, 4); (2, 3)] {| bytes_read := 0; payload := "hello world" |}).2 in
  bytes_read upload = 10 ∧
  (payload_source 1 8 upload).1 = ("d", 1) ∧
  bytes_read (payload_source 1 8 upload).2 = 11.
Proof.
  pose proof (payload_source_cursor "hello world" [(1, 4); (2, 3)] 1 8) as H.
  cbn zeta in H. destruct H as (_ & _ & _ & _ & Hadv & _); [done|].
  split_and!; [reflexivity|reflexivity|]. rewrite Hadv. reflexivity.
Defined.

End PayloadSource.

Section EmailPayload.
Import Smtp.
Local Open Scope Z_scope.

Lemma mentions_app (c : ascii) (a b : string) :
  mentions c (a +:+ b) ↔ mentions c a ∨ mentions c b.
Proof.
  split.
  - intros (pre & post & Heq). revert pre Heq.
    induction a as [|x a IH]; intros pre Heq; [right; by exists pre, post|].
    destruct pre as [|y pre]; cbn in Heq; simplify_eq.
    + left. by exists EmptyString, a.
    + destruct (IH pre) as [(p & q & ->)|?]; [done| |by right].
      left. by exists (String y p), q.
  - intros [(p & q & ->)|(p & q & ->)].
    + exists p, (q +:+ b). by rewrite str_app_assoc.
    + exists (a +:+ p), q. by rewrite str_app_assoc.
Qed.

Lemma single_line_app (a b : string) :
  single_line a → single_line b → single_line (a +:+ b).
Proof.
  intros [Ha1 Ha2] [Hb1 Hb2]. split; rewrite mentions_app; tauto.
Qed.

Lemma single_line_literal (s : string) :
  find_char CR s = None → find_char LF s = None → single_line s.
Proof. intros H1 H2. split; by apply find_char_None. Qed.

Lemma crlf_only_app (a b : string) :
  crlf_only a = true → crlf_only (a +:+ b) = crlf_only b.
Proof.
  remember (String.length a) as n eqn:Hn. revert a Hn.
  induction n as [n IH] using lt_wf_ind. intros a Hn Ha.
  destruct a as [|c a]; [done|]. cbn in Ha |- *.
  destruct (char_eqb c CR).
  - destruct a as [|c' a]; [done|]. cbn.
    destruct (char_eqb c' LF); [|done]. cbn in Ha |- *.
    apply (IH (String.length a)); [cbn in Hn; lia|done|done].
  - destruct (char_eqb c LF); [done|].
    apply (IH (String.length a)); [cbn in Hn; lia|done|done].
Qed.

(** C5, as the code has it: each call of the read callback copies
    min(remaining, buffer size) bytes from the cursor, returns that
    number and advances the cursor by it; at the end of the payload it
    copies nothing and returns 0; the pieces of any run, put together in
    call order, are the payload up to the cursor, and the whole payload
    once the buffers asked for add up to its length.  The payload is the
    four header lines, an empty line and the message, each followed by
    CRLF, the caller's strings being inserted as they are: the line
    terminators are CRLF throughout when those strings pair every CR
    with an LF, and the header lines are single non-empty lines when the
    sender, the recipient and the subject hold neither CR nor LF. *)
Theorem email_payload_streaming (email recipient subject message : string)
    (is_html : bool) (requests : list (Z * Z)) :
  let bytes := email_payload email recipient subject message is_html in
  let start := {| bytes_read := 0; payload := bytes |} in
  CxxString.size bytes < size_t_modulus →
  (∀ before size nmemb after,
     requests = before ++ (size, nmemb) :: after →
     let upload := (pull before start).2 in
     let copy_size :=
       Z.min (CxxString.size bytes - bytes_read upload) (wrap (size * nmemb)) in
     payload_source size nmemb upload
     = (take_chars (Z.to_nat copy_size) (drop_chars (Z.to_nat (bytes_read upload)) bytes),
        copy_size,
        {| bytes_read := bytes_read upload + copy_size; payload := bytes |})) ∧
  (∀ size nmemb,
     payload_source size nmemb {| bytes_read := CxxString.size bytes; payload := bytes |}
     = (EmptyString, 0, {| bytes_read := CxxString.size bytes; payload := bytes |})) ∧
  received_bytes (pull requests start).1
    = take_chars (Z.to_nat (bytes_read (pull requests start).2)) bytes ∧
  (CxxString.size bytes ≤ requested_total requests →
   received_bytes (pull requests start).1 = bytes) ∧
  bytes = terminated_lines
            (message_headers email recipient subject is_html ++ [EmptyString])
            (message +:+ CRLF) ∧
  (crlf_only email = true → crlf_only recipient = true →
   crlf_only subject = true → crlf_only message = true →
   crlf_only bytes = true) ∧
  (single_line email → single_line recipient → single_line subject →
   Forall (λ line, line ≠ EmptyString ∧ single_line line)
          (message_headers email recipient subject is_html)).
Proof.
  intros bytes start Hlen.
  pose proof (well_formed_start bytes Hlen) as Hwf0. fold start in Hwf0.
  split_and!.
  - intros before size nmemb after _ upload copy_size.
    destruct (pull_spec before start Hwf0) as (Hwf & Hpay & _ & _).
    fold upload in Hwf, Hpay. cbn [payload start] in Hpay.
    pose proof (payload_source_step size nmemb upload Hwf) as Hstep.
    cbn zeta in Hstep. rewrite Hpay in Hstep. exact Hstep.
  - intros size nmemb.
    assert (well_formed {| bytes_read := CxxString.size bytes; payload := bytes |}) as Hwf.
    { split; cbn; [|done]. unfold CxxString.size. lia. }
    rewrite (payload_source_step size nmemb _ Hwf). cbn [bytes_read payload].
    pose proof (wrap_range (size * nmemb)).
    rewrite Z.sub_diag, Z.min_l, Z.add_0_r by lia. cbn.
    by destruct (drop_chars _ _).
  - destruct (pull_spec requests start Hwf0) as (_ & _ & _ & Hrecv).
    rewrite Hrecv. cbn [bytes_read payload start]. by rewrite Z.sub_0_r.
  - intros Henough.
    destruct (pull_spec requests start Hwf0) as (_ & _ & Hbr & Hrecv).
    rewrite Hrecv, Hbr. cbn [bytes_read payload start].
    rewrite Z.min_l, Z.sub_0_r by lia. cbn [drop_chars Z.to_nat].
    apply take_chars_all. unfold CxxString.size. lia.
  - subst bytes. unfold email_payload, terminated_lines, message_headers.
    cbn [foldr app]. by rewrite !str_app_assoc.
  - intros He Hr Hs Hm. subst bytes. unfold email_payload.
    rewrite (crlf_only_app "From: "), (crlf_only_app email), (crlf_only_app CRLF) by done.
    rewrite (crlf_only_app "To: "), (crlf_only_app recipient), (crlf_only_app CRLF) by done.
    rewrite (crlf_only_app "Subject: "), (crlf_only_app subject), (crlf_only_app CRLF) by done.
    rewrite (crlf_only_app "Content-Type: ") by done.
    rewrite (crlf_only_app (if is_html then "text/html" else "text/plain"))
      by (by destruct is_html).
    rewrite (crlf_only_app "; charset=UTF-8"), !(crlf_only_app CRLF) by done.
    by rewrite (crlf_only_app message).
  - intros He Hr Hs. unfold message_headers.
    assert (∀ lit s, find_char CR lit = None → find_char LF lit = None →
              lit ≠ EmptyString → single_line s →
              lit +:+ s ≠ EmptyString ∧ single_line (lit +:+ s)) as Hline.
    { intros lit s H1 H2 Hne Hs'. split; [by destruct lit|].
      apply single_line_app; [by apply single_line_literal|done]. }
    repeat apply Forall_cons_2; [by apply Hline..| |apply Forall_nil_2].
    apply Hline; [done..|].
    apply single_line_app; [|by apply single_line_literal].
    destruct is_html; by apply single_line_literal.
Qed.

(** A message whose lines end in a bare LF goes into the payload as it
    is. *)
Lemma email_payload_bare_line_feed :
  crlf_only
    (email_payload "a@example.org" "b@example.org" "hi"
       (String "x" (String LF (String "y" EmptyString))) false) = false.
Proof. reflexivity. Qed.

Lemma email_payload_streaming_witness :
  received_bytes
    (pull [(1, 16); (1, 64); (4, 16)]
       {| bytes_read := 0;
          payload := email_payload "a@example.org" "b@example.org" "hi" "text" true |}).1
  = email_payload "a@example.org" "b@example.org" "hi" "text" true ∧
  crlf_only (email_payload "a@example.org" "b@example.org" "hi" "text" true) = true.
Proof.
  pose proof (email_payload_streaming "a@example.org" "b@example.org" "hi" "text" true
                [(1, 16); (1, 64); (4, 16)]) as H.
  cbn zeta in H. destruct H as (_ & _ & _ & Hall & _ & Hcrlf & _); [done|].
  split; [apply Hall; vm_compute; discriminate|by apply Hcrlf].
Defined.

End EmailPayload.

(** * The HTTP response decoder *)

Section HeaderCallback.
Import Http.
Local Open Scope Z_scope.

Lemma find_zero (needle s : string) :
  find needle s = Some 0%nat ↔ ∃ rest, s = needle +:+ rest.
Proof.
  rewrite <- starts_with_spec. destruct s as [|c s]; cbn.
  - by destruct (starts_with needle EmptyString).
  - destruct (starts_with needle (String c s)); [done|].
    by destruct (find needle s).
Qed.

Lemma substr_in_range (s : string) (pos n : Z) :
  0 ≤ pos ≤ CxxString.size s → ∃ piece, substr s pos n = Some piece.
Proof. intros H. unfold substr. rewrite decide_False by lia. eauto. Qed.

Lemma find_char_bound (c : ascii) (s : string) (i : nat) :
  find_char c s = Some i → (i < String.length s)%nat.
Proof.
  intros (pre & post & -> & <- & _)%find_char_Some.
  rewrite str_length_app. cbn. lia.
Qed.

(** The header-field block never throws and leaves the status alone. *)
Lemma read_header_field_returns (header_line : string)
    (response : quoneq_http_response) :
  ∃ response',
    read_header_field header_line response = Returns response' ∧
    status response' = status response ∧
    statusType response' = statusType response ∧
    errorMessage response' = errorMessage response ∧
    content response' = content response.
Proof.
  unfold read_header_field.
  destruct (find ": " header_line) as [pos|] eqn:Hfind; [|by eexists].
  apply find_Some in Hfind as (pre & post & [Hline _] & Hpos).
  assert (CxxString.size header_line = Z.of_nat pos + 2 + CxxString.size post) as Hsize.
  { unfold CxxString.size. rewrite Hline, !str_length_app, Hpos. cbn. lia. }
  destruct (substr_in_range header_line 0 (Z.of_nat pos)) as [key ->];
    [unfold CxxString.size; lia|].
  destruct (substr_in_range header_line (Z.of_nat pos + 2) npos) as [value ->];
    [unfold CxxString.size in *; lia|].
  cbn [or_throw mbind outcome_bind].
  set (value1 := if negb (empty value) && bool_decide (back value = Some LF)
                 then pop_back value else value).
  set (value2 := if negb (empty value1) && bool_decide (back value1 = Some CR)
                 then pop_back value1 else value1).
  destruct (str_eqb key "Set-Cookie"); [|by eexists].
  destruct (substr_in_range value2 0 (to_size_t (find_char "=" value2))) as [name ->];
    [unfold CxxString.size; lia|].
  destruct (substr_in_range value2 (wrap (to_size_t (find_char "=" value2) + 1))
              (wrap (to_size_t (find_char ";" value2)
                     - to_size_t (find_char "=" value2) - 1))) as [cookie ->].
  { destruct (find_char "=" value2) as [i|] eqn:Heq; cbn [to_size_t].
    - apply find_char_bound in Heq. unfold wrap, CxxString.size. split.
      + apply Z.mod_pos_bound. done.
      + etrans; [apply Z.mod_le; [lia|done]|]. lia.
    - unfold CxxString.size. change (wrap (npos + 1)) with 0. lia. }
  by eexists.
Qed.

(** C2, as the code has it: a line that begins with ["HTTP/"] and whose
    second token [std::stoi] reads as an integer replaces the stored
    status by that integer (as a [uint16_t]) and the stored status text
    by the third token, the empty string when the line has fewer than
    three tokens. *)
Theorem header_callback_status_line (rest : string)
    (response : quoneq_http_response) (code : Z) :
  let header_line := "HTTP/" +:+ rest in
  stoi (extracted (tokens header_line) 1) = Some code →
  ∃ response',
    header_callback header_line response = Returns response' ∧
    status response' = to_uint16 code ∧
    statusType response' = extracted (tokens header_line) 2 ∧
    (length (tokens header_line) < 3 → statusType response' = EmptyString)%nat.
Proof.
  intros header_line Hcode. unfold header_callback, read_status_line.
  rewrite bool_decide_eq_true_2 by (apply find_zero; by exists rest).
  clearbody header_line. cbn zeta. rewrite Hcode. cbn [or_throw mbind outcome_bind].
  edestruct read_header_field_returns as (response' & -> & Hst & Hty & _).
  exists response'. split_and!; [done|by rewrite Hst|by rewrite Hty|].
  intros Hlen. rewrite Hty. unfold extracted.
  by rewrite lookup_ge_None_2 by lia.
Qed.

(** A status line of two tokens replaces a stored status. *)
Lemma header_callback_two_tokens :
  let previous := set_status 301 (set_statusType "Moved" fresh_response) in
  length (tokens ("HTTP/2 200 " +:+ CRLF)) = 2%nat ∧
  header_callback ("HTTP/2 200 " +:+ CRLF) previous
  = Returns (set_status 200 (set_statusType EmptyString previous)).
Proof. split; reflexivity. Qed.

(** A status line that is its first token alone ends in the exception
    of [std::stoi]. *)
Lemma header_callback_one_token :
  header_callback ("HTTP/1.1" +:+ CRLF)
    (set_status 301 (set_statusType "Moved" fresh_response)) = Throws.
Proof. reflexivity. Qed.

Lemma header_callback_status_line_witness :
  ∃ response',
    header_callback "HTTP/1.1 404 Not Found" fresh_response = Returns response' ∧
    status response' = 404 ∧ statusType response' = "Not".
Proof.
  destruct (header_callback_status_line "1.1 404 Not Found" fresh_response 404)
    as (response' & Hret & Hst & Hty & _); [reflexivity|].
  exists response'. split_and!; [exact Hret|exact Hst|exact Hty].
Defined.

End HeaderCallback.

(** * The Tor probe, FTP [exists] and Telnet scripts *)

Section Probes.
Import Curl.
Local Open Scope Z_scope.

(** What [is_tor_running] answers when it returns: true exactly when
    the ping of the check URL through the local SOCKS proxy returns a
    response whose status is 200; false when no handle is obtained and,
    provided [header_callback] returns on every header line of the
    exchange, false when the exchange fails (the status is then 0) and
    for every other status. *)
Theorem is_tor_running_iff (E : engine) (log : list request) :
  let r := curl_easy_perform E probe_request in
  (∀ b log',
     Tor.is_tor_running E log = Returns (b, log') →
     (b = true ↔
      ∃ response,
        Http.ping E "https://check.torproject.org" "socks5h://localhost:9050"
                  EmptyString EmptyString log = Returns (Some response, log') ∧
        Http.status response = 200)) ∧
  (curl_easy_init E = false →
   Http.ping E "https://check.torproject.org" "socks5h://localhost:9050"
             EmptyString EmptyString log = Returns (None, log) ∧
   Tor.is_tor_running E log = Returns (false, log)) ∧
  (curl_easy_init E = true →
   ∀ decoded,
     fold_outcome Http.header_callback (header_lines r) Http.fresh_response
       = Returns decoded →
     ∃ response,
       Http.ping E "https://check.torproject.org" "socks5h://localhost:9050"
                 EmptyString EmptyString log
         = Returns (Some response, log ++ [probe_request]) ∧
       Http.status response
         = (if bool_decide (res r = CURLE_OK)
            then Http.to_uint16 (response_code r) else 0) ∧
       Tor.is_tor_running E log
         = Returns (bool_decide (Http.status response = 200), log ++ [probe_request]) ∧
       (res r ≠ CURLE_OK →
        Tor.is_tor_running E log = Returns (false, log ++ [probe_request]))).
Proof.
  intros r. split_and!.
  - intros b log'. unfold Tor.is_tor_running.
    change Tor.check_url with "https://check.torproject.org".
    change Tor.tor_proxy with "socks5h://localhost:9050".
    unfold mbind at 1. unfold io_bind.
    destruct (Http.ping E _ _ _ _ log) as [[[response|] log'']| |]; cbn; try done.
    + intros [= <- <-]. rewrite bool_decide_eq_true. split.
      * intros Hst. by exists response.
      * by intros (response' & [= <-] & Hst).
    + intros [= <- <-]. split; [done|]. by intros (? & [=] & _).
  - intros Hinit. unfold Tor.is_tor_running, Http.ping. io_steps.
    by rewrite Hinit.
  - intros Hinit decoded Hdec. unfold Tor.is_tor_running, Http.ping, Http.exchange.
    io_steps. rewrite Hinit. cbn.
    change (curl_easy_perform E _) with r. rewrite Hdec. cbn.
    destruct (bool_decide (res r = CURLE_OK)) eqn:Hres; cbn.
    + eexists. split_and!; [reflexivity|reflexivity|reflexivity|].
      intros Hne. by apply bool_decide_eq_true in Hres.
    + eexists. split_and!; reflexivity || (intros _; reflexivity).
Qed.

Lemma is_tor_running_iff_witness :
  Tor.is_tor_running (replying_engine (reply 0 200 ["HTTP/1.1 200 OK"] [])) []
    = Returns (true, [probe_request]) ∧
  Tor.is_tor_running (replying_engine (reply 0 503 ["HTTP/1.1 503 Unavailable"] [])) []
    = Returns (false, [probe_request]) ∧
  Tor.is_tor_running (replying_engine (reply 7 0 [] [])) []
    = Returns (false, [probe_request]) ∧
  Tor.is_tor_running no_handle_engine [] = Returns (false, []).
Proof.
  split_and!.
  - destruct (proj2 (proj2 (is_tor_running_iff
                (replying_engine (reply 0 200 ["HTTP/1.1 200 OK"] [])) []))
                eq_refl _ eq_refl) as (response & _ & Hst & Hrun & _).
    rewrite Hrun, Hst. reflexivity.
  - destruct (proj2 (proj2 (is_tor_running_iff
                (replying_engine (reply 0 503 ["HTTP/1.1 503 Unavailable"] [])) []))
                eq_refl _ eq_refl) as (response & _ & Hst & Hrun & _).
    rewrite Hrun, Hst. reflexivity.
  - destruct (proj2 (proj2 (is_tor_running_iff (replying_engine (reply 7 0 [] [])) []))
                eq_refl _ eq_refl) as (response & _ & _ & _ & Hfail).
    apply Hfail. discriminate.
  - apply (proj1 (proj2 (is_tor_running_iff no_handle_engine []))). reflexivity.
Defined.

(** C6, where the code departs from it: the probe is answered with
    status 503 and, after the status line, a header line that starts
    with [HTTP/] and whose second token is no number.  [header_callback]
    hands that token to [std::stoi] unguarded, the exception leaves
    [ping], and [is_tor_running], which has no handler, ends in it
    instead of returning false.  The same happens when the exchange
    fails at the transport level after such a line was delivered. *)
Theorem is_tor_running_throws :
  Tor.is_tor_running
    (replying_engine
       (reply 0 503 ["HTTP/1.1 503 Service Unavailable" +:+ CRLF;
                     "HTTP/1.1-Note: abc" +:+ CRLF] [])) []
  = Throws ∧
  (¬ ∃ answer log',
       Tor.is_tor_running
         (replying_engine
            (reply 0 503 ["HTTP/1.1 503 Service Unavailable" +:+ CRLF;
                          "HTTP/1.1-Note: abc" +:+ CRLF] [])) []
       = Returns (answer, log')) ∧
  Tor.is_tor_running (replying_engine (reply 7 0 ["HTTP/1.1 abc"] [])) [] = Throws ∧
  (¬ ∃ answer log',
       Tor.is_tor_running (replying_engine (reply 7 0 ["HTTP/1.1 abc"] [])) []
       = Returns (answer, log')).
Proof.
  assert (Tor.is_tor_running
            (replying_engine
               (reply 0 503 ["HTTP/1.1 503 Service Unavailable" +:+ CRLF;
                             "HTTP/1.1-Note: abc" +:+ CRLF] [])) []
          = Throws) as Hstatus by reflexivity.
  assert (Tor.is_tor_running (replying_engine (reply 7 0 ["HTTP/1.1 abc"] [])) []
          = Throws) as Hfailed by reflexivity.
  split_and!; [exact Hstatus| |exact Hfailed|].
  - intros (answer & log' & Hrun). rewrite Hstatus in Hrun. discriminate Hrun.
  - intros (answer & log' & Hrun). rewrite Hfailed in Hrun. discriminate Hrun.
Qed.

(** C7: [exists] performs one header-only exchange and returns true
    exactly when a handle was obtained and the exchange ended without a
    transport error; the reply code plays no part, so two engines that
    agree on the handle and on the transport outcome give the same
    answer whatever reply codes they report. *)
Theorem exists_ignores_reply_code (E : engine)
    (ftp_url username password : string) (log : list request) :
  let opts := exists_request ftp_url username password in
  CURLOPT_NOBODY 1 ∈ opts ∧
  (curl_easy_init E = false →
   Ftp.exists_ E ftp_url username password log = Returns (false, log)) ∧
  (curl_easy_init E = true →
   Ftp.exists_ E ftp_url username password log
   = Returns (bool_decide (res (curl_easy_perform E opts) = CURLE_OK), log ++ [opts])) ∧
  (∀ b log',
     Ftp.exists_ E ftp_url username password log = Returns (b, log') →
     (b = true ↔
      curl_easy_init E = true ∧ res (curl_easy_perform E opts) = CURLE_OK)) ∧
  (∀ E',
     curl_easy_init E' = curl_easy_init E →
     res (curl_easy_perform E' opts) = res (curl_easy_perform E opts) →
     Ftp.exists_ E' ftp_url username password log
     = Ftp.exists_ E ftp_url username password log).
Proof.
  intros opts.
  assert (Hrun : ∀ E0,
            Ftp.exists_ E0 ftp_url username password log
            = if curl_easy_init E0
              then Returns (bool_decide (res (curl_easy_perform E0 opts) = CURLE_OK),
                            log ++ [opts])
              else Returns (false, log)).
  { intros E0. unfold Ftp.exists_. io_steps. by destruct (curl_easy_init E0). }
  split_and!.
  - unfold opts, exists_request. set_solver.
  - intros Hinit. by rewrite Hrun, Hinit.
  - intros Hinit. by rewrite Hrun, Hinit.
  - intros b log'. rewrite Hrun. destruct (curl_easy_init E).
    + intros [= <- <-]. rewrite bool_decide_eq_true. tauto.
    + intros [= <- <-]. split; [done|]. by intros [? _].
  - intros E' Hinit Hres. by rewrite !Hrun, Hinit, Hres.
Qed.

Lemma exists_ignores_reply_code_witness :
  Ftp.exists_ (replying_engine (reply 0 550 [] [])) "ftp://host/missing" "u" "p" []
    = Returns (true, [exists_request "ftp://host/missing" "u" "p"]) ∧
  Ftp.exists_ (replying_engine (reply 78 550 [] [])) "ftp://host/missing" "u" "p" []
    = Returns (false, [exists_request "ftp://host/missing" "u" "p"]) ∧
  Ftp.exists_ no_handle_engine "ftp://host/missing" "u" "p" [] = Returns (false, []).
Proof.
  split_and!.
  - apply (proj1 (proj2 (proj2 (exists_ignores_reply_code
             (replying_engine (reply 0 550 [] [])) "ftp://host/missing" "u" "p" [])))).
    reflexivity.
  - apply (proj1 (proj2 (proj2 (exists_ignores_reply_code
             (replying_engine (reply 78 550 [] [])) "ftp://host/missing" "u" "p" [])))).
    reflexivity.
  - apply (proj1 (proj2 (exists_ignores_reply_code
             no_handle_engine "ftp://host/missing" "u" "p" []))).
    reflexivity.
Defined.

End Probes.

Section Script.
Import Curl.

Lemma not_mentions_push_back (d c : ascii) (cur : string) :
  ¬ mentions d cur → c ≠ d → ¬ mentions d (push_back cur c).
Proof.
  intros Hcur Hc. unfold push_back. rewrite mentions_app.
  intros [?|([|x pre] & post & Heq)]; [done|..]; cbn in Heq; simplify_eq.
  by destruct pre.
Qed.

Lemma getline_items_spec (d : ascii) (cur s : string) :
  ¬ mentions d cur →
  Forall (λ item, ¬ mentions d item) (getline_items d cur s) ∧
  (delimited d (getline_items d cur s) = cur +:+ s ∨
   (delimited d (getline_items d cur s) = cur +:+ s +:+ String d EmptyString ∧
    ∃ item, last (getline_items d cur s) = Some item ∧ item ≠ EmptyString)).
Proof.
  revert cur. induction s as [|c s IH]; intros cur Hcur; cbn [getline_items].
  - destruct cur as [|x cur]; cbn [empty].
    + split; [constructor|]. by left.
    + split; [by repeat constructor|]. right. split; [done|].
      by exists (String x cur).
  - destruct (char_eqb c d) eqn:Hc.
    + apply char_eqb_true in Hc as ->.
      destruct (IH EmptyString) as [Hall Hjoin]; [by intros ([|??] & ? & ?)|].
      split; [by constructor|].
      cbn [delimited foldr]. fold (delimited d (getline_items d EmptyString s)).
      destruct Hjoin as [->|[-> (item & Hlast & Hne)]]; [by left|].
      right. split; [done|]. exists item. split; [|done].
      destruct (getline_items d EmptyString s); [done|]. done.
    + apply char_eqb_false in Hc.
      destruct (IH (push_back cur c)) as [Hall Hjoin];
        [by apply not_mentions_push_back|].
      split; [done|]. unfold push_back in Hjoin. rewrite !str_app_assoc in Hjoin.
      exact Hjoin.
Qed.

Lemma getlines_lines_of (d : ascii) (text : string) :
  lines_of d text (getlines d text).
Proof.
  destruct (getline_items_spec d EmptyString text) as [Hall Hjoin];
    [by intros ([|??] & ? & ?)|].
  by split.
Qed.

(** C8: [script] reads the file line by line, leaves the empty lines
    out and hands the others, in the order of the file, to [command],
    whose exchange carries them; when the file does not open it returns
    a response with a non-empty error text and performs no exchange. *)
Theorem script_reads_commands (E : engine)
    (url script_filename proxy username password : string) (timeout : Z)
    (log : list request) :
  (∀ file,
     ifstream_open E script_filename = Some file →
     ∃ lines,
       lines_of LF file lines ∧
       let commands := filter (λ line, line ≠ EmptyString) lines in
       Telnet.script E url script_filename proxy username password timeout log
       = Telnet.command E url commands proxy username password timeout log ∧
       (curl_easy_init E = true →
        let opts := command_request url commands proxy username password timeout in
        Telnet.script E url script_filename proxy username password timeout log
        = Returns (Some (Telnet.settle E (curl_easy_perform E opts) Telnet.fresh_response),
                   log ++ [opts]) ∧
        (commands ≠ [] → CURLOPT_QUOTE (c_str <$> commands) ∈ opts))) ∧
  (ifstream_open E script_filename = None →
   ∃ response,
     Telnet.script E url script_filename proxy username password timeout log
     = Returns (Some response, log) ∧
     Telnet.error_message response
     = "unable to open script file: " +:+ script_filename ∧
     Telnet.error_message response ≠ EmptyString).
Proof.
  split.
  - intros file Hopen. exists (getlines LF file).
    split; [apply getlines_lines_of|].
    assert (filter (λ line, line ≠ EmptyString) (getlines LF file)
            = Telnet.script_commands file) as ->.
    { unfold Telnet.script_commands. apply list_filter_iff.
      intros [|??]; cbn; split; done. }
    cbn zeta. unfold Telnet.script. rewrite Hopen. split; [done|].
    intros Hinit. unfold Telnet.command. io_steps. rewrite Hinit. cbn.
    split; [reflexivity|]. intros Hne.
    rewrite bool_decide_eq_false_2 by (by intros ?%fmap_nil_inv).
    cbn [negb setopt_if]. set_solver.
  - intros Hopen. unfold Telnet.script. rewrite Hopen. eexists.
    split_and!; [reflexivity|done|done].
Qed.

Lemma script_reads_commands_witness :
  let E := {| curl_easy_init := true;
              curl_easy_perform := λ _, reply 0 0 [] ["ok"];
              curl_easy_strerror := λ _, "transfer failed";
              ifstream_open := λ path,
                if str_eqb path "login.txt"
                then Some ("admin" +:+ String LF (String LF ("show" +:+ String LF EmptyString)))
                else None;
              ofstream_open := λ _, false |} in
  (∃ lines,
     lines_of LF ("admin" +:+ String LF (String LF ("show" +:+ String LF EmptyString))) lines ∧
     Telnet.script E "telnet://host" "login.txt" EmptyString EmptyString EmptyString 30 []
     = Telnet.command E "telnet://host" (filter (λ line, line ≠ EmptyString) lines)
         EmptyString EmptyString EmptyString 30 []) ∧
  ∃ response,
    Telnet.script E "telnet://host" "missing.txt" EmptyString EmptyString EmptyString 30 []
    = Returns (Some response, []) ∧
    Telnet.error_message response ≠ EmptyString.
Proof.
  intros E. split.
  - destruct (proj1 (script_reads_commands E "telnet://host" "login.txt"
                       EmptyString EmptyString EmptyString 30 []) _ eq_refl)
      as (lines & Hlines & Hrun & _).
    exists lines. split; [exact Hlines|exact Hrun].
  - destruct (proj2 (script_reads_commands E "telnet://host" "missing.txt"
                       EmptyString EmptyString EmptyString 30 []) eq_refl)
      as (response & Hrun & _ & Hne).
    exists response. split; [exact Hrun|exact Hne].
Defined.

End Script.

(** * Recursive listing *)

Section RecursiveListing.
Import Curl.
Variable E : engine.
Variables username password : string.

#[local] Abbreviation helper := (λ fuel ftp_url, Ftp.list_recursive_helper E fuel ftp_url username password).
#[local] Abbreviation loop := (λ fuel ftp_url,
  for_each (Ftp.visit_line (λ fullPath accum, helper fuel fullPath accum) ftp_url)).

Lemma get_list_detail_run (ftp_url : string) (log : list request) :
  Ftp.get_list_detail E ftp_url username password log
  = Returns (listing E username password ftp_url,
             log ++ listing_exchanges E username password [ftp_url]).
Proof.
  unfold Ftp.get_list_detail, listing, listing_exchanges. io_steps.
  destruct (curl_easy_init E); cbn; [|by rewrite app_nil_r].
  unfold listing_request. by destruct (bool_decide _).
Qed.

Lemma helper_unfold (fuel : nat) (ftp_url : string) (accum : list string)
    (log : list request) :
  helper (S fuel) ftp_url accum log
  = loop fuel ftp_url accum (listing E username password ftp_url)
      (log ++ listing_exchanges E username password [ftp_url]).
Proof.
  cbn [Ftp.list_recursive_helper]. unfold mbind at 1. unfold io_bind.
  by rewrite get_list_detail_run.
Qed.

Lemma listing_exchanges_app (a b : list string) :
  listing_exchanges E username password (a ++ b)
  = listing_exchanges E username password a ++ listing_exchanges E username password b.
Proof.
  unfold listing_exchanges. destruct (curl_easy_init E); [|done]. apply fmap_app.
Qed.

Lemma full_path_joined (ftp_url name : string) :
  ftp_url ≠ EmptyString → Ftp.full_path ftp_url name = Returns (joined ftp_url name).
Proof.
  intros Hne. unfold Ftp.full_path, joined.
  destruct (back ftp_url) as [c|] eqn:Hback.
  - cbn. unfold char_eqb. destruct (decide (c = "/"%char)) as [->|Hc].
    + by rewrite !bool_decide_eq_true_2.
    + rewrite !bool_decide_eq_false_2 by congruence. cbn. by rewrite str_app_assoc.
  - exfalso. clear -Hne Hback. induction ftp_url as [|c s IH]; [done|].
    cbn in Hback. destruct s; [done|]. by apply IH.
Qed.

Lemma for_each_cons {A S : Type} (body : S → A → io S) (st : S) (x : A)
    (xs : list A) (log : list request) :
  for_each body st (x :: xs) log
  = match body st x log with
    | Returns (st', log') => for_each body st' xs log'
    | Throws => Throws
    | Diverges => Diverges
    end.
Proof. done. Qed.

Lemma full_path_empty (name : string) : Ftp.full_path EmptyString name = Throws.
Proof. done. Qed.

Lemma skipped_iff (name : string) :
  str_eqb name "." || str_eqb name ".." || empty name = false ↔ retained name.
Proof.
  unfold retained, str_eqb. rewrite !orb_false_iff, !bool_decide_eq_false.
  destruct name as [|c s]; cbn.
  - split; [by intros [_ ?]|by intros (_ & _ & ?)].
  - split; [intros [[? ?] _]|intros (? & ? & _)]; by split_and!.
Qed.

(** What one line does, by cases. *)
Lemma visit_line_skip (recurse : string → list string → io (list string))
    (ftp_url line : string) (accum : list string) (log : list request) :
  ¬ retained (Ftp.parse_ftp_list_line line).2 →
  Ftp.visit_line recurse ftp_url accum line log = Returns (accum, log).
Proof.
  intros Hskip. unfold Ftp.visit_line.
  destruct (_ || _ || _) eqn:Hs; [done|]. by apply skipped_iff in Hs.
Qed.

Lemma visit_line_retained (recurse : string → list string → io (list string))
    (ftp_url line : string) (accum : list string) (log : list request) :
  retained (Ftp.parse_ftp_list_line line).2 →
  Ftp.visit_line recurse ftp_url accum line log
  = if decide (ftp_url = EmptyString) then Throws
    else let fullPath := joined ftp_url (Ftp.parse_ftp_list_line line).2 in
         if (Ftp.parse_ftp_list_line line).1
         then recurse fullPath (accum ++ [fullPath]) log
         else Returns (accum ++ [fullPath], log).
Proof.
  intros Hkeep. unfold Ftp.visit_line.
  apply skipped_iff in Hkeep. rewrite Hkeep.
  destruct (decide (ftp_url = EmptyString)) as [->|Hne].
  - by rewrite full_path_empty.
  - unfold mbind at 1. unfold io_bind, lift. rewrite full_path_joined by done.
    cbn zeta. by destruct (Ftp.parse_ftp_list_line line).1.
Qed.

(** More fuel does not change a result. *)
Lemma loop_mono (recurse recurse' : string → list string → io (list string))
    (ftp_url : string) (lines accum : list string) (log : list request)
    (v : list string * list request) :
  (∀ p a l w, recurse p a l = Returns w → recurse' p a l = Returns w) →
  for_each (Ftp.visit_line recurse ftp_url) accum lines log = Returns v →
  for_each (Ftp.visit_line recurse' ftp_url) accum lines log = Returns v.
Proof.
  intros Hrec. revert accum log. induction lines as [|line lines IH]; intros accum log;
    [done|].
  rewrite !for_each_cons.
  destruct (decide (retained (Ftp.parse_ftp_list_line line).2)) as [Hk|Hk].
  - rewrite !visit_line_retained by done.
    destruct (decide (ftp_url = EmptyString)); [done|]. cbn zeta.
    destruct (Ftp.parse_ftp_list_line line).1; [|apply IH].
    destruct (recurse _ _ log) as [[a l]| |] eqn:Hr; [|done..].
    rewrite (Hrec _ _ _ _ Hr). apply IH.
  - rewrite !visit_line_skip by done. apply IH.
Qed.

Lemma helper_mono (fuel fuel' : nat) (ftp_url : string) (accum : list string)
    (log : list request) (v : list string * list request) :
  fuel ≤ fuel' →
  helper fuel ftp_url accum log = Returns v →
  helper fuel' ftp_url accum log = Returns v.
Proof.
  revert fuel' ftp_url accum log v.
  induction fuel as [|fuel IH]; intros fuel' ftp_url accum log v Hle; [done|].
  destruct fuel' as [|fuel']; [lia|]. rewrite !helper_unfold.
  apply loop_mono. intros p a l w. apply IH. lia.
Qed.

(** Every result of the loop is a walk. *)
Lemma loop_sound (fuel : nat) (ftp_url : string) :
  (∀ url accum log result log',
     helper fuel url accum log = Returns (result, log') →
     ∃ paths visited,
       walk E username password url (listing E username password url) paths visited ∧
       result = accum ++ paths ∧
       log' = log ++ listing_exchanges E username password (url :: visited)) →
  ∀ lines accum log result log',
    loop fuel ftp_url accum lines log = Returns (result, log') →
    ∃ paths visited,
      walk E username password ftp_url lines paths visited ∧
      result = accum ++ paths ∧
      log' = log ++ listing_exchanges E username password visited.
Proof.
  intros Hhelper lines. induction lines as [|line lines IH]; intros accum log result log'.
  - cbn. intros [= <- <-]. exists [], []. split; [constructor|].
    unfold listing_exchanges. destruct (curl_easy_init E); by rewrite !app_nil_r.
  - rewrite for_each_cons.
    destruct (decide (retained (Ftp.parse_ftp_list_line line).2)) as [Hk|Hk].
    + rewrite visit_line_retained by done.
      destruct (decide (ftp_url = EmptyString)) as [|Hne]; [done|]. cbn zeta.
      destruct (Ftp.parse_ftp_list_line line).1 eqn:Hdir.
      * destruct (Ftp.list_recursive_helper E fuel _ username password _ log)
          as [[a l]| |] eqn:Hr; [|done..].
        intros Hrest.
        destruct (Hhelper _ _ _ _ _ Hr) as (inner & inner_visited & Hwalk & -> & ->).
        destruct (IH _ _ _ _ Hrest) as (paths & visited & Hwalk' & -> & ->).
        eexists _, _. split; [by eapply walk_directory|].
        split; [by rewrite <- !(assoc_L (++))|].
        rewrite app_comm_cons, listing_exchanges_app.
        by rewrite <- !(assoc_L (++)).
      * intros Hrest.
        destruct (IH _ _ _ _ Hrest) as (paths & visited & Hwalk' & -> & ->).
        eexists _, _. split; [by eapply walk_file|].
        split; [by rewrite <- !(assoc_L (++))|done].
    + rewrite visit_line_skip by done. intros Hrest.
      destruct (IH _ _ _ _ Hrest) as (paths & visited & Hwalk' & -> & ->).
      eexists _, _. split; [by eapply walk_skip|done].
Qed.

Lemma helper_sound (fuel : nat) (url : string) (accum : list string)
    (log : list request) (result : list string) (log' : list request) :
  helper fuel url accum log = Returns (result, log') →
  ∃ paths visited,
    walk E username password url (listing E username password url) paths visited ∧
    result = accum ++ paths ∧
    log' = log ++ listing_exchanges E username password (url :: visited).
Proof.
  revert url accum log result log'.
  induction fuel as [|fuel IH]; intros url accum log result log'; [done|].
  rewrite helper_unfold. intros Hloop.
  destruct (loop_sound fuel url IH _ _ _ _ _ Hloop) as (paths & visited & Hw & -> & ->).
  exists paths, visited. split_and!; [done..|].
  change (url :: visited) with ([url] ++ visited).
  rewrite listing_exchanges_app. by rewrite <- !(assoc_L (++)).
Qed.

(** Every walk is the result of the loop, given enough fuel. *)
Lemma walk_complete (url : string) (lines paths visited : list string) :
  walk E username password url lines paths visited →
  ∃ fuel, ∀ accum log,
    loop fuel url accum lines log
    = Returns (accum ++ paths, log ++ listing_exchanges E username password visited).
Proof.
  induction 1 as [url
    |url line rest paths visited Hskip _ [fuel IH]
    |url line rest paths visited Hkeep Hne Hfile _ [fuel IH]
    |url line rest inner inner_visited paths visited Hkeep Hne Hdir _ [fuel1 IH1] _ [fuel2 IH2]].
  - exists 0. intros accum log. cbn. unfold listing_exchanges.
    destruct (curl_easy_init E); by rewrite !app_nil_r.
  - exists fuel. intros accum log. rewrite for_each_cons.
    rewrite visit_line_skip by done. apply IH.
  - exists fuel. intros accum log. rewrite for_each_cons.
    rewrite visit_line_retained by done. rewrite decide_False by done.
    cbn zeta. rewrite Hfile, IH. by rewrite <- !(assoc_L (++)).
  - exists (S fuel1 `max` fuel2). intros accum log. rewrite for_each_cons.
    rewrite visit_line_retained by done. rewrite decide_False by done.
    cbn zeta. rewrite Hdir.
    rewrite (helper_mono (S fuel1) _ _ _ _
               (accum ++ [joined url (Ftp.parse_ftp_list_line line).2] ++ inner,
                log ++ listing_exchanges E username password
                         (joined url (Ftp.parse_ftp_list_line line).2 :: inner_visited)));
      [|lia|].
    + rewrite (loop_mono (λ p a, helper fuel2 p a) _ url rest _ _
                 ((accum ++ [joined url (Ftp.parse_ftp_list_line line).2] ++ inner) ++ paths,
                  (log ++ listing_exchanges E username password
                            (joined url (Ftp.parse_ftp_list_line line).2 :: inner_visited))
                  ++ listing_exchanges E username password visited)).
      * rewrite (app_comm_cons inner_visited), listing_exchanges_app.
        by rewrite <- !(assoc_L (++)).
      * intros p a l w. apply helper_mono. lia.
      * apply IH2.
    + rewrite helper_unfold, IH1.
      change (?x :: inner_visited) with ([x] ++ inner_visited).
      rewrite listing_exchanges_app. by rewrite <- !(assoc_L (++)).
Qed.

End RecursiveListing.

Section DepthFirst.
Import Curl.

(** C4: [list_recursive_helper] goes through the lines of a directory
    in the order the server returned them; it skips the entries named
    [.], [..] or nothing; for every other entry it appends the URL and
    the name, with a [/] added between them only when the URL does not
    end with one; and it lists a directory entry right after appending
    it, before the next line.  Whenever the call returns, what it
    appended and the directories it listed are those of the walk, and
    every walk is the result of the call once the fuel exceeds the depth
    of the tree. *)
Theorem list_recursive_depth_first (E : engine)
    (ftp_url username password : string) (accum : list string) (log : list request) :
  (∀ fuel result log',
     Ftp.list_recursive_helper E fuel ftp_url username password accum log
       = Returns (result, log') →
     ∃ paths visited,
       walk E username password ftp_url (listing E username password ftp_url)
            paths visited ∧
       result = accum ++ paths ∧
       log' = log ++ listing_exchanges E username password (ftp_url :: visited)) ∧
  (∀ paths visited,
     walk E username password ftp_url (listing E username password ftp_url)
          paths visited →
     ∃ fuel,
       Ftp.list_recursive_helper E fuel ftp_url username password accum log
       = Returns (accum ++ paths,
                  log ++ listing_exchanges E username password (ftp_url :: visited))) ∧
  (∀ fuel response log',
     Ftp.list_recursive E fuel ftp_url username password log = Returns (response, log') →
     ∃ visited,
       walk E username password ftp_url (listing E username password ftp_url)
            (Ftp.entries response) visited ∧
       log' = log ++ listing_exchanges E username password (ftp_url :: visited)).
Proof.
  split_and!.
  - intros fuel result log'. apply helper_sound.
  - intros paths visited Hwalk.
    destruct (walk_complete E username password _ _ _ _ Hwalk) as [fuel Hloop].
    exists (S fuel). rewrite helper_unfold, Hloop.
    change (ftp_url :: visited) with ([ftp_url] ++ visited).
    rewrite listing_exchanges_app. by rewrite <- !(assoc_L (++)).
  - intros fuel response log'. unfold Ftp.list_recursive.
    unfold mbind. unfold io_bind.
    destruct (Ftp.list_recursive_helper E fuel ftp_url username password [] log)
      as [[result log'']| |] eqn:Hrun; [|done..].
    intros [= <- <-].
    destruct (helper_sound _ _ _ _ _ _ _ _ _ Hrun) as (paths & visited & Hwalk & -> & ->).
    by exists visited.
Qed.

Lemma list_recursive_depth_first_witness :
  ∃ visited,
    walk tree_engine EmptyString EmptyString "ftp://h/a"
         (listing tree_engine EmptyString EmptyString "ftp://h/a")
         ["ftp://h/a/f"; "ftp://h/a/b"; "ftp://h/a/b/g"] visited ∧
    [listing_request "ftp://h/a" EmptyString EmptyString;
     listing_request "ftp://h/a/b" EmptyString EmptyString]
    = [] ++ listing_exchanges tree_engine EmptyString EmptyString ("ftp://h/a" :: visited).
Proof.
  destruct (proj2 (proj2 (list_recursive_depth_first tree_engine "ftp://h/a"
                            EmptyString EmptyString [] []))
              3
              (Ftp.set_list ["ftp://h/a/f"; "ftp://h/a/b"; "ftp://h/a/b/g"]
                            Ftp.fresh_response)
              [listing_request "ftp://h/a" EmptyString EmptyString;
               listing_request "ftp://h/a/b" EmptyString EmptyString]
              eq_refl) as (visited & Hwalk & Hlog).
  exists visited. split; [exact Hwalk|exact Hlog].
Defined.

End DepthFirst.

(** * Every operation and its result *)

Section Totality.
Import Curl.
Local Open Scope Z_scope.

Lemma find_last_of_bound (chars : list ascii) (s : string) (i : nat) :
  find_last_of chars s = Some i → (i < String.length s)%nat.
Proof.
  revert i. induction s as [|c s IH]; intros i; cbn; [done|].
  destruct (find_last_of chars s) as [j|].
  - intros [= <-]. specialize (IH j eq_refl). lia.
  - destruct (bool_decide _); [|done]. intros [= <-]. lia.
Qed.

Lemma fold_outcome_returns {A S : Type} (body : A → S → outcome S) (xs : list A) (st : S) :
  (∀ x st, ∃ st', body x st = Returns st') →
  ∃ st', fold_outcome body xs st = Returns st'.
Proof.
  intros Hbody. revert st. induction xs as [|x xs IH]; intros st; cbn; [by eexists|].
  destruct (Hbody x st) as [st' ->]. apply IH.
Qed.

Lemma basename_returns (path : string) : ∃ name, Http.basename path = Returns name.
Proof.
  unfold Http.basename.
  destruct (substr_in_range path
              (wrap (to_size_t (find_last_of ["/"%char; "\"%char] path) + 1)) npos)
    as [name ->]; [|by eexists].
  destruct (find_last_of _ path) as [i|] eqn:Hlast; cbn [to_size_t].
  - apply find_last_of_bound in Hlast. unfold wrap, CxxString.size. split.
    + apply Z.mod_pos_bound. done.
    + etrans; [apply Z.mod_le; [lia|done]|]. lia.
  - unfold CxxString.size. change (wrap (npos + 1)) with 0. lia.
Qed.

Lemma build_mime_returns (form files : gmap string string) :
  ∃ parts, Http.build_mime form files = Returns parts.
Proof.
  unfold Http.build_mime.
  edestruct (fold_outcome_returns
               (λ (kv : string * string) (parts : list mimepart),
                  filename ← Http.basename kv.2;
                  Returns (parts ++ [[MimeName (c_str kv.1); MimeFiledata (c_str kv.2);
                                      MimeFilename (c_str filename)]])))
    as [attachments Hfold].
  { intros kv parts. destruct (basename_returns kv.2) as [name ->]. by eexists. }
  rewrite Hfold. by eexists.
Qed.




End Totality.

Section Operations.
Import Curl.






End Operations.

(** * More on the HTTP response decoder *)

Section Decoder.
Import Http.
Local Open Scope Z_scope.

Lemma back_push (s : string) (c : ascii) : back (s +:+ String c EmptyString) = Some c.
Proof.
  induction s as [|a s IH]; [done|]. cbn.
  destruct (s +:+ String c EmptyString) eqn:Hs; [by destruct s|]. by rewrite <- IH.
Qed.

Lemma pop_back_push (s : string) (c : ascii) :
  pop_back (s +:+ String c EmptyString) = s.
Proof.
  induction s as [|a s IH]; [done|]. rewrite str_app_cons.
  remember (s +:+ String c EmptyString) as t eqn:Ht.
  destruct t as [|b t]; [by destruct s|].
  change (pop_back (String a (String b t))) with (String a (pop_back (String b t))).
  by rewrite IH.
Qed.

Lemma empty_push (s : string) (c : ascii) :
  empty (s +:+ String c EmptyString) = false.
Proof. by destruct s. Qed.

(** The status-line block on a line that is no status line. *)
Lemma read_status_line_other (line : string) (response : quoneq_http_response) :
  ¬ status_line line → read_status_line line response = Returns response.
Proof.
  intros Hno. unfold read_status_line.
  rewrite bool_decide_eq_false_2; [done|]. by rewrite find_zero.
Qed.

(** The status-line block on a status line. *)
Lemma read_status_line_status (line : string) (response : quoneq_http_response) :
  status_line line →
  read_status_line line response
  = match stoi (extracted (tokens line) 1) with
    | Some code =>
        Returns (set_status (to_uint16 code)
                   (set_statusType (extracted (tokens line) 2) response))
    | None => Throws
    end.
Proof.
  intros Hst. unfold read_status_line.
  rewrite bool_decide_eq_true_2 by (by rewrite find_zero).
  cbn zeta. by destruct (stoi _).
Qed.

(** X1: [header_callback] ends in an exception exactly on a line that
    starts with ["HTTP/"] and whose second token [std::stoi] does not
    read as an [int]; on every other line it returns, and a line that
    is no status line leaves the status and the status text as they
    were. *)
Theorem header_callback_throws_iff (line : string) (response : quoneq_http_response) :
  (header_callback line response = Throws ↔
   status_line line ∧ stoi (extracted (tokens line) 1) = None) ∧
  header_callback line response ≠ Diverges ∧
  (¬ status_line line →
   ∃ response',
     header_callback line response = Returns response' ∧
     status response' = status response ∧
     statusType response' = statusType response).
Proof.
  unfold header_callback.
  assert (status_line line ∨ ¬ status_line line) as [Hst|Hno].
  { unfold status_line. rewrite <- find_zero.
    destruct (decide (find "HTTP/" line = Some 0%nat)); [by left|by right]. }
  - rewrite read_status_line_status by done.
    destruct (stoi (extracted (tokens line) 1)) as [code|]; cbn.
    + edestruct read_header_field_returns as (response' & -> & _).
      split_and!; [|done|done]. split; [done|]. by intros [_ ?].
    + split_and!; [|done|done]. by split.
  - rewrite read_status_line_other by done. cbn.
    edestruct read_header_field_returns as (response' & -> & Hs & Ht & _).
    split_and!; [|done|by eauto]. split; [done|]. by intros [? _].
Qed.

End Decoder.

Section HeaderFields.
Import Http.
Local Open Scope Z_scope.

Lemma find_after_key (key post : string) :
  ¬ contains ": " key → find ": " (key +:+ ": " +:+ post) = Some (String.length key).
Proof.
  induction key as [|c key IH]; intros Hno; [done|].
  rewrite str_app_cons.
  change (find ": " (String c (key +:+ ": " +:+ post)))
    with (if starts_with ": " (String c (key +:+ ": " +:+ post)) then Some 0%nat
          else S <$> find ": " (key +:+ ": " +:+ post)).
  destruct (starts_with ": " (String c (key +:+ ": " +:+ post))) eqn:Hs.
  - exfalso. apply starts_with_spec in Hs as [t Ht].
    destruct key as [|c' key]; cbn in Ht; [by simplify_eq|].
    injection Ht as -> -> _. apply Hno. by exists EmptyString, key.
  - rewrite IH; [done|]. intros (pre & post' & ->). apply Hno.
    by exists (String c pre), post'.
Qed.

Lemma substr_piece (a b c : string) (n : Z) :
  Z.min n (CxxString.size b + CxxString.size c) = CxxString.size b →
  substr (a +:+ b +:+ c) (CxxString.size a) n = Some b.
Proof.
  intros Hmin. unfold substr, CxxString.size in *.
  rewrite decide_False by (rewrite !str_length_app; lia).
  f_equal. rewrite Nat2Z.id, drop_chars_app.
  replace (Z.to_nat _) with (String.length b)
    by (rewrite !str_length_app; lia).
  apply take_chars_app.
Qed.

Lemma substr_prefix (b c : string) (n : Z) :
  Z.min n (CxxString.size b + CxxString.size c) = CxxString.size b →
  substr (b +:+ c) 0 n = Some b.
Proof. apply (substr_piece EmptyString b c n). Qed.

Lemma strip_line_end (value : string) :
  let value0 := value +:+ CRLF in
  let value1 :=
    if negb (empty value0) && bool_decide (back value0 = Some LF)
    then pop_back value0 else value0 in
  (if negb (empty value1) && bool_decide (back value1 = Some CR)
   then pop_back value1 else value1) = value.
Proof.
  cbn zeta.
  replace (value +:+ CRLF)
    with ((value +:+ String CR EmptyString) +:+ String LF EmptyString)
    by (by rewrite str_app_assoc).
  rewrite empty_push, back_push, bool_decide_eq_true_2 by done. cbn [negb andb].
  rewrite pop_back_push, empty_push, back_push, bool_decide_eq_true_2 by done.
  cbn [negb andb]. apply pop_back_push.
Qed.

(** X2: a header line [key: value] followed by CRLF, whose key holds no
    [": "], is not [Set-Cookie] and does not make the line start with
    ["HTTP/"], stores the value without the line end under the key and
    changes nothing else. *)
Theorem header_callback_stores_field (key value : string)
    (response : quoneq_http_response) :
  let line := key +:+ ": " +:+ value +:+ CRLF in
  CxxString.size line < size_t_modulus →
  ¬ contains ": " key →
  ¬ status_line line →
  key ≠ "Set-Cookie" →
  header_callback line response = Returns (set_header key value response).
Proof.
  intros line Hsize Hkey Hline Hcookie. unfold header_callback.
  assert (Z.of_nat (String.length (value +:+ CRLF)) < size_t_modulus) as Hvalue.
  { unfold line, CxxString.size in Hsize.
    rewrite (str_length_app key), (str_length_app ": ") in Hsize. lia. }
  rewrite read_status_line_other by done. cbn [mbind outcome_bind].
  unfold read_header_field. subst line. rewrite find_after_key by done.
  rewrite substr_prefix by (unfold CxxString.size; lia).
  cbn [or_throw mbind outcome_bind].
  replace (Z.of_nat (String.length key) + 2)
    with (CxxString.size (key +:+ ": "))
    by (unfold CxxString.size; rewrite str_length_app; cbn; lia).
  replace (key +:+ ": " +:+ value +:+ CRLF)
    with ((key +:+ ": ") +:+ (value +:+ CRLF) +:+ EmptyString)
    by (by rewrite str_app_nil_r, str_app_assoc).
  rewrite substr_piece.
  - cbn [or_throw mbind outcome_bind]. rewrite strip_line_end.
    unfold str_eqb. by rewrite bool_decide_eq_false_2.
  - unfold CxxString.size, npos in *. cbn [String.length]. lia.
Qed.

End HeaderFields.

(** Computes the length of a string built with [+:+]. *)
Ltac str_len :=
  repeat first [rewrite str_length_app
               |progress cbn [String.length String.append]].

Section Cookies.
Import Http.
Local Open Scope Z_scope.

Lemma not_mentions_app (c : ascii) (a b : string) :
  ¬ mentions c a → ¬ mentions c b → ¬ mentions c (a +:+ b).
Proof. rewrite mentions_app. tauto. Qed.

(** The two searches of the cookie block. *)
Lemma cookie_positions (name value tail : string) :
  ¬ mentions "="%char name → ¬ mentions ";"%char name → ¬ mentions ";"%char value →
  tail = EmptyString ∨ (∃ t, tail = String ";" t) →
  find_char "=" (name +:+ "=" +:+ value +:+ tail) = Some (String.length name) ∧
  find_char ";" (name +:+ "=" +:+ value +:+ tail)
  = match tail with
    | EmptyString => None
    | String _ _ => Some (String.length name + 1 + String.length value)%nat
    end.
Proof.
  intros Heq Hsemi Hvalue Htail. split.
  - by apply (find_char_first "=" name (value +:+ tail)).
  - assert (¬ mentions ";"%char (name +:+ "=" +:+ value)) as Hbody.
    { apply not_mentions_app; [done|]. apply (not_mentions_app _ "=" value); [|done].
      apply find_char_None. reflexivity. }
    destruct Htail as [->|[t ->]].
    + rewrite str_app_nil_r. by apply find_char_None.
    + replace (name +:+ "=" +:+ value +:+ String ";" t)
        with ((name +:+ "=" +:+ value) +:+ String ";" t)
        by (by rewrite !str_app_assoc).
      rewrite find_char_first by done. f_equal. str_len. lia.
Qed.

(** X3: a [Set-Cookie] line [name=value], alone or followed by [;] and
    attributes, stores the value up to the [;] under the name in the
    cookies and changes nothing else. *)
Theorem header_callback_stores_cookie (name value tail : string)
    (response : quoneq_http_response) :
  let line := "Set-Cookie: " +:+ name +:+ "=" +:+ value +:+ tail +:+ CRLF in
  CxxString.size line < size_t_modulus →
  ¬ mentions "="%char name → ¬ mentions ";"%char name → ¬ mentions ";"%char value →
  tail = EmptyString ∨ (∃ t, tail = String ";" t) →
  header_callback line response = Returns (set_cookie name value response).
Proof.
  intros line Hsize Heq Hsemi Hvalue Htail. unfold header_callback.
  set (body := name +:+ "=" +:+ value +:+ tail).
  assert (line = "Set-Cookie" +:+ ": " +:+ body +:+ CRLF) as Hline.
  { unfold line, body. by rewrite !str_app_assoc. }
  assert (Z.of_nat (String.length name) + 1 + Z.of_nat (String.length value)
          + Z.of_nat (String.length tail) + 2 < size_t_modulus) as Hlen.
  { unfold line, CxxString.size in Hsize. rewrite (str_length_app "Set-Cookie: "),
      (str_length_app name), (str_length_app "="), (str_length_app value),
      (str_length_app tail) in Hsize. cbn [String.length CRLF] in Hsize. lia. }
  rewrite read_status_line_other by (by intros [rest Hrest]).
  cbn [mbind outcome_bind]. unfold read_header_field.
  rewrite Hline, find_after_key by (apply find_None; reflexivity).
  rewrite substr_prefix by (unfold CxxString.size; cbn; lia).
  cbn [or_throw mbind outcome_bind].
  change (Z.of_nat (String.length "Set-Cookie") + 2)
    with (CxxString.size ("Set-Cookie" +:+ ": ")).
  replace ("Set-Cookie" +:+ ": " +:+ body +:+ CRLF)
    with (("Set-Cookie" +:+ ": ") +:+ (body +:+ CRLF) +:+ EmptyString)
    by (by rewrite str_app_nil_r).
  rewrite substr_piece.
  2:{ unfold CxxString.size, npos, body. rewrite !str_length_app.
      cbn [String.length CRLF]. lia. }
  cbn [or_throw mbind outcome_bind]. rewrite strip_line_end.
  unfold str_eqb. rewrite bool_decide_eq_true_2 by done. subst body.
  destruct (cookie_positions name value tail Heq Hsemi Hvalue Htail) as [-> ->].
  cbn [to_size_t].
  rewrite substr_prefix.
  2:{ unfold CxxString.size. lia. }
  cbn [or_throw mbind outcome_bind].
  rewrite (wrap_small (_ + 1)) by lia.
  replace (name +:+ "=" +:+ value +:+ tail)
    with ((name +:+ "=") +:+ value +:+ tail) by (by rewrite str_app_assoc).
  replace (Z.of_nat (String.length name) + 1) with (CxxString.size (name +:+ "="))
    by (unfold CxxString.size; rewrite str_length_app; cbn; lia).
  rewrite substr_piece; [done|].
  unfold CxxString.size. destruct Htail as [->|[t ->]]; cbn [to_size_t String.length].
  - rewrite wrap_small by (unfold npos; str_len; lia).
    unfold npos. str_len. lia.
  - rewrite wrap_small by (str_len; cbn [String.length] in *; lia).
    str_len. lia.
Qed.

End Cookies.

Section Redirects.
Import Http.
Local Open Scope Z_scope.

Lemma fold_outcome_app {A S : Type} (body : A → S → outcome S) (xs ys : list A) (st : S) :
  fold_outcome body (xs ++ ys) st
  = st' ← fold_outcome body xs st; fold_outcome body ys st'.
Proof.
  revert st. induction xs as [|x xs IH]; intros st; [done|]. cbn.
  destruct (body x st); cbn; [apply IH|done..].
Qed.

Lemma header_callback_other (line : string) (response : quoneq_http_response) :
  ¬ status_line line →
  ∃ response',
    header_callback line response = Returns response' ∧
    status response' = status response ∧
    statusType response' = statusType response.
Proof.
  intros Hno. unfold header_callback. rewrite read_status_line_other by done. cbn.
  edestruct read_header_field_returns as (response' & -> & Hs & Ht & _). eauto.
Qed.

Lemma fields_keep_status (lines : list string) (response : quoneq_http_response) :
  Forall (λ line, ¬ status_line line) lines →
  ∃ response',
    fold_outcome header_callback lines response = Returns response' ∧
    status response' = status response ∧
    statusType response' = statusType response.
Proof.
  intros Hlines. revert response.
  induction Hlines as [|line lines Hline _ IH]; intros response; [by eexists|].
  cbn. destruct (header_callback_other line response Hline) as (r1 & -> & Hs & Ht).
  cbn. destruct (IH r1) as (r2 & -> & Hs' & Ht'). exists r2.
  split_and!; [done|congruence..].
Qed.

(** X4: when the engine delivers several status lines, as along a
    redirect chain, the decoded status and status text are those of the
    last one, whatever came before it and whatever header fields follow
    it; the stored status is a 16-bit value. *)
Theorem last_status_line_wins (before after : list string) (rest : string)
    (response decoded : quoneq_http_response) (code : Z) :
  let line := "HTTP/" +:+ rest in
  stoi (extracted (tokens line) 1) = Some code →
  Forall (λ line, ¬ status_line line) after →
  fold_outcome header_callback before response = Returns decoded →
  ∃ response',
    fold_outcome header_callback (before ++ line :: after) response = Returns response' ∧
    status response' = to_uint16 code ∧
    statusType response' = extracted (tokens line) 2 ∧
    0 ≤ status response' < 65536.
Proof.
  intros line Hcode Hafter Hbefore.
  assert (∃ r1, header_callback line decoded = Returns r1 ∧
                status r1 = to_uint16 code ∧
                statusType r1 = extracted (tokens line) 2) as (r1 & Hline & Hs1 & Ht1).
  { unfold header_callback. rewrite read_status_line_status by (by exists rest).
    rewrite Hcode. cbn [mbind outcome_bind].
    edestruct read_header_field_returns as (r1 & -> & Hs1 & Ht1 & _). eauto. }
  rewrite fold_outcome_app, Hbefore.
  change (fold_outcome header_callback (line :: after))
    with (λ st, st' ← header_callback line st; fold_outcome header_callback after st').
  cbn [mbind outcome_bind]. rewrite Hline. cbn [mbind outcome_bind].
  destruct (fields_keep_status after r1 Hafter) as (r2 & -> & Hs2 & Ht2).
  exists r2. rewrite Hs2, Ht2, Hs1, Ht1.
  split_and!; [done..|apply Z.mod_pos_bound; done|apply Z.mod_pos_bound; done].
Qed.

Lemma header_callback_throws_iff_witness :
  ∃ response',
    header_callback "Server: quoneq" fresh_response = Returns response' ∧
    status response' = 0 ∧ statusType response' = EmptyString.
Proof.
  destruct (proj2 (proj2 (header_callback_throws_iff "Server: quoneq" fresh_response)))
    as (response' & Hret & Hs & Ht).
  - intros [rest Hrest]. discriminate Hrest.
  - exists response'. split_and!; [exact Hret|exact Hs|exact Ht].
Defined.

Lemma header_callback_stores_field_witness :
  header_callback ("Content-Type: text/plain" +:+ CRLF) fresh_response
  = Returns (set_header "Content-Type" "text/plain" fresh_response).
Proof.
  apply (header_callback_stores_field "Content-Type" "text/plain" fresh_response).
  - reflexivity.
  - apply find_None. reflexivity.
  - intros [rest Hrest]. discriminate Hrest.
  - discriminate.
Defined.

Lemma header_callback_stores_cookie_witness :
  header_callback ("Set-Cookie: a=1; Path=/" +:+ CRLF) fresh_response
  = Returns (set_cookie "a" "1" fresh_response) ∧
  header_callback ("Set-Cookie: sid=xyz" +:+ CRLF) fresh_response
  = Returns (set_cookie "sid" "xyz" fresh_response).
Proof.
  split.
  - apply (header_callback_stores_cookie "a" "1" "; Path=/" fresh_response).
    + reflexivity.
    + apply find_char_None. reflexivity.
    + apply find_char_None. reflexivity.
    + apply find_char_None. reflexivity.
    + right. by eexists.
  - apply (header_callback_stores_cookie "sid" "xyz" EmptyString fresh_response).
    + reflexivity.
    + apply find_char_None. reflexivity.
    + apply find_char_None. reflexivity.
    + apply find_char_None. reflexivity.
    + by left.
Defined.

Lemma last_status_line_wins_witness :
  ∃ response',
    fold_outcome header_callback
      (["HTTP/1.1 301 Moved"; "Location: /next"]
       ++ "HTTP/1.1 200 OK" :: ["Content-Type: text/plain"]) fresh_response
    = Returns response' ∧
    status response' = 200 ∧ statusType response' = "OK".
Proof.
  destruct (last_status_line_wins ["HTTP/1.1 301 Moved"; "Location: /next"]
              ["Content-Type: text/plain"] "1.1 200 OK" fresh_response
              (set_header "Location" "/next"
                 (set_status 301 (set_statusType "Moved" fresh_response))) 200)
    as (response' & Hret & Hs & Ht & _).
  - reflexivity.
  - repeat constructor. intros [rest Hrest]. discriminate Hrest.
  - reflexivity.
  - exists response'. split_and!; [exact Hret|exact Hs|exact Ht].
Defined.

End Redirects.

(** * Request headers and cookies *)

Section KeyOrder.
Import Http Curl.

Lemma in_key_order_permutation (m : gmap string string) :
  in_key_order m ≡ₚ map_to_list m.
Proof. apply merge_sort_Permutation. Qed.

Lemma in_key_order_sorted (m : gmap string string) :
  StronglySorted (λ x y : string * string, String.le x.1 y.1) (in_key_order m).
Proof.
  apply StronglySorted_merge_sort.
  - intros x y z Hxy Hyz. by etrans.
  - intros x y. apply (total String.le).
Qed.

Lemma elem_of_in_key_order (m : gmap string string) (k v : string) :
  (k, v) ∈ in_key_order m ↔ m !! k = Some v.
Proof. by rewrite in_key_order_permutation, elem_of_map_to_list. Qed.

(** X6: [prepare_headers] yields one line [key: value] per header of
    the map, no other line, in ascending order of the keys, each key
    once. *)
Theorem prepare_headers_one_line_per_header (headers : gmap string string) :
  length (prepare_headers headers) = base.size headers ∧
  (∀ line,
     line ∈ prepare_headers headers ↔
     ∃ k v, headers !! k = Some v ∧ line = c_str (k +:+ ": " +:+ v)) ∧
  (∀ i j k1 v1 k2 v2,
     i < j →
     in_key_order headers !! i = Some (k1, v1) →
     in_key_order headers !! j = Some (k2, v2) →
     String.le k1 k2 ∧ k1 ≠ k2 ∧
     prepare_headers headers !! i = Some (c_str (k1 +:+ ": " +:+ v1)) ∧
     prepare_headers headers !! j = Some (c_str (k2 +:+ ": " +:+ v2))).
Proof.
  split_and!.
  - unfold prepare_headers. rewrite length_fmap, in_key_order_permutation.
    apply length_map_to_list.
  - intros line. unfold prepare_headers. rewrite list_elem_of_fmap. split.
    + intros ([k v] & -> & Hin). apply elem_of_in_key_order in Hin. by exists k, v.
    + intros (k & v & Hkv & ->). exists (k, v). split; [done|].
      by apply elem_of_in_key_order.
  - intros i j k1 v1 k2 v2 Hij Hi Hj.
    pose proof (in_key_order_sorted headers) as Hsorted.
    assert (NoDup (in_key_order headers).*1) as Hnodup.
    { rewrite in_key_order_permutation. apply NoDup_fst_map_to_list. }
    split_and!.
    + apply (StronglySorted_app_1_elem_of
               (λ x y : string * string, String.le x.1 y.1)
               (take j (in_key_order headers))
               (drop j (in_key_order headers)) (k1, v1) (k2, v2)).
      * by rewrite take_drop.
      * apply list_elem_of_lookup. exists i. by rewrite lookup_take_lt.
      * apply list_elem_of_lookup. exists 0. by rewrite lookup_drop, Nat.add_0_r.
    + intros <-. assert (i = j); [|lia].
      apply (NoDup_lookup _ i j k1 Hnodup); rewrite list_lookup_fmap.
      * by rewrite Hi.
      * by rewrite Hj.
    + unfold prepare_headers. by rewrite list_lookup_fmap, Hi.
    + unfold prepare_headers. by rewrite list_lookup_fmap, Hj.
Qed.

Lemma concat_cons_join (sep a b : string) (rest : list string) :
  String.concat sep ((a +:+ sep +:+ b) :: rest) = a +:+ sep +:+ String.concat sep (b :: rest).
Proof. cbn [String.concat]. destruct rest; [done|]. by rewrite !str_app_assoc. Qed.

Lemma cookie_fold (acc : string) (entries : list (string * string)) :
  acc ≠ EmptyString →
  foldl (λ cookie_str kv,
           (if negb (empty cookie_str) then cookie_str +:+ "; " else cookie_str)
             +:+ (kv.1 +:+ "=" +:+ kv.2))
        acc entries
  = String.concat "; " (acc :: ((λ kv, kv.1 +:+ "=" +:+ kv.2) <$> entries)).
Proof.
  revert acc. induction entries as [|kv entries IH]; intros acc Hacc; [done|].
  cbn [foldl fmap list_fmap]. destruct acc as [|c acc]; [done|]. cbn [empty negb].
  rewrite IH by done. rewrite str_app_assoc. apply concat_cons_join.
Qed.

(** X5: [prepare_cookies] is the pairs [key=value] of the map in
    ascending key order with ["; "] between them, nothing before the
    first and nothing after the last; it is empty exactly for the empty
    map. *)
Theorem prepare_cookies_joined (cookies : gmap string string) :
  prepare_cookies cookies
  = String.concat "; " ((λ kv, kv.1 +:+ "=" +:+ kv.2) <$> in_key_order cookies) ∧
  (prepare_cookies cookies = EmptyString ↔ cookies = ∅).
Proof.
  assert (prepare_cookies cookies
          = String.concat "; " ((λ kv, kv.1 +:+ "=" +:+ kv.2) <$> in_key_order cookies))
    as Hjoin.
  { unfold prepare_cookies. destruct (in_key_order cookies) as [|kv entries]; [done|].
    cbn [foldl fmap list_fmap empty negb]. rewrite cookie_fold; [done|].
    by destruct kv.1. }
  split; [done|]. rewrite Hjoin. split.
  - intros Hempty. apply map_to_list_empty_iff.
    apply Permutation_nil_r. rewrite <- in_key_order_permutation.
    destruct (in_key_order cookies) as [|[k v] entries]; [done|]. exfalso.
    cbn [fmap list_fmap String.concat fst snd] in Hempty.
    match type of Hempty with
    | context [match ?l with _ => _ end] => destruct l
    end; by destruct k.
  - intros ->. done.
Qed.

End KeyOrder.

(** * File names, lines and words *)

Section FileNames.
Import Curl.
Local Open Scope Z_scope.

Lemma find_last_of_none (chars : list ascii) (s : string) :
  (∀ c, c ∈ chars → ¬ mentions c s) → find_last_of chars s = None.
Proof.
  induction s as [|a s IH]; intros Hno; [done|]. cbn.
  rewrite IH.
  - rewrite bool_decide_eq_false_2; [done|]. intros Ha.
    apply (Hno a Ha). by exists EmptyString, s.
  - intros c Hc (pre & post & ->). apply (Hno c Hc). by exists (String a pre), post.
Qed.

Lemma find_last_of_last (chars : list ascii) (dir name : string) (sep : ascii) :
  sep ∈ chars → (∀ c, c ∈ chars → ¬ mentions c name) →
  find_last_of chars (dir +:+ String sep name) = Some (String.length dir).
Proof.
  intros Hsep Hname. induction dir as [|a dir IH].
  - cbn. by rewrite find_last_of_none, bool_decide_eq_true_2.
  - rewrite str_app_cons. cbn [find_last_of String.length]. by rewrite IH.
Qed.

Lemma separator_free_chars (name : string) :
  separator_free name → ∀ c, c ∈ ["/"%char; "\"%char] → ¬ mentions c name.
Proof.
  intros [H1 H2] c Hc. apply list_elem_of_In in Hc.
  destruct Hc as [<-|[<-|[]]]; done.
Qed.

(** What both builders read off a bare name. *)
Lemma name_without_separator (name : string) :
  CxxString.size name < size_t_modulus →
  separator_free name →
  Http.basename name = Returns name ∧ Smtp.attachment_name name = Returns name.
Proof.
  intros Hsize Hname.
  pose proof (separator_free_chars name Hname) as Hchars.
  unfold Http.basename, Smtp.attachment_name.
  rewrite find_last_of_none by done. cbn [to_size_t].
  change (wrap (npos + 1)) with 0.
  rewrite <- (str_app_nil_r name) at 1. rewrite substr_prefix; [done|].
  unfold CxxString.size, npos in *. cbn [String.length]. lia.
Qed.

(** What both builders read off a path that ends in a separator and a
    name. *)
Lemma name_after_last_separator (dir name : string) (sep : ascii) :
  CxxString.size (dir +:+ String sep name) < size_t_modulus →
  sep = "/"%char ∨ sep = "\"%char →
  separator_free name →
  Http.basename (dir +:+ String sep name) = Returns name ∧
  Smtp.attachment_name (dir +:+ String sep name) = Returns name.
Proof.
  intros Hsize Hsep Hname.
  pose proof (separator_free_chars name Hname) as Hchars.
  assert (sep ∈ ["/"%char; "\"%char]) as Hin by (destruct Hsep as [->| ->]; set_solver).
  assert (substr (dir +:+ String sep name) (Z.of_nat (String.length dir) + 1) npos
          = Some name) as Hsub.
  { replace (dir +:+ String sep name)
      with ((dir +:+ String sep EmptyString) +:+ name +:+ EmptyString)
      by (by rewrite str_app_nil_r, str_app_assoc).
    replace (Z.of_nat (String.length dir) + 1)
      with (CxxString.size (dir +:+ String sep EmptyString))
      by (unfold CxxString.size; rewrite str_length_app; cbn; lia).
    apply substr_piece. unfold CxxString.size, npos in *.
    rewrite str_length_app in Hsize. cbn [String.length] in *. lia. }
  unfold Http.basename, Smtp.attachment_name.
  rewrite find_last_of_last by done. cbn [to_size_t].
  rewrite wrap_small.
  2:{ unfold CxxString.size in Hsize. rewrite str_length_app in Hsize.
      cbn [String.length] in Hsize. lia. }
  by rewrite Hsub.
Qed.

(** X7: the HTTP form builder and the SMTP attachment builder read
    the same file name off a path: what follows its last [/] or [\],
    and the whole path when it holds neither. *)
Theorem file_name_of_path (dir name : string) (sep : ascii) :
  CxxString.size (dir +:+ String sep name) < size_t_modulus →
  sep = "/"%char ∨ sep = "\"%char →
  separator_free name →
  Http.basename (dir +:+ String sep name) = Returns name ∧
  Smtp.attachment_name (dir +:+ String sep name) = Returns name ∧
  Http.basename name = Returns name ∧
  Smtp.attachment_name name = Returns name.
Proof.
  intros Hsize Hsep Hname.
  assert (CxxString.size name < size_t_modulus) as Hname_size.
  { unfold CxxString.size in *. rewrite str_length_app in Hsize. cbn in Hsize. lia. }
  destruct (name_after_last_separator dir name sep Hsize Hsep Hname) as [Hhttp Hsmtp].
  destruct (name_without_separator name Hname_size Hname) as [Hhttp' Hsmtp'].
  by split_and!.
Qed.

Lemma file_name_of_path_witness :
  Http.basename "reports/2024/summary.pdf" = Returns "summary.pdf" ∧
  Smtp.attachment_name "C:\mail\note.txt" = Returns "note.txt".
Proof.
  split.
  - apply (file_name_of_path "reports/2024" "summary.pdf" "/").
    + reflexivity.
    + by left.
    + split; apply find_char_None; reflexivity.
  - apply (file_name_of_path "C:\mail" "note.txt" "\").
    + reflexivity.
    + by right.
    + split; apply find_char_None; reflexivity.
Defined.

End FileNames.

Section Lines.
Import Curl.

Lemma getline_items_item (d : ascii) (cur item rest : string) :
  ¬ mentions d item →
  getline_items d cur (item +:+ String d rest)
  = (cur +:+ item) :: getline_items d EmptyString rest.
Proof.
  revert cur. induction item as [|c item IH]; intros cur Hno.
  - cbn. unfold char_eqb. rewrite bool_decide_eq_true_2 by done.
    by rewrite str_app_nil_r.
  - rewrite str_app_cons. cbn [getline_items].
    rewrite (proj2 (char_eqb_false c d)).
    + rewrite IH.
      * unfold push_back. by rewrite str_app_assoc.
      * intros (pre & post & ->). apply Hno. by exists (String c pre), post.
    + intros ->. apply Hno. by exists EmptyString, item.
Qed.

Lemma getlines_delimited (d : ascii) (items : list string) :
  Forall (λ item, ¬ mentions d item) items →
  getlines d (delimited d items) = items.
Proof.
  unfold getlines. induction 1 as [|item items Hitem _ IH]; [done|].
  cbn [delimited foldr]. fold (delimited d items).
  by rewrite getline_items_item, IH.
Qed.

(** X8: [split_str] returns pieces that are never empty and never hold
    the delimiter; on text made of non-empty delimiter-free items, each
    followed by the delimiter, it returns exactly those items, and the
    command lines of a Telnet script are read back the same way. *)
Theorem split_str_round_trip (d : ascii) (text : string) (items : list string) :
  Forall (λ item, item ≠ EmptyString ∧ ¬ mentions d item) (Ftp.split_str text d) ∧
  (Forall (λ item, item ≠ EmptyString ∧ ¬ mentions d item) items →
   Ftp.split_str (delimited d items) d = items) ∧
  (Forall (λ item, item ≠ EmptyString ∧ ¬ mentions LF item) items →
   Telnet.script_commands (delimited LF items) = items).
Proof.
  assert (Hkeep : ∀ d' l,
            Forall (λ item : string, item ≠ EmptyString ∧ ¬ mentions d' item) l →
            filter (λ item, empty item = false) l = l).
  { intros d' l Hl. induction Hl as [|item l [Hne _] _ IH]; [done|].
    rewrite filter_cons_True by (by destruct item). by rewrite IH. }
  assert (Hround : ∀ d' l,
            Forall (λ item : string, item ≠ EmptyString ∧ ¬ mentions d' item) l →
            filter (λ item, empty item = false) (getlines d' (delimited d' l)) = l).
  { intros d' l Hl. rewrite getlines_delimited.
    - by apply (Hkeep d').
    - eapply Forall_impl; [exact Hl|]. by intros item [_ ?]. }
  split_and!.
  - unfold Ftp.split_str.
    destruct (getlines_lines_of d text) as [Hall _].
    apply Forall_forall. intros item [Hne Hin]%list_elem_of_filter. split.
    + by destruct item.
    + by apply (proj1 (Forall_forall _ _) Hall).
  - apply Hround.
  - apply Hround.
Qed.

Lemma split_str_round_trip_witness :
  Ftp.split_str (delimited LF ["bin"; "etc"; "home"]) LF = ["bin"; "etc"; "home"].
Proof.
  apply (proj1 (proj2 (split_str_round_trip LF EmptyString ["bin"; "etc"; "home"]))).
  repeat constructor; try done; apply find_char_None; reflexivity.
Defined.

End Lines.

Section Words.

Lemma extract_tokens_run (cur w : string) :
  (∀ c, mentions c w → isspace c = false) →
  (∀ sp rest, isspace sp = true →
     extract_tokens cur (w +:+ String sp rest)
     = (if empty (cur +:+ w) then [] else [cur +:+ w]) ++ extract_tokens EmptyString rest) ∧
  extract_tokens cur w = (if empty (cur +:+ w) then [] else [cur +:+ w]).
Proof.
  revert cur. induction w as [|c w IH]; intros cur Hw.
  - rewrite str_app_nil_r. split; [|done]. intros sp rest Hsp. cbn. by rewrite Hsp.
  - assert (isspace c = false) as Hc by (apply Hw; by exists EmptyString, w).
    destruct (IH (push_back cur c)) as [IH1 IH2].
    { intros c' (pre & post & ->). apply Hw. by exists (String c pre), post. }
    unfold push_back in IH1, IH2. rewrite str_app_assoc in IH1, IH2.
    split.
    + intros sp rest Hsp. rewrite str_app_cons. cbn [extract_tokens].
      rewrite Hc. by apply IH1.
    + cbn [extract_tokens]. by rewrite Hc.
Qed.

Lemma tokens_of_words (words : list string) :
  Forall word words → tokens (String.concat " " words) = words.
Proof.
  unfold tokens. induction 1 as [|w words [Hne Hw] Hwords IH]; [done|].
  destruct (extract_tokens_run EmptyString w Hw) as [Hrun Hend].
  cbn [String.concat]. destruct words as [|w' words].
  - rewrite Hend. by destruct w.
  - change (w +:+ " " +:+ String.concat " " (w' :: words))
      with (w +:+ String " " (String.concat " " (w' :: words))).
    rewrite Hrun by done. rewrite IH. by destruct w.
Qed.

(** X9: a listing line in the usual layout, eight fields and then the
    name, the words separated by single spaces, gives back the name
    with its spaces, and the directory flag is read off the first
    field. *)
Theorem parse_ftp_list_line_standard (field : string) (fields names : list string) :
  length (field :: fields) = 8 →
  Forall word (field :: fields) → Forall word names → names ≠ [] →
  Ftp.parse_ftp_list_line (String.concat " " ((field :: fields) ++ names))
  = (bool_decide (String.get 0 field = Some "d"%char), String.concat " " names).
Proof.
  intros Hlen Hfields Hnames Hne.
  pose proof (tokens_of_words ((field :: fields) ++ names)) as Htok.
  rewrite Forall_app in Htok. specialize (Htok (conj Hfields Hnames)).
  assert (∃ c f, field = String c f) as (c & f & ->).
  { apply Forall_cons in Hfields as [[Hf _] _]. destruct field; [done|]. eauto. }
  remember (String.concat " " ((String c f :: fields) ++ names)) as line eqn:Hline.
  assert (∃ rest, line = String c rest) as [rest Hshape].
  { rewrite Hline. cbn [app String.concat].
    destruct (fields ++ names); [by eexists|]. by eexists. }
  unfold Ftp.parse_ftp_list_line. rewrite Hshape. rewrite <- Hshape.
  rewrite Htok. f_equal.
  - cbn. unfold char_eqb. apply bool_decide_ext. split; congruence.
  - destruct names as [|n names]; [done|].
    rewrite decide_True by (rewrite length_app; cbn [length] in *; lia).
    rewrite join_fold.
    rewrite lookup_app_r by lia. rewrite Hlen. cbn [lookup list_lookup default].
    replace (drop 9 ((String c f :: fields) ++ n :: names)) with names; [done|].
    change (n :: names) with ([n] ++ names). rewrite (assoc_L (++)).
    rewrite drop_app_length'; [done|]. rewrite length_app. cbn in *. lia.
Qed.

Lemma word_by_test (s : string) :
  empty s = false → all_chars (λ c, negb (isspace c)) s = true → word s.
Proof.
  intros Hne Hall. split; [by destruct s|].
  clear Hne. induction s as [|a s IH]; intros c (pre & post & Heq).
  - by destruct pre.
  - cbn in Hall. apply andb_true_iff in Hall as [Ha Hs].
    destruct pre as [|b pre]; cbn in Heq; simplify_eq.
    + by apply negb_true_iff.
    + apply IH; [done|]. by exists pre, post.
Qed.

Lemma parse_ftp_list_line_standard_witness :
  Ftp.parse_ftp_list_line
    "drwxr-xr-x 2 owner group 4096 Jan 01 00:00 my holiday photos"
  = (true, "my holiday photos").
Proof.
  apply (parse_ftp_list_line_standard "drwxr-xr-x"
           ["2"; "owner"; "group"; "4096"; "Jan"; "01"; "00:00"]
           ["my"; "holiday"; "photos"]).
  - reflexivity.
  - repeat constructor; by apply word_by_test.
  - repeat constructor; by apply word_by_test.
  - done.
Defined.

End Words.

(** * More on the FTP client *)

Section BelowTheStart.
Import Curl.
Variable E : engine.
Variables username password : string.

Lemma has_prefix_joined (url name : string) : has_prefix url (joined url name).
Proof.
  unfold joined. destruct (bool_decide _); [by exists name|].
  by exists ("/" +:+ name).
Qed.

Lemma has_prefix_trans (a b c : string) :
  has_prefix a b → has_prefix b c → has_prefix a c.
Proof. intros [x ->] [y ->]. exists (x +:+ y). by rewrite str_app_assoc. Qed.

Lemma walk_below (url : string) (lines paths visited : list string) :
  walk E username password url lines paths visited →
  Forall (has_prefix url) paths ∧ visited `sublist_of` paths.
Proof.
  induction 1 as [url
    |url line rest paths visited _ _ IH
    |url line rest paths visited _ _ _ _ [IHp IHv]
    |url line rest inner inner_visited paths visited _ _ _ _ [IH1p IH1v] _ [IH2p IH2v]].
  - split; [constructor|done].
  - done.
  - split; [constructor; [apply has_prefix_joined|done]|]. by apply sublist_cons.
  - split.
    + constructor; [apply has_prefix_joined|]. apply Forall_app. split; [|done].
      eapply Forall_impl; [exact IH1p|]. intros path.
      apply has_prefix_trans, has_prefix_joined.
    + apply sublist_skip. by apply sublist_app.
Qed.

End BelowTheStart.

Section RecursiveResult.
Import Curl.

(** X10: whatever the server answers, every path [list_recursive]
    returns starts with the URL it was given; the directories it lists
    besides that URL are among the returned paths, in the same order;
    and its response never carries a reply code or an error text, so a
    failed listing looks like an empty directory. *)
Theorem list_recursive_below_start (E : engine) (fuel : nat)
    (ftp_url username password : string) (log log' : list request)
    (response : Ftp.quoneq_ftp_response) :
  Ftp.list_recursive E fuel ftp_url username password log = Returns (response, log') →
  Forall (has_prefix ftp_url) (Ftp.entries response) ∧
  Ftp.responseCode response = 0%Z ∧
  Ftp.errorMessage response = EmptyString ∧
  Ftp.content response = EmptyString ∧
  ∃ visited,
    visited `sublist_of` Ftp.entries response ∧
    log' = log ++ listing_exchanges E username password (ftp_url :: visited).
Proof.
  unfold Ftp.list_recursive. unfold mbind. unfold io_bind.
  destruct (Ftp.list_recursive_helper E fuel ftp_url username password [] log)
    as [[result log'']| |] eqn:Hrun; [|done..].
  intros [= <- <-].
  destruct (helper_sound _ _ _ _ _ _ _ _ _ Hrun) as (paths & visited & Hwalk & -> & ->).
  destruct (walk_below _ _ _ _ _ _ _ Hwalk) as [Hprefix Hsub].
  split_and!; [done..|]. by exists visited.
Qed.

Lemma list_recursive_below_start_witness :
  Forall (has_prefix "ftp://h/a") ["ftp://h/a/f"; "ftp://h/a/b"; "ftp://h/a/b/g"].
Proof.
  apply (list_recursive_below_start tree_engine 3 "ftp://h/a" EmptyString EmptyString []
           [listing_request "ftp://h/a" EmptyString EmptyString;
            listing_request "ftp://h/a/b" EmptyString EmptyString]
           (Ftp.set_list ["ftp://h/a/f"; "ftp://h/a/b"; "ftp://h/a/b/g"]
              Ftp.fresh_response)).
  reflexivity.
Defined.

(** X17: [extract_ftp_path] returns either the empty string or an end
    part of the URL that starts with [/]. *)
Theorem extract_ftp_path_shape (ftp_url : string) :
  Ftp.extract_ftp_path ftp_url = EmptyString ∨
  ∃ front rest,
    ftp_url = front +:+ Ftp.extract_ftp_path ftp_url ∧
    Ftp.extract_ftp_path ftp_url = String "/" rest ∧
    6 ≤ String.length front.
Proof.
  unfold Ftp.extract_ftp_path.
  destruct (find "ftp://" ftp_url) as [pos|] eqn:Hfind; [|by left].
  unfold find_char_from. destruct (decide _) as [|Hle]; [by left|].
  destruct (find_char "/" (drop_chars (pos + 6) ftp_url)) as [i|] eqn:Hchar;
    [|by left].
  right. cbn [fmap option_fmap option_map].
  apply find_char_Some in Hchar as (pre & post & Hdrop & Hlen & _).
  exists (take_chars (pos + 6 + i) ftp_url), post. split_and!.
  - by rewrite take_drop_chars.
  - rewrite <- drop_chars_drop_chars, Hdrop, <- Hlen. apply drop_chars_app.
  - rewrite length_take_chars.
    assert (String.length (drop_chars (pos + 6) ftp_url) = i + S (String.length post))
      as Hd by (rewrite Hdrop, str_length_app, Hlen; done).
    rewrite length_drop_chars in Hd. lia.
Qed.

End RecursiveResult.

Section Responses.
Import Curl.

(** Splits on the tests of an FTP operation. *)
Ltac ftp_cases :=
  io_steps;
  repeat match goal with
         | |- context [curl_easy_init ?E] => destruct (curl_easy_init E); cbn
         | |- context [ifstream_open ?E ?f] => destruct (ifstream_open E f); cbn
         | |- context [ofstream_open ?E ?f] => destruct (ofstream_open E f); cbn
         end;
  unfold Ftp.settle, Ftp.settle_content;
  repeat match goal with
         | |- context [bool_decide (res ?r = CURLE_OK)] =>
             destruct (bool_decide (res r = CURLE_OK)); cbn
         end;
  intros [= <- <-]; (by left) || (by right).

(** X14: a response of an FTP operation that performs one exchange
    either reports a failure, and then has reply code 0, no content and
    no entries, or has an empty error text; a reply code, content or
    entries never come with an error text. *)
Theorem ftp_response_shape (E : engine) (url file username password : string)
    (log log' : list request) (r : Ftp.quoneq_ftp_response) :
  Ftp.upload E url file username password log = Returns (r, log') ∨
  Ftp.download_file E url file username password log = Returns (r, log') ∨
  Ftp.read E url username password log = Returns (r, log') ∨
  Ftp.remove E url username password log = Returns (r, log') ∨
  Ftp.list_ E url username password log = Returns (r, log') ∨
  Ftp.move E url file username password log = Returns (r, log') ∨
  Ftp.create E url username password log = Returns (r, log') ∨
  Ftp.file_info E url username password log = Returns (r, log') ∨
  Ftp.folder_info E url username password log = Returns (r, log') →
  failure_shaped r ∨ success_shaped r.
Proof.
  unfold failure_shaped, success_shaped.
  intros [H|[H|[H|[H|[H|[H|[H|[H|H]]]]]]]]; revert H;
    [unfold Ftp.upload|unfold Ftp.download_file|unfold Ftp.read|unfold Ftp.remove
    |unfold Ftp.list_|unfold Ftp.move|unfold Ftp.create|unfold Ftp.file_info
    |unfold Ftp.folder_info];
    ftp_cases.
Qed.

Lemma info_run (E : engine) (ftp_url username password : string) (log : list request) :
  Ftp.file_info E ftp_url username password log
  = Ftp.folder_info E ftp_url username password log ∧
  Ftp.file_info E ftp_url username password log
  = if curl_easy_init E
    then Returns (Ftp.settle_content E
                    (curl_easy_perform E (info_request ftp_url username password))
                    Ftp.fresh_response,
                  log ++ [info_request ftp_url username password])
    else Returns (Ftp.set_errorMessage "Failed to initialize curl" Ftp.fresh_response,
                  log).
Proof.
  split; [done|]. unfold Ftp.file_info. io_steps. by destruct (curl_easy_init E).
Qed.

Lemma first_is_get (c : ascii) (s : string) :
  Ftp.first_is c s = true ↔ String.get 0 s = Some c.
Proof.
  destruct s as [|first rest]; cbn; [done|].
  rewrite char_eqb_true. split; [by intros ->|by intros [= ->]].
Qed.

(** X13: [is_file] and [is_folder] both return, after the same single
    exchange (none without a handle), and differ only in the first
    character they look for in what comes back: [is_file] answers true
    exactly when a handle was obtained, the exchange completed and the
    content starts with [-], [is_folder] exactly when it starts with
    [d]; so they never both answer true for the same URL. *)
Theorem is_file_is_folder_exclusive (E : engine) (ftp_url username password : string)
    (log : list request) :
  let r := curl_easy_perform E (info_request ftp_url username password) in
  let log' :=
    if curl_easy_init E then log ++ [info_request ftp_url username password]
    else log in
  ∃ file folder,
    Ftp.is_file E ftp_url username password log = Returns (file, log') ∧
    Ftp.is_folder E ftp_url username password log = Returns (folder, log') ∧
    (file = true ↔
     curl_easy_init E = true ∧ res r = CURLE_OK ∧
     String.get 0 (Ftp.received r) = Some "-"%char) ∧
    (folder = true ↔
     curl_easy_init E = true ∧ res r = CURLE_OK ∧
     String.get 0 (Ftp.received r) = Some "d"%char) ∧
    (file = true → folder = false).
Proof.
  intros r log'.
  assert (Hrun : ∀ c,
            ∃ answer,
              (info ← Ftp.file_info E ftp_url username password;
               mret (Ftp.first_is c (Ftp.content info))) log = Returns (answer, log') ∧
              (answer = true ↔
               curl_easy_init E = true ∧ res r = CURLE_OK ∧
               String.get 0 (Ftp.received r) = Some c)).
  { intros c. unfold mbind at 1. unfold io_bind.
    rewrite (proj2 (info_run E ftp_url username password log)). fold r.
    subst log'. destruct (curl_easy_init E).
    - eexists. split; [reflexivity|]. unfold Ftp.settle_content.
      destruct (bool_decide (res r = CURLE_OK)) eqn:Hres; cbn.
      + apply bool_decide_eq_true in Hres. rewrite first_is_get. tauto.
      + apply bool_decide_eq_false in Hres. split; [done|]. by intros (_ & ? & _).
    - eexists. split; [reflexivity|]. cbn. split; [done|]. by intros [? _]. }
  destruct (Hrun "-"%char) as (file & Hfile & Hfile_iff).
  destruct (Hrun "d"%char) as (folder & Hfolder & Hfolder_iff).
  exists file, folder. split_and!; [exact Hfile|exact Hfolder|done|done|].
  intros (_ & _ & Hdash)%Hfile_iff. destruct folder; [|done].
  destruct (proj1 Hfolder_iff eq_refl) as (_ & _ & Hd). congruence.
Qed.

End Responses.

(** * Reading an upload from a file *)

Section FileUpload.
Import FileStream.
Local Open Scope Z_scope.

Lemma counts_total_cons (size nmemb : Z) (requests : list (Z * Z)) :
  counts_total ((size, nmemb) :: requests)
  = to_streamsize (size * nmemb) + counts_total requests.
Proof. done. Qed.

Lemma counts_total_nonneg (requests : list (Z * Z)) :
  readable_counts requests → 0 ≤ counts_total requests.
Proof.
  induction 1 as [|[size nmemb] requests Hcount _ IH]; [done|].
  rewrite counts_total_cons. cbn in Hcount. lia.
Qed.

Lemma drop_chars_all (n : nat) (s : string) :
  (String.length s ≤ n)%nat → drop_chars n s = EmptyString.
Proof.
  revert s. induction n as [|n IH]; intros [|c s] Hlen; cbn in *; try done; [lia|].
  apply IH. lia.
Qed.

(** A whole run on a stream in order. *)
Lemma drain_spec (requests : list (Z * Z)) (stream : ifstream) :
  readable_counts requests → stream_ok stream →
  let wanted :=
    Z.min (counts_total requests)
          (Z.of_nat (String.length (data stream) - position stream)) in
  ∃ calls final,
    drain requests stream = Returns (calls, final) ∧
    stream_ok final ∧
    data final = data stream ∧
    position final = (position stream + Z.to_nat wanted)%nat ∧
    received_bytes calls
      = take_chars (Z.to_nat wanted) (drop_chars (position stream) (data stream)) ∧
    Forall (λ call : string * Z, call.2 = CxxString.size call.1) calls ∧
    (Z.of_nat (String.length (data stream) - position stream) < counts_total requests →
     good final = false) ∧
    (good stream = false → good final = false).
Proof.
  intros Hcounts. revert stream.
  induction Hcounts as [|[size nmemb] requests Hcount Hrest IH]; intros stream Hok.
  - cbn zeta. exists [], stream. change (counts_total []) with 0.
    rewrite Z.min_l by lia. cbn [Z.to_nat take_chars].
    split_and!; [done|done|done|lia| |constructor|lia|done].
    cbn. by destruct (drop_chars _ _).
  - cbn [fst snd] in Hcount. pose proof (counts_total_nonneg requests Hrest) as Htot.
    pose proof Hok as Hok0. destruct Hok as [Hpos Hflag]. rewrite counts_total_cons.
    set (count := to_streamsize (size * nmemb)) in *.
    cbn [drain]. unfold read_file_callback. fold count.
    destruct (good stream) eqn:Hgood; cbn [negb].
    + rewrite decide_False by lia.
      destruct (decide (Z.to_nat count ≤ String.length (data stream) - position stream)%nat)
        as [Hfits|Hshort]; cbn [mbind outcome_bind].
      * set (stream' := {| data := data stream;
                           position := position stream + Z.to_nat count;
                           good := true |}).
        destruct (IH stream') as (calls & final & -> & Hok' & Hdata & Hposf & Hrecv & Hret & Hbad & Hstay).
        { split; cbn; [lia|done]. }
        cbn [data position stream'] in *. cbn [mbind outcome_bind].
        eexists _, final. split; [reflexivity|].
        split_and!; [done|done|lia| |constructor; [|done]|intros; apply Hbad; lia|done].
        -- cbn [received_bytes foldr fst]. fold (received_bytes calls). rewrite Hrecv.
           rewrite <- drop_chars_drop_chars, <- take_chars_add. f_equal. lia.
        -- cbn [fst snd]. unfold CxxString.size.
           rewrite length_take_chars, length_drop_chars. lia.
      * set (stream' := {| data := data stream;
                           position := String.length (data stream);
                           good := false |}).
        destruct (IH stream') as (calls & final & -> & Hok' & Hdata & Hposf & Hrecv & Hret & Hbad & Hstay).
        { split; cbn; [lia|done]. }
        cbn [data position stream'] in *. cbn [mbind outcome_bind].
        eexists _, final. split; [reflexivity|].
        rewrite Nat.sub_diag, Z.min_r in Hposf, Hrecv by lia.
        split_and!; [done|done|lia| |constructor; [|done]| |done].
        -- cbn [received_bytes foldr fst]. fold (received_bytes calls). rewrite Hrecv.
           cbn [Z.to_nat take_chars]. rewrite (drop_chars_all (String.length _)) by lia.
           rewrite str_app_nil_r, Z.min_r by lia. rewrite Nat2Z.id.
           symmetry. apply take_chars_all. rewrite length_drop_chars. lia.
        -- cbn [fst snd]. unfold CxxString.size. rewrite length_drop_chars. lia.
        -- intros _. by apply Hstay.
    + cbn [mbind outcome_bind].
      destruct (IH stream)
        as (calls & final & -> & Hok' & Hdata & Hposf & Hrecv & Hret & Hbad & Hstay);
        [exact Hok0|].
      cbn [mbind outcome_bind]. eexists _, final. split; [reflexivity|].
      specialize (Hflag eq_refl).
      rewrite Hflag, Nat.sub_diag in *. rewrite Z.min_r in * by lia.
      split_and!; [done|done|done| |constructor; [done|done]
                  |intros _; by apply Hstay|intros _; by apply Hstay].
      cbn [received_bytes foldr fst]. fold (received_bytes calls). by rewrite Hrecv.
Qed.

End FileUpload.

Section FileUploadResult.
Import FileStream.
Local Open Scope Z_scope.

(** X16: the read callback of an FTP upload hands the opened file to
    the engine in order and without loss: for buffers whose sizes are
    counts [istream::read] accepts, every call returns the number of
    bytes it stored, the pieces put together are the start of the file
    up to the total asked for, the whole file once that total reaches
    its length, and after a read that met the end of the file the
    stream is no longer good, so later calls return 0. *)
Theorem read_file_callback_delivers_file (bytes : string) (requests : list (Z * Z)) :
  readable_counts requests →
  ∃ calls final,
    drain requests (opened bytes) = Returns (calls, final) ∧
    Forall (λ call : string * Z, call.2 = CxxString.size call.1) calls ∧
    received_bytes calls
      = take_chars (Z.to_nat (Z.min (counts_total requests) (CxxString.size bytes))) bytes ∧
    (CxxString.size bytes ≤ counts_total requests → received_bytes calls = bytes) ∧
    (CxxString.size bytes < counts_total requests →
     good final = false ∧
     ∀ size nmemb, read_file_callback size nmemb final = Returns (EmptyString, 0, final)).
Proof.
  intros Hcounts.
  destruct (drain_spec requests (opened bytes) Hcounts)
    as (calls & final & Hrun & _ & _ & _ & Hrecv & Hret & Hbad & _).
  { split; cbn; [lia|done]. }
  cbn [opened data position] in Hrecv, Hbad. rewrite Nat.sub_0_r in Hrecv, Hbad.
  exists calls, final. split_and!; [done|done|done| |].
  - intros Hall. rewrite Hrecv. unfold CxxString.size in *.
    rewrite Z.min_r by lia. apply take_chars_all. cbn. lia.
  - intros Hmore. specialize (Hbad Hmore). split; [done|].
    intros size nmemb. unfold read_file_callback. by rewrite Hbad.
Qed.

Lemma read_file_callback_delivers_file_witness :
  ∃ calls final,
    drain [(1, 4); (1, 4); (1, 4)] (opened "0123456789") = Returns (calls, final) ∧
    received_bytes calls = "0123456789" ∧ good final = false.
Proof.
  destruct (read_file_callback_delivers_file "0123456789" [(1, 4); (1, 4); (1, 4)])
    as (calls & final & Hrun & _ & _ & Hall & Hend).
  - repeat constructor; done.
  - exists calls, final. split_and!; [exact Hrun|by apply Hall|by apply Hend].
Defined.

End FileUploadResult.

(** * Proxies, Telnet options and the CA certificate *)


Section Proxy.
Import Curl.

(** Finds an option in a request written with [::] and [++]. *)
Ltac find_option :=
  repeat first [apply list_elem_of_here
               |apply list_elem_of_further
               |apply elem_of_app; right].

(** Ends a run of an HTTP operation whose proxy is not empty. *)
Ltac proxied Hproxy :=
  intros [= <- <-]; right; eexists; split; [reflexivity|];
  rewrite Hproxy; cbn [negb setopt_if app]; find_option.

Lemma get_through_proxy (E : engine) (url : string) (headers cookies : gmap string string)
    (proxy username password : string) (log log' : list request)
    (v : option Http.quoneq_http_response) :
  empty proxy = false →
  Http.get E url headers cookies proxy username password log = Returns (v, log') →
  through (c_str proxy) log log'.
Proof.
  intros Hproxy. unfold Http.get, Http.exchange. io_steps.
  destruct (curl_easy_init E); cbn; [|intros [= <- <-]; by left].
  destruct (fold_outcome _ _ _); cbn; [|done..].
  destruct (negb (bool_decide _)); proxied Hproxy.
Qed.

Lemma post_through_proxy (E : engine) (url : string)
    (form headers cookies files : gmap string string)
    (proxy username password : string) (log log' : list request)
    (v : option Http.quoneq_http_response) :
  empty proxy = false →
  Http.post E url form headers cookies files proxy username password log
    = Returns (v, log') →
  through (c_str proxy) log log'.
Proof.
  intros Hproxy. unfold Http.post, Http.exchange. io_steps.
  destruct (curl_easy_init E); cbn; [|intros [= <- <-]; by left].
  destruct (build_mime_returns form files) as [parts ->]. cbn.
  destruct (fold_outcome _ _ _); cbn; [|done..].
  destruct (negb (bool_decide (res _ = _))); proxied Hproxy.
Qed.

Lemma ping_through_proxy (E : engine) (url proxy username password : string)
    (log log' : list request) (v : option Http.quoneq_http_response) :
  empty proxy = false →
  Http.ping E url proxy username password log = Returns (v, log') →
  through (c_str proxy) log log'.
Proof.
  intros Hproxy. unfold Http.ping, Http.exchange. io_steps.
  destruct (curl_easy_init E); cbn; [|intros [= <- <-]; by left].
  destruct (fold_outcome _ _ _); cbn; [|done..].
  destruct (bool_decide (res _ = _)); proxied Hproxy.
Qed.

Lemma download_through_proxy (E : engine) (url out : string)
    (form headers cookies files : gmap string string)
    (proxy username password : string) (log log' : list request)
    (v : option Http.quoneq_http_response) :
  empty proxy = false →
  Http.download_file E url out form headers cookies files proxy username password log
    = Returns (v, log') →
  through (c_str proxy) log log'.
Proof.
  intros Hproxy. unfold Http.download_file, Http.exchange. io_steps.
  destruct (curl_easy_init E); cbn; [|intros [= <- <-]; by left].
  destruct (ofstream_open E out); cbn; [|intros [= <- <-]; by left].
  destruct (negb (bool_decide (form = ∅)) || negb (bool_decide (files = ∅))); cbn.
  - destruct (build_mime_returns form files) as [parts ->]. cbn.
    destruct (fold_outcome _ _ _); cbn; [|done..].
    destruct (negb (bool_decide (res _ = _))); proxied Hproxy.
  - destruct (fold_outcome _ _ _); cbn; [|done..].
    destruct (negb (bool_decide (res _ = _))); proxied Hproxy.
Qed.

(** X11: no Tor operation performs an exchange that is not configured
    with the proxy [socks5h://localhost:9050]: whenever one returns, it
    has performed no exchange or a single one carrying that proxy
    option; the same holds for an HTTP operation called with a
    non-empty proxy. *)
Theorem tor_exchanges_use_proxy (E : engine) (url out : string)
    (form headers cookies files : gmap string string) (username password : string)
    (log log' : list request) :
  (∀ v, Tor.get E url headers cookies username password log = Returns (v, log') →
        through "socks5h://localhost:9050" log log') ∧
  (∀ v, Tor.post E url form headers cookies files username password log
          = Returns (v, log') →
        through "socks5h://localhost:9050" log log') ∧
  (∀ v, Tor.ping E url username password log = Returns (v, log') →
        through "socks5h://localhost:9050" log log') ∧
  (∀ v, Tor.download_file E url out form headers cookies files username password log
          = Returns (v, log') →
        through "socks5h://localhost:9050" log log') ∧
  (∀ b, Tor.is_tor_running E log = Returns (b, log') →
        through "socks5h://localhost:9050" log log') ∧
  (∀ proxy v, empty proxy = false →
        Http.get E url headers cookies proxy username password log = Returns (v, log') →
        through (c_str proxy) log log').
Proof.
  split_and!.
  - intros v. by apply (get_through_proxy E url headers cookies Tor.tor_proxy).
  - intros v. by apply (post_through_proxy E url form headers cookies files Tor.tor_proxy).
  - intros v. by apply (ping_through_proxy E url Tor.tor_proxy).
  - intros v.
    by apply (download_through_proxy E url out form headers cookies files Tor.tor_proxy).
  - intros b. unfold Tor.is_tor_running. unfold mbind at 1. unfold io_bind.
    destruct (Http.ping E Tor.check_url Tor.tor_proxy EmptyString EmptyString log)
      as [[v log'']| |] eqn:Hping; [|done..].
    intros [= _ <-]. exact (ping_through_proxy E _ Tor.tor_proxy _ _ _ _ _ eq_refl Hping).
  - intros proxy v. apply get_through_proxy.
Qed.

Lemma tor_exchanges_use_proxy_witness :
  through "socks5h://localhost:9050" []
    [[CURLOPT_URL "http://example.onion";
      CURLOPT_SSL_OPTIONS CURLSSLOPT_NATIVE_CA;
      CURLOPT_NOBODY 1;
      CURLOPT_WRITEFUNCTION FnWrite;
      CURLOPT_WRITEDATA StringBuffer;
      CURLOPT_HEADERFUNCTION FnHeader;
      CURLOPT_HEADERDATA;
      CURLOPT_FOLLOWLOCATION 1;
      CURLOPT_TIMEOUT 5;
      CURLOPT_CONNECTTIMEOUT 5;
      CURLOPT_PROXY "socks5h://localhost:9050"]].
Proof.
  eapply (proj1 (proj2 (proj2 (tor_exchanges_use_proxy
            (replying_engine (reply 0 200 ["HTTP/1.1 200 OK"] []))
            "http://example.onion" EmptyString ∅ ∅ ∅ ∅ EmptyString EmptyString [] _)))).
  lazy. reflexivity.
Defined.

End Proxy.

Section TelnetOptions.
Import Curl.

(** Takes apart a membership in a request written with [::] and [++]. *)
Ltac split_elem H :=
  repeat first
    [apply elem_of_nil in H; destruct H
    |apply elem_of_cons in H as [H|H]; [try discriminate H|]
    |apply elem_of_app in H as [H|H]].

Lemma setopt_if_elem (b : bool) (o o' : curlopt) :
  o' ∈ setopt_if b o ↔ b = true ∧ o' = o.
Proof.
  destruct b; cbn.
  - rewrite list_elem_of_singleton. intuition congruence.
  - rewrite elem_of_nil. intuition congruence.
Qed.

Lemma credentials_elem (username password : string) (o : curlopt) :
  o ∈ Telnet.credentials username password ↔
  (username ≠ EmptyString ∧ password ≠ EmptyString) ∧
  (o = CURLOPT_USERNAME (c_str username) ∨ o = CURLOPT_PASSWORD (c_str password)).
Proof.
  unfold Telnet.credentials.
  destruct username, password; cbn;
    rewrite ?elem_of_cons, ?elem_of_nil; intuition congruence.
Qed.

Lemma written_content (chunks : list string) (out : string) :
  foldl (λ out chunk, Telnet.write_callback chunk out) out chunks
  = out +:+ String.concat EmptyString chunks.
Proof.
  revert out. induction chunks as [|chunk chunks IH]; intros out.
  - cbn. by rewrite str_app_nil_r.
  - cbn [foldl]. rewrite IH. unfold Telnet.write_callback.
    rewrite str_app_assoc. f_equal.
    destruct chunks; cbn [String.concat]; [by rewrite str_app_nil_r|done].
Qed.

(** X12: with a handle, [exec_with_options] performs exactly one
    exchange and answers with what was received, the chunks in order;
    the exchange carries the telnet options exactly when some are given,
    the commands exactly when some are given, and a user name exactly
    when neither the user name nor the password is empty; without
    telnet options it is [command]. *)
Theorem exec_with_options_request (E : engine) (url : string)
    (telnet_options commands : list string) (proxy username password : string)
    (timeout : Z) (log : list request) :
  curl_easy_init E = true →
  ∃ opts,
    Telnet.exec_with_options E url telnet_options commands proxy username password
      timeout log
    = Returns (Some (Telnet.settle E (curl_easy_perform E opts) Telnet.fresh_response),
               log ++ [opts]) ∧
    Telnet.content (Telnet.settle E (curl_easy_perform E opts) Telnet.fresh_response)
    = String.concat EmptyString (body_chunks (curl_easy_perform E opts)) ∧
    (∀ l, CURLOPT_TELNETOPTIONS l ∈ opts ↔ l = c_str <$> telnet_options ∧ telnet_options ≠ []) ∧
    (∀ l, CURLOPT_QUOTE l ∈ opts ↔ l = c_str <$> commands ∧ commands ≠ []) ∧
    (∀ name, CURLOPT_USERNAME name ∈ opts ↔
       name = c_str username ∧ username ≠ EmptyString ∧ password ≠ EmptyString) ∧
    (telnet_options = [] →
     Telnet.exec_with_options E url telnet_options commands proxy username password
       timeout log
     = Telnet.command E url commands proxy username password timeout log).
Proof.
  intros Hinit. unfold Telnet.exec_with_options, Telnet.command. io_steps.
  rewrite Hinit. cbn. eexists. split; [reflexivity|].
  split; [apply (written_content _ EmptyString)|].
  assert (∀ (names : list string), c_str <$> names = [] ↔ names = []) as Hnil.
  { intros names. split; [apply fmap_nil_inv|by intros ->]. }
  split_and!.
  - intros l. rewrite !elem_of_cons, !elem_of_app, !setopt_if_elem, credentials_elem.
    rewrite !negb_true_iff, !bool_decide_eq_false, !Hnil. intuition congruence.
  - intros l. rewrite !elem_of_cons, !elem_of_app, !setopt_if_elem, credentials_elem.
    rewrite !negb_true_iff, !bool_decide_eq_false, !Hnil. intuition congruence.
  - intros name. rewrite !elem_of_cons, !elem_of_app, !setopt_if_elem, credentials_elem.
    clear Hnil. intuition congruence.
  - intros ->. reflexivity.
Qed.

Lemma exec_with_options_request_witness :
  ∃ opts,
    Telnet.exec_with_options (replying_engine (reply 0 0 [] ["lo"; "gin: "]))
      "telnet://host" ["TTYPE=vt100"] [] EmptyString "admin" EmptyString 30 []
    = Returns (Some {| Telnet.error_message := EmptyString; Telnet.content := "login: " |},
               [opts]) ∧
    CURLOPT_TELNETOPTIONS ["TTYPE=vt100"] ∈ opts.
Proof.
  destruct (exec_with_options_request (replying_engine (reply 0 0 [] ["lo"; "gin: "]))
              "telnet://host" ["TTYPE=vt100"] [] EmptyString "admin" EmptyString 30 []
              eq_refl) as (opts & Hrun & _ & Hopts & _).
  exists opts. split.
  - exact Hrun.
  - apply Hopts. split; [reflexivity|discriminate].
Defined.

End TelnetOptions.

Section GetOutcome.
Import Curl Http.

Lemma header_callback_cases (line : string) (response : quoneq_http_response) :
  (header_callback line response = Throws ∧ unreadable_status line) ∨
  (¬ unreadable_status line ∧
   ∃ response',
     header_callback line response = Returns response' ∧
     errorMessage response' = errorMessage response ∧
     content response' = content response).
Proof.
  unfold header_callback, unreadable_status.
  assert (status_line line ∨ ¬ status_line line) as [Hst|Hno].
  { unfold status_line. rewrite <- find_zero.
    destruct (decide (find "HTTP/" line = Some 0%nat)); [by left|by right]. }
  - rewrite read_status_line_status by done.
    destruct (stoi (extracted (tokens line) 1)) as [code|]; cbn.
    + right. split; [by intros [_ ?]|].
      edestruct read_header_field_returns as (response' & -> & _ & _ & He & Hc).
      by exists response'.
    + by left.
  - rewrite read_status_line_other by done. cbn. right. split; [by intros [? _]|].
    edestruct read_header_field_returns as (response' & -> & _ & _ & He & Hc).
    by exists response'.
Qed.

Lemma header_lines_cases (lines : list string) (response : quoneq_http_response) :
  (fold_outcome header_callback lines response = Throws ∧
   ∃ line, line ∈ lines ∧ unreadable_status line) ∨
  ((∀ line, line ∈ lines → ¬ unreadable_status line) ∧
   ∃ response',
     fold_outcome header_callback lines response = Returns response' ∧
     errorMessage response' = errorMessage response ∧
     content response' = content response).
Proof.
  revert response. induction lines as [|line lines IH]; intros response.
  - right. split; [by intros line ?%elem_of_nil|]. by exists response.
  - cbn [fold_outcome].
    destruct (header_callback_cases line response)
      as [[-> Hbad]|(Hgood & r1 & -> & He1 & Hc1)].
    + left. split; [done|]. exists line. split; [apply list_elem_of_here|done].
    + cbn. destruct (IH r1) as [[-> (bad & Hin & Hbad)]|(Hall & r2 & -> & He2 & Hc2)].
      * left. split; [done|]. exists bad. split; [by apply list_elem_of_further|done].
      * right. split.
        { intros l [->|Hin]%elem_of_cons; [done|by apply Hall]. }
        exists r2. split_and!; [done|congruence..].
Qed.

(** X18: with a handle, [get] ends in the exception of [std::stoi]
    exactly when one of the header lines of the exchange is a status
    line whose second token is no number; otherwise it performs that one
    exchange and returns a response which, when the exchange completed,
    has the received chunks in order as its content and no error text,
    and, when it failed, has the error text of the engine and no
    content. *)
Theorem get_outcome (E : engine) (url : string) (headers cookies : gmap string string)
    (proxy username password : string) (log : list request) :
  curl_easy_init E = true →
  let opts := get_request url headers cookies proxy username password in
  let r := curl_easy_perform E opts in
  (get E url headers cookies proxy username password log = Throws ↔
   ∃ line, line ∈ header_lines r ∧ unreadable_status line) ∧
  ((∀ line, line ∈ header_lines r → ¬ unreadable_status line) →
   ∃ response,
     get E url headers cookies proxy username password log
     = Returns (Some response, log ++ [opts]) ∧
     (res r = CURLE_OK →
      content response = String.concat EmptyString (body_chunks r) ∧
      errorMessage response = EmptyString) ∧
     (res r ≠ CURLE_OK →
      errorMessage response = curl_easy_strerror E (res r) ∧
      content response = EmptyString)).
Proof.
  intros Hinit opts r.
  assert (get E url headers cookies proxy username password log
          = match fold_outcome header_callback (header_lines r) fresh_response with
            | Returns response =>
                Returns (Some (if negb (bool_decide (res r = CURLE_OK))
                               then set_errorMessage (curl_easy_strerror E (res r)) response
                               else set_content
                                      (foldl (λ out chunk, write_callback chunk out)
                                             EmptyString (body_chunks r)) response),
                         log ++ [opts])
            | Throws => Throws
            | Diverges => Diverges
            end) as ->.
  { subst r opts. unfold get, exchange, get_request. io_steps. rewrite Hinit. cbn.
    destruct (fold_outcome header_callback _ fresh_response); cbn; [|done..].
    by destruct (negb (bool_decide (res _ = CURLE_OK))). }
  destruct (header_lines_cases (header_lines r) fresh_response)
    as [[-> Hbad]|(Hall & response & -> & He & Hc)].
  - split; [done|]. intros Hall. destruct Hbad as (line & Hin & Hbad).
    by destruct (Hall line Hin).
  - split.
    + split; [done|]. intros (line & Hin & Hbad). by destruct (Hall line Hin).
    + intros _. eexists. split; [reflexivity|]. split.
      * intros Hok. rewrite bool_decide_eq_true_2 by done. cbn. split; [|done].
        apply (written_content _ EmptyString).
      * intros Hfail. rewrite bool_decide_eq_false_2 by done. cbn. done.
Qed.

Lemma get_outcome_witness :
  get (replying_engine (reply 0 200 ["HTTP/1.1 OK"] []))
    "http://example.org" ∅ ∅ EmptyString EmptyString EmptyString []
  = Throws.
Proof.
  apply (proj1 (get_outcome (replying_engine (reply 0 200 ["HTTP/1.1 OK"] []))
                  "http://example.org" ∅ ∅ EmptyString EmptyString EmptyString []
                  eq_refl)).
  exists "HTTP/1.1 OK". split.
  - apply list_elem_of_here.
  - split; [by exists "1.1 OK"|reflexivity].
Defined.

End GetOutcome.

Section CaCert.
Import Curl.

(** X15: after [set_ca_cert path], [get_ca_cert] answers the empty
    string when a handle was obtained and the engine reports an empty CA
    file, and [path] in every other case: without a handle, without a
    CA file, and with a non-empty CA file, which is never what it
    answers. *)
Theorem get_ca_cert_after_set (E : engine) (cainfo : option string)
    (path previous : string) :
  let answer := Net.get_ca_cert E cainfo (Net.set_ca_cert path previous) in
  (curl_easy_init E = true → cainfo = Some EmptyString → answer = EmptyString) ∧
  (curl_easy_init E = false ∨ cainfo ≠ Some EmptyString → answer = path).
Proof.
  unfold Net.get_ca_cert, Net.set_ca_cert. cbn zeta. split.
  - by intros -> ->.
  - intros [->|Hinfo]; [done|].
    destruct (curl_easy_init E); cbn; [|done].
    by destruct cainfo as [[|c cacert]|].
Qed.

Lemma get_ca_cert_after_set_witness :
  Net.get_ca_cert (replying_engine (reply 0 0 [] [])) (Some EmptyString)
    (Net.set_ca_cert "ca.pem" Net.cacert_path_initial)
  = EmptyString ∧
  Net.get_ca_cert (replying_engine (reply 0 0 [] [])) (Some "/etc/ssl/cert.pem")
    (Net.set_ca_cert "ca.pem" Net.cacert_path_initial)
  = "ca.pem".
Proof.
  split.
  - apply (proj1 (get_ca_cert_after_set (replying_engine (reply 0 0 [] []))
                    (Some EmptyString) "ca.pem" Net.cacert_path_initial));
      reflexivity.
  - apply (proj2 (get_ca_cert_after_set (replying_engine (reply 0 0 [] []))
                    (Some "/etc/ssl/cert.pem") "ca.pem" Net.cacert_path_initial)).
    right. discriminate.
Defined.

End CaCert.

Section MoreWitnesses.
Import Curl.

Lemma prepare_cookies_joined_witness :
  Http.prepare_cookies {[ "sid" := "1"; "lang" := "en" ]} = "lang=en; sid=1" ∧
  Http.prepare_cookies ∅ = EmptyString.
Proof.
  split.
  - rewrite (proj1 (prepare_cookies_joined {[ "sid" := "1"; "lang" := "en" ]})).
    vm_compute. reflexivity.
  - apply (proj2 (prepare_cookies_joined ∅)). reflexivity.
Defined.

Lemma prepare_headers_one_line_per_header_witness :
  Http.prepare_headers {[ "Host" := "example.org"; "Accept" := "*/*" ]} !! 0%nat
  = Some "Accept: */*" ∧
  Http.prepare_headers {[ "Host" := "example.org"; "Accept" := "*/*" ]} !! 1%nat
  = Some "Host: example.org".
Proof.
  destruct (proj2 (proj2 (prepare_headers_one_line_per_header
                           {[ "Host" := "example.org"; "Accept" := "*/*" ]}))
              0%nat 1%nat "Accept" "*/*" "Host" "example.org")
    as (_ & _ & H0 & H1).
  - lia.
  - vm_compute. reflexivity.
  - vm_compute. reflexivity.
  - split; [exact H0|exact H1].
Defined.

Lemma is_file_is_folder_exclusive_witness :
  Ftp.is_file
    (replying_engine (reply 0 226 [] ["-rw-r--r-- 1 ftp ftp 12 Jan 01 00:00 a.txt"]))
    "ftp://host/a.txt" EmptyString EmptyString []
  = Returns (true, [info_request "ftp://host/a.txt" EmptyString EmptyString]) ∧
  Ftp.is_folder
    (replying_engine (reply 0 226 [] ["-rw-r--r-- 1 ftp ftp 12 Jan 01 00:00 a.txt"]))
    "ftp://host/a.txt" EmptyString EmptyString []
  = Returns (false, [info_request "ftp://host/a.txt" EmptyString EmptyString]).
Proof.
  destruct (is_file_is_folder_exclusive
              (replying_engine
                 (reply 0 226 [] ["-rw-r--r-- 1 ftp ftp 12 Jan 01 00:00 a.txt"]))
              "ftp://host/a.txt" EmptyString EmptyString [])
    as (file & folder & Hfile & Hfolder & Hfile_iff & _ & Hexclusive).
  assert (file = true) as Htrue.
  { apply Hfile_iff. split_and!; reflexivity. }
  rewrite (Hexclusive Htrue) in Hfolder. rewrite Htrue in Hfile.
  split; [exact Hfile|exact Hfolder].
Defined.

Lemma ftp_response_shape_witness :
  ∃ r log',
    Ftp.read (replying_engine (reply 0 226 [] ["hello"])) "ftp://host/a.txt"
      EmptyString EmptyString [] = Returns (r, log') ∧
    (failure_shaped r ∨ success_shaped r).
Proof.
  eexists _, _. split.
  - lazy. reflexivity.
  - eapply (ftp_response_shape (replying_engine (reply 0 226 [] ["hello"]))
              "ftp://host/a.txt" EmptyString EmptyString EmptyString []).
    right; right; left. lazy. reflexivity.
Defined.

End MoreWitnesses.

(** * MIME parts *)

Section MimeParts.
Import Curl.
Local Open Scope Z_scope.

Lemma not_mentions_nil (c : ascii) : ¬ mentions c EmptyString.
Proof. intros ([|??] & post & H); discriminate H. Qed.

Lemma mentions_cons (c a : ascii) (s : string) :
  mentions c (String a s) ↔ c = a ∨ mentions c s.
Proof.
  split.
  - intros ([|b pre] & post & H); cbn in H; injection H as -> ->.
    + by left.
    + right. by exists pre, post.
  - intros [->|(pre & post & ->)].
    + by exists EmptyString, s.
    + by exists (String a pre), post.
Qed.

(** A path holds no separator, or ends in a separator and a name. *)
Lemma last_separator (path : string) :
  separator_free path ∨
  ∃ dir sep name,
    path = dir +:+ String sep name ∧
    (sep = "/"%char ∨ sep = "\"%char) ∧ separator_free name.
Proof.
  induction path as [|a path IH].
  - left. split; apply not_mentions_nil.
  - destruct IH as [Hfree|(dir & sep & name & -> & Hsep & Hname)].
    + destruct (decide (a = "/"%char)) as [->|Hslash].
      { right. by exists EmptyString, "/"%char, path; split_and!; [|left|]. }
      destruct (decide (a = "\"%char)) as [->|Hback].
      { right. by exists EmptyString, "\"%char, path; split_and!; [|right|]. }
      left. destruct Hfree as [H1 H2].
      split; rewrite mentions_cons; intros [?|?]; by simplify_eq.
    + right. by exists (String a dir), sep, name.
Qed.

(** The file name both builders read: a final stretch of the path
    without a separator. *)
Lemma file_name_cases (path : string) :
  CxxString.size path < size_t_modulus →
  ∃ name,
    Http.basename path = Returns name ∧
    Smtp.attachment_name path = Returns name ∧
    separator_free name ∧ ∃ dir, path = dir +:+ name.
Proof.
  intros Hsize.
  destruct (last_separator path) as [Hfree|(dir & sep & name & -> & Hsep & Hname)].
  - destruct (name_without_separator path Hsize Hfree) as [H1 H2].
    exists path. split_and!; [done..|by exists EmptyString].
  - destruct (name_after_last_separator dir name sep Hsize Hsep Hname) as [H1 H2].
    exists name. split_and!; [done..|].
    exists (dir +:+ String sep EmptyString). by rewrite str_app_assoc.
Qed.

(** The loop over the files of a form adds one part per file. *)
Lemma form_files (files : list (string * string)) (parts : list (list mime_setting)) :
  Forall (λ kv, CxxString.size kv.2 < size_t_modulus) files →
  ∃ names,
    fold_outcome
      (λ (kv : string * string) (parts : list (list mime_setting)),
         filename ← Http.basename kv.2;
         Returns (parts ++ [[MimeName (c_str kv.1); MimeFiledata (c_str kv.2);
                             MimeFilename (c_str filename)]]))
      files parts
    = Returns (parts ++
               zip_with (λ (kv : string * string) name,
                           [MimeName (c_str kv.1); MimeFiledata (c_str kv.2);
                            MimeFilename (c_str name)])
                        files names) ∧
    Forall2 (λ (kv : string * string) name,
               separator_free name ∧ ∃ dir, kv.2 = dir +:+ name)
            files names.
Proof.
  intros Hfiles. revert parts.
  induction Hfiles as [|kv files Hsize _ IH]; intros parts.
  - exists []. cbn. by rewrite List.app_nil_r.
  - destruct (file_name_cases kv.2 Hsize) as (name & Hname & _ & Hfree & Hdir).
    cbn [fold_outcome]. rewrite Hname. cbn.
    destruct (IH (parts ++ [[MimeName (c_str kv.1); MimeFiledata (c_str kv.2);
                             MimeFilename (c_str name)]])) as (names & -> & Hnames).
    exists (name :: names). split.
    + cbn [zip_with]. by rewrite <- List.app_assoc.
    + by constructor.
Qed.

(** The loop over the attachments of a message adds one part per file. *)
Lemma message_files (files : list string) (parts : list (list mime_setting)) :
  Forall (λ file, CxxString.size file < size_t_modulus) files →
  ∃ names,
    fold_outcome
      (λ (file : string) (parts : list (list mime_setting)),
         filename ← Smtp.attachment_name file;
         Returns (parts ++ [[MimeFiledata (c_str file);
                             MimeType "application/octet-stream";
                             MimeEncoder "base64";
                             MimeFilename (c_str filename)]]))
      files parts
    = Returns (parts ++
               zip_with (λ file name,
                           [MimeFiledata (c_str file);
                            MimeType "application/octet-stream";
                            MimeEncoder "base64";
                            MimeFilename (c_str name)])
                        files names) ∧
    Forall2 (λ file name, separator_free name ∧ ∃ dir, file = dir +:+ name)
            files names.
Proof.
  intros Hfiles. revert parts.
  induction Hfiles as [|file files Hsize _ IH]; intros parts.
  - exists []. cbn. by rewrite List.app_nil_r.
  - destruct (file_name_cases file Hsize) as (name & _ & Hname & Hfree & Hdir).
    cbn [fold_outcome]. rewrite Hname. cbn.
    destruct (IH (parts ++ [[MimeFiledata (c_str file);
                             MimeType "application/octet-stream";
                             MimeEncoder "base64";
                             MimeFilename (c_str name)]])) as (names & -> & Hnames).
    exists (name :: names). split.
    + cbn [zip_with]. by rewrite <- List.app_assoc.
    + by constructor.
Qed.

(** X19: the MIME body of [post] and [download_file] has one part per
    form field, then one part per file, each group in ascending order of
    the keys; a file part is named by its key, reads the file at the
    path given and carries as file name a final stretch of that path
    which holds no [/] and no [\]. *)
Theorem build_mime_parts (form files : gmap string string) :
  (∀ key path, files !! key = Some path → CxxString.size path < size_t_modulus) →
  ∃ names,
    Http.build_mime form files
    = Returns (((λ kv, [MimeName (c_str kv.1); MimeData (c_str kv.2)])
                  <$> Http.in_key_order form) ++
               zip_with (λ (kv : string * string) name,
                           [MimeName (c_str kv.1); MimeFiledata (c_str kv.2);
                            MimeFilename (c_str name)])
                        (Http.in_key_order files) names) ∧
    Forall2 (λ (kv : string * string) name,
               separator_free name ∧ ∃ dir, kv.2 = dir +:+ name)
            (Http.in_key_order files) names ∧
    length names = base.size files.
Proof.
  intros Hsizes.
  destruct (form_files (Http.in_key_order files) []) as (names & Hfold & Hnames).
  { apply Forall_forall. intros [key path] Hin%elem_of_in_key_order.
    by apply (Hsizes key). }
  exists names. unfold Http.build_mime. rewrite Hfold. cbn.
  split_and!; [done|done|].
  rewrite <- (Forall2_length _ _ _ Hnames).
  by rewrite in_key_order_permutation, length_map_to_list.
Qed.

Lemma build_mime_parts_witness :
  ∃ names,
    Http.build_mime {[ "title" := "report" ]} {[ "file" := "out/report.pdf" ]}
    = Returns ([[MimeName "title"; MimeData "report"]] ++
               zip_with (λ (kv : string * string) name,
                           [MimeName (c_str kv.1); MimeFiledata (c_str kv.2);
                            MimeFilename (c_str name)])
                        [("file", "out/report.pdf")] names) ∧
    Forall2 (λ (kv : string * string) name,
               separator_free name ∧ ∃ dir, kv.2 = dir +:+ name)
            [("file", "out/report.pdf")] names.
Proof.
  destruct (build_mime_parts {[ "title" := "report" ]} {[ "file" := "out/report.pdf" ]})
    as (names & Hrun & Hnames & _).
  - intros key path [_ <-]%lookup_singleton_Some. reflexivity.
  - exists names. split; [exact Hrun|exact Hnames].
Defined.

(** X20: with a handle, [send_email] performs one exchange and answers
    whether it completed.  Without attachments the exchange streams the
    assembled message from its start through the read callback; with
    attachments it carries a MIME structure instead: the root part, the
    body part with the message as it is, then one base64 part per file,
    in the order given, whose file name is a final stretch of the path
    without [/] and [\]. *)
Theorem send_email_request (E : engine)
    (smtp_server email password recipient subject message : string)
    (is_html : bool) (files : list string) (log : list request) :
  curl_easy_init E = true →
  Forall (λ file, CxxString.size file < size_t_modulus) files →
  ∃ body,
    let opts :=
      [CURLOPT_URL (c_str smtp_server);
       CURLOPT_SSL_OPTIONS CURLSSLOPT_NATIVE_CA;
       CURLOPT_USERNAME (c_str email);
       CURLOPT_PASSWORD (c_str password);
       CURLOPT_MAIL_FROM (c_str email);
       CURLOPT_MAIL_RCPT [c_str recipient];
       CURLOPT_USE_SSL CURLUSESSL_ALL;
       CURLOPT_SSL_VERIFYPEER 1;
       CURLOPT_SSL_VERIFYHOST 2] ++ body in
    Smtp.send_email E smtp_server email password recipient subject message is_html
      files log
    = Returns (bool_decide (res (curl_easy_perform E opts) = CURLE_OK), log ++ [opts]) ∧
    (files = [] →
     body = [CURLOPT_READFUNCTION FnPayloadSource;
             CURLOPT_READDATA
               (UploadContext 0
                  (Smtp.email_payload email recipient subject message is_html));
             CURLOPT_UPLOAD 1]) ∧
    (files ≠ [] →
     ∃ root names,
       body = [CURLOPT_MIMEPOST
                 (root ::
                  [MimeType (if is_html then "text/html" else "text/plain");
                   MimeData message] ::
                  zip_with (λ file name,
                              [MimeFiledata (c_str file);
                               MimeType "application/octet-stream";
                               MimeEncoder "base64";
                               MimeFilename (c_str name)])
                           files names)] ∧
       Forall2 (λ file name, separator_free name ∧ ∃ dir, file = dir +:+ name)
               files names).
Proof.
  intros Hinit Hfiles. unfold Smtp.send_email. io_steps. rewrite Hinit. cbn.
  destruct (decide (files = [])) as [->|Hsome].
  - cbn. eexists. split_and!; [reflexivity|done|done].
  - rewrite bool_decide_eq_false_2 by done. cbn.
    unfold Smtp.setup_mime_structure. cbn zeta.
    destruct (message_files files [] Hfiles) as (names & -> & Hnames). cbn.
    eexists. split_and!; [reflexivity|done|].
    intros _. eexists _, names. split; [|done].
    by destruct is_html.
Qed.

Lemma send_email_request_witness :
  ∃ body,
    Smtp.send_email (replying_engine (reply 0 250 [] []))
      "smtps://mail.example.org" "a@example.org" "secret" "b@example.org" "hi" "text"
      false ["docs/a.txt"] []
    = Returns (true,
               [[CURLOPT_URL "smtps://mail.example.org";
                 CURLOPT_SSL_OPTIONS CURLSSLOPT_NATIVE_CA;
                 CURLOPT_USERNAME "a@example.org";
                 CURLOPT_PASSWORD "secret";
                 CURLOPT_MAIL_FROM "a@example.org";
                 CURLOPT_MAIL_RCPT ["b@example.org"];
                 CURLOPT_USE_SSL CURLUSESSL_ALL;
                 CURLOPT_SSL_VERIFYPEER 1;
                 CURLOPT_SSL_VERIFYHOST 2] ++ body]).
Proof.
  destruct (send_email_request (replying_engine (reply 0 250 [] []))
              "smtps://mail.example.org" "a@example.org" "secret" "b@example.org"
              "hi" "text" false ["docs/a.txt"] [] eq_refl)
    as (body & Hrun & _).
  - repeat constructor.
  - exists body. exact Hrun.
Defined.

End MimeParts.
